(** * The interaction tracker and the evolution engine of js/app.js

    A shallow embedding of the two classes [InteractionTracker] and
    [EvolutionEngine] of the portfolio page, and the properties of them
    that the design notes state.

    Conventions of the embedding.
    - A counter is a JavaScript number that holds an integer or NaN: [num].
      Integers are unbounded here; the source's doubles agree with them
      below 2^53.
    - An object used as a dictionary ([clicks], [timeOnSections],
      [sectionViews]) is a finite map from property names to [num]; a
      lookup [o[k]] also sees the members every object inherits from
      [Object.prototype].
    - [localStorage], the console, the clock and the document are the
      fields of one record, [Browser]; a method is a function that takes
      the receiver and the browser and returns the new receiver and the new
      browser.  [Date.now()] reads the same instant during one callback.
    - A storage primitive can throw; [try]/[catch] is written out where the
      source has it.
    - A stored string that is JSON text is given by the tree it denotes.
      [JSON.stringify] writes [null] for NaN and the infinities and [0] for
      the negative zero, so the tree read back is [stringified] of the tree
      written. *)

From Stdlib Require Import ZArith Floats Uint63.
From stdpp Require Import gmap strings list fin_maps.

Local Open Scope Z_scope.

(* 0.3 and 0.4 denote the nearest doubles, as they do in the source. *)
Set Warnings "-inexact-float".

(** ** Numbers *)

Inductive num : Type :=
| Num (z : Z)
| NaN.

(** [v + 1], the value [v++] stores. *)
Definition incr (v : num) : num :=
  match v with
  | Num z => Num (z + 1)
  | NaN => NaN
  end.

(** [a + b] on numbers. *)
Definition jadd (a b : num) : num :=
  match a, b with
  | Num x, Num y => Num (x + y)
  | _, _ => NaN
  end.

(** [a > b]: false as soon as one side is NaN. *)
Definition jgt (a b : num) : bool :=
  match a, b with
  | Num x, Num y => bool_decide (y < x)
  | _, _ => false
  end.

Definition is_number (v : num) : Prop :=
  match v with
  | Num _ => True
  | NaN => False
  end.

(** The double nearest to an integer (exact below 2^53). *)
Definition to_float (z : Z) : float :=
  if bool_decide (z < 0)
  then PrimFloat.opp (PrimFloat.of_uint63 (Uint63.of_Z (- z)))
  else PrimFloat.of_uint63 (Uint63.of_Z z).

Definition num_float (v : num) : float :=
  match v with
  | Num z => to_float z
  | NaN => PrimFloat.nan
  end.

(** ** Objects used as dictionaries *)

(** The names an ordinary object inherits from [Object.prototype]. *)
Definition Object_prototype : list string :=
  [ "constructor"; "hasOwnProperty"; "isPrototypeOf";
    "propertyIsEnumerable"; "toLocaleString"; "toString"; "valueOf";
    "__defineGetter__"; "__defineSetter__"; "__lookupGetter__";
    "__lookupSetter__"; "__proto__" ].

(** What [o[k]] evaluates to. *)
Inductive property : Type :=
| Own (v : num)      (* an own counter *)
| Inherited          (* a member of Object.prototype: a function or object *)
| Undefined.

Definition get (o : gmap string num) (k : string) : property :=
  match o !! k with
  | Some v => Own v
  | None => if bool_decide (k ∈ Object_prototype) then Inherited else Undefined
  end.

(** [p !== undefined] *)
Definition is_defined (p : property) : bool :=
  match p with
  | Undefined => false
  | _ => true
  end.

(** [o[k]++].  An inherited method converts to NaN, and the assignment
    creates an own property; assigning a number to [__proto__] is ignored
    by its setter. *)
Definition post_increment (o : gmap string num) (k : string) : gmap string num :=
  match get o k with
  | Own v => <[k := incr v]> o
  | Inherited => if bool_decide (k = "__proto__") then o else <[k := NaN]> o
  | Undefined => <[k := NaN]> o
  end.

(** [o[k] += n].  [undefined + n] is NaN.  For a member that [o] only
    inherits the sum is a string (the source text of the member followed
    by the digits of [n]) and the call goes on with it; [num] has no
    strings, so such a step is outside this development: [None].  The
    statements that follow a run of steps say so by assuming the run is
    [Some]. *)
Definition add_assign (o : gmap string num) (k : string) (n : Z)
  : option (gmap string num) :=
  match get o k with
  | Own v => Some (<[k := jadd v (Num n)]> o)
  | Inherited => None
  | Undefined => Some (<[k := NaN]> o)
  end.

(** [o.k] read as a number, for the fixed names the rules use (none of
    them is inherited): a missing property is [undefined], which compares
    and adds as NaN. *)
Definition field (o : gmap string num) (k : string) : num :=
  match o !! k with
  | Some v => v
  | None => NaN
  end.

(** [Object.values(o).reduce((a, b) => a + b, 0)] *)
Definition sum_values (o : gmap string num) : num :=
  map_fold (λ _ b a, jadd a b) (Num 0) o.

(** ** JSON *)

#[warnings="-register-all"]
Inductive json : Type :=
| JNull
| JBool (b : bool)
| JInt (z : Z)
| JReal (f : float)
| JStr (s : string)
| JArr (items : list json)
| JObj (fields : list (string * json)).

(** Truthiness of a parsed value, as [||] and [?:] test it. *)
Definition truthy (j : json) : bool :=
  match j with
  | JNull => false
  | JBool b => b
  | JInt z => negb (bool_decide (z = 0))
  | JReal f => negb (PrimFloat.eqb f 0 || PrimFloat.is_nan f)
  | JStr s => negb (bool_decide (s = ""))
  | JArr _ | JObj _ => true
  end.

(** [{...o, k: v}]: an existing key keeps its place and takes the new
    value, a new key goes last. *)
Fixpoint obj_put (k : string) (v : json) (o : list (string * json))
  : list (string * json) :=
  match o with
  | [] => [(k, v)]
  | (k', v') :: rest =>
      if bool_decide (k' = k) then (k, v) :: rest
      else (k', v') :: obj_put k v rest
  end.

(** [{...o, ...extra}] *)
Definition obj_spread (o extra : list (string * json)) : list (string * json) :=
  foldl (λ acc kv, obj_put kv.1 kv.2 acc) o extra.

(** What [JSON.stringify] writes for a number: NaN becomes [null]. *)
Definition num_json (v : num) : json :=
  match v with
  | Num z => JInt z
  | NaN => JNull
  end.

Definition dict_json (o : gmap string num) : json :=
  JObj (prod_map id num_json <$> map_to_list o).

Definition opt_string_json (s : option string) : json :=
  match s with
  | Some s => JStr s
  | None => JNull
  end.

(** What [JSON.stringify] writes for a number that is not an integer:
    [null] for NaN and the infinities, [0] for the negative zero. *)
Definition float_json (f : float) : json :=
  if PrimFloat.is_nan f || PrimFloat.is_infinity f then JNull
  else if PrimFloat.eqb f 0 then JReal 0
  else JReal f.

(** The tree that the text [JSON.stringify] writes for a tree denotes,
    that is, [JSON.parse(JSON.stringify(j))]. *)
Fixpoint stringified (j : json) : json :=
  match j with
  | JReal f => float_json f
  | JArr items => JArr (stringified <$> items)
  | JObj fields => JObj ((λ kv, (kv.1, stringified kv.2)) <$> fields)
  | _ => j
  end.

(** A tree that comes back from storage as it is. *)
Definition storable (j : json) : Prop := stringified j = j.

(** ** InteractionData *)

Record InteractionData : Type := mkData {
  clicks : gmap string num;
  scrollDepth : Z;
  timeOnSections : gmap string num;
  themePreference : string;
  lastVisit : option string;
  visitCount : Z;
  sectionViews : gmap string num;
  interactions : list json
}.

(** The literal of the constructor. *)
Definition zero_clicks : gmap string num :=
  <["projects" := Num 0]> (<["contact" := Num 0]> (<["about" := Num 0]>
  (<["themeToggle" := Num 0]> (<["social" := Num 0]> (<["cta" := Num 0]>
  (<["navigation" := Num 0]> ∅)))))).

Definition zero_sections : gmap string num :=
  <["home" := Num 0]> (<["about" := Num 0]> (<["projects" := Num 0]>
  (<["contact" := Num 0]> ∅))).

Definition defaults : InteractionData :=
  {| clicks := zero_clicks;
     scrollDepth := 0;
     timeOnSections := zero_sections;
     themePreference := "light";
     lastVisit := None;
     visitCount := 0;
     sectionViews := zero_sections;
     interactions := [] |}.

Definition set_clicks (c : gmap string num) (d : InteractionData) :=
  mkData c (scrollDepth d) (timeOnSections d) (themePreference d)
         (lastVisit d) (visitCount d) (sectionViews d) (interactions d).
Definition set_timeOnSections (s : gmap string num) (d : InteractionData) :=
  mkData (clicks d) (scrollDepth d) s (themePreference d)
         (lastVisit d) (visitCount d) (sectionViews d) (interactions d).
Definition set_themePreference (p : string) (d : InteractionData) :=
  mkData (clicks d) (scrollDepth d) (timeOnSections d) p
         (lastVisit d) (visitCount d) (sectionViews d) (interactions d).
Definition set_visit (day : string) (n : Z) (d : InteractionData) :=
  mkData (clicks d) (scrollDepth d) (timeOnSections d) (themePreference d)
         (Some day) n (sectionViews d) (interactions d).
Definition set_sectionViews (s : gmap string num) (d : InteractionData) :=
  mkData (clicks d) (scrollDepth d) (timeOnSections d) (themePreference d)
         (lastVisit d) (visitCount d) s (interactions d).
Definition set_interactions (l : list json) (d : InteractionData) :=
  mkData (clicks d) (scrollDepth d) (timeOnSections d) (themePreference d)
         (lastVisit d) (visitCount d) (sectionViews d) l.

(** The tree [JSON.stringify(this.data)] serialises. *)
Definition toJSON (d : InteractionData) : json :=
  JObj [ ("clicks", dict_json (clicks d));
         ("scrollDepth", JInt (scrollDepth d));
         ("timeOnSections", dict_json (timeOnSections d));
         ("themePreference", JStr (themePreference d));
         ("lastVisit", opt_string_json (lastVisit d));
         ("visitCount", JInt (visitCount d));
         ("sectionViews", dict_json (sectionViews d));
         ("interactions", JArr (interactions d)) ].

(** Reading a parsed tree as an InteractionData record; [None] when the
    tree is not one (a missing field, a counter that is not a number). *)
Definition as_counter (kv : string * json) : option (string * num) :=
  match kv.2 with
  | JInt z => Some (kv.1, Num z)
  | _ => None
  end.

Definition as_dict (j : json) : option (gmap string num) :=
  match j with
  | JObj fields => list_to_map <$> mapM as_counter fields
  | _ => None
  end.

Definition as_int (j : json) : option Z :=
  match j with JInt z => Some z | _ => None end.
Definition as_string (j : json) : option string :=
  match j with JStr s => Some s | _ => None end.
Definition as_opt_string (j : json) : option (option string) :=
  match j with JStr s => Some (Some s) | JNull => Some None | _ => None end.
Definition as_array (j : json) : option (list json) :=
  match j with JArr l => Some l | _ => None end.

Definition as_data (j : json) : option InteractionData :=
  match j with
  | JObj fields =>
      let o : gmap string json := list_to_map fields in
      c ← o !! "clicks" ≫= as_dict;
      sd ← o !! "scrollDepth" ≫= as_int;
      ts ← o !! "timeOnSections" ≫= as_dict;
      tp ← o !! "themePreference" ≫= as_string;
      lv ← o !! "lastVisit" ≫= as_opt_string;
      vc ← o !! "visitCount" ≫= as_int;
      sv ← o !! "sectionViews" ≫= as_dict;
      ia ← o !! "interactions" ≫= as_array;
      Some (mkData c sd ts tp lv vc sv ia)
  | _ => None
  end.

(** ** The browser: storage, console, clock and document *)

(** A stored string: either JSON text, given by the tree it denotes and
    [JSON.parse] returns, or a string that is not JSON text (the empty
    string included). *)
Inductive text : Type :=
| Json (j : json)
| Garbled (s : string).

(** NaN, the infinities and the negative zero have no JSON text of their
    own: the text written denotes [stringified j]. *)
Definition JSON_stringify (j : json) : text := Json (stringified j).

(** Truthiness of a string: only the empty string is falsy. *)
Definition nonempty (t : text) : bool :=
  match t with
  | Json _ => true
  | Garbled s => negb (bool_decide (s = ""))
  end.

Inductive exn : Type := SecurityError | QuotaExceededError | SyntaxError.

Inductive result (A : Type) : Type :=
| Ok (a : A)
| Throw (e : exn).
Arguments Ok {A} a.
Arguments Throw {A} e.

Definition result_bind {A B} (r : result A) (k : A → result B) : result B :=
  match r with
  | Ok a => k a
  | Throw e => Throw e
  end.

(** The readings of the system clock during one callback: [Date.now()],
    [new Date().toDateString()] and [new Date().toISOString()]. *)
Record Clock : Type := { now : Z; today : string; iso : string }.

(** Callbacks handed to [setTimeout]. *)
Inductive task : Type :=
| InsertProjectsBeforeAbout
| GlowCard (index : nat)
| HideNotice.

(** The part of the document the two classes read or write.  A label is
    the text of the [span] inside a button, [None] when the button or its
    span is missing. *)
Record Dom : Type := mkDom {
  about_present : bool;
  projects_present : bool;
  about_follows_projects : bool;
  sections_opacity : option string;
  root_style : gmap string string;
  contactHero_label : option string;
  exploreProjects_label : option string;
  submit_label : option string;
  body_dark : bool;
  themeToggle_html : option string;
  project_cards : nat;
  head_styles : list string;
  projects_appended : list string;
  notice_present : bool;
  notice_text : option string;
  notice_shown : bool;
  timers : list (Z * task)
}.

(** [readable]: the page may use [localStorage]; when it may not, every
    access throws a SecurityError, a write as well as a read.  [writable]:
    the quota leaves room for a write. *)
Record Browser : Type := mkBrowser {
  cells : gmap string text;
  readable : bool;
  writable : bool;
  console : list (string * exn);
  clock : Clock;
  dom : Dom
}.

Definition set_cells (c : gmap string text) (b : Browser) : Browser :=
  mkBrowser c (readable b) (writable b) (console b) (clock b) (dom b).
Definition set_console (c : list (string * exn)) (b : Browser) : Browser :=
  mkBrowser (cells b) (readable b) (writable b) c (clock b) (dom b).
Definition set_dom (d : Dom) (b : Browser) : Browser :=
  mkBrowser (cells b) (readable b) (writable b) (console b) (clock b) d.

(** [localStorage.getItem(k)]; the access throws when storage is denied. *)
Definition localStorage_getItem (k : string) (b : Browser) : result (option text) :=
  if readable b then Ok (cells b !! k) else Throw SecurityError.

(** [localStorage.setItem(k, v)]; throws when storage is denied or full. *)
Definition localStorage_setItem (k : string) (v : text) (b : Browser) : result Browser :=
  if readable b then
    if writable b then Ok (set_cells (<[k := v]> (cells b)) b)
    else Throw QuotaExceededError
  else Throw SecurityError.

Definition JSON_parse (t : text) : result json :=
  match t with
  | Json j => Ok j
  | Garbled _ => Throw SyntaxError
  end.

Definition console_warn (msg : string) (e : exn) (b : Browser) : Browser :=
  set_console (console b ++ [(msg, e)]) b.

(** ** InteractionTracker *)

Record InteractionTracker : Type := mkTracker {
  data : InteractionData;
  currentSection : string;
  sectionStartTime : Z
}.

Definition set_data (d : InteractionData) (t : InteractionTracker) :=
  mkTracker d (currentSection t) (sectionStartTime t).

Definition interaction_key : string := "portfolioInteractionData".

(** [l.slice(-n)] *)
Definition slice_last {A} (n : nat) (l : list A) : list A :=
  drop (length l - n) l.

(** [l.push(e); if (l.length > cap) l = l.slice(-cap)] *)
Definition push_capped {A} (cap : nat) (e : A) (l : list A) : list A :=
  let l' := l ++ [e] in
  if bool_decide (cap < length l')%nat then slice_last cap l' else l'.

Definition log_entry (type : string) (extra : list (string * json)) (b : Browser) : json :=
  JObj (obj_spread [("type", JStr type); ("timestamp", JInt (now (clock b)))] extra).

Definition trackInteraction (type : string) (extra : list (string * json))
    (t : InteractionTracker) (b : Browser) : InteractionTracker :=
  set_data (set_interactions
              (push_capped 1000 (log_entry type extra b) (interactions (data t)))
              (data t)) t.

(** The document-wide click listener of [setupInteractionTracking]. *)
Definition on_document_click (elementData : list (string * json))
    (t : InteractionTracker) : InteractionTracker :=
  set_data (set_interactions
              (push_capped 1000 (JObj (obj_spread [("type", JStr "click")] elementData))
                           (interactions (data t)))
              (data t)) t.

Definition saveData (t : InteractionTracker) (b : Browser) : Browser :=
  match localStorage_setItem interaction_key (JSON_stringify (toJSON (data t))) b with
  | Ok b' => b'
  | Throw e => console_warn "Could not save interaction data:" e b
  end.

(** Returns the parsed tree, or [null]. *)
Definition loadData (b : Browser) : json * Browser :=
  match result_bind (localStorage_getItem interaction_key b)
          (λ saved, match saved with
                    | Some s => if nonempty s then JSON_parse s else Ok JNull
                    | None => Ok JNull
                    end) with
  | Ok j => (j, b)
  | Throw e => (JNull, console_warn "Could not load interaction data:" e b)
  end.

Definition getData (t : InteractionTracker) : InteractionData := data t.

(** [if (o[k] !== undefined) o[k]++] *)
Definition count (o : gmap string num) (k : string) : gmap string num :=
  if is_defined (get o k) then post_increment o k else o.

Definition trackSectionView (section : string)
    (t : InteractionTracker) (b : Browser) : InteractionTracker :=
  let t1 := set_data (set_sectionViews (count (sectionViews (data t)) section) (data t)) t in
  trackInteraction "section_view" [("section", JStr section)] t1 b.

(** [target] is [null] ([None]) by default; [target && ...] also skips
    the empty string. *)
Definition trackClick (type : string) (target : option string)
    (metadata : list (string * json))
    (t : InteractionTracker) (b : Browser) : InteractionTracker * Browser :=
  let c1 := count (clicks (data t)) type in
  let c2 := match target with
            | Some tg => if bool_decide (tg = "") then c1 else count c1 tg
            | None => c1
            end in
  let t1 := set_data (set_clicks c2 (data t)) t in
  let t2 := trackInteraction "click"
              (obj_spread [("type", JStr type); ("target", opt_string_json target)] metadata)
              t1 b in
  (t2, saveData t2 b).

Definition trackThemePreference (preference : string)
    (t : InteractionTracker) (b : Browser) : InteractionTracker * Browser :=
  let t1 := set_data (set_themePreference preference (data t)) t in
  let t2 := trackInteraction "theme_change" [("preference", JStr preference)] t1 b in
  (t2, saveData t2 b).

Definition incrementVisitCount (t : InteractionTracker) (b : Browser)
  : InteractionTracker * Browser :=
  if bool_decide (lastVisit (data t) = Some (today (clock b))) then (t, b)
  else
    let t1 := set_data (set_visit (today (clock b)) (visitCount (data t) + 1) (data t)) t in
    let t2 := trackInteraction "visit" [] t1 b in
    (t2, saveData t2 b).

(** [None]: [currentSection] names an inherited member, see [add_assign]. *)
Definition updateSectionTime (t : InteractionTracker) (b : Browser)
  : option InteractionTracker :=
  let timeSpent := now (clock b) - sectionStartTime t in
  s ← add_assign (timeOnSections (data t)) (currentSection t) timeSpent;
  Some (mkTracker (set_timeOnSections s (data t)) (currentSection t) (now (clock b))).

(** The IntersectionObserver callback of [setupSectionTracking], for one
    entry that is intersecting. *)
Definition on_section_visible (id : string) (t : InteractionTracker) (b : Browser)
  : option InteractionTracker :=
  t1 ← updateSectionTime t b;
  Some (trackSectionView id (mkTracker (data t1) id (now (clock b))) b).

Definition getEngagementScore (t : InteractionTracker) : float :=
  let clicks := num_float (sum_values (clicks (data t))) in
  let time := (num_float (sum_values (timeOnSections (data t))) / 1000)%float in
  let scroll := to_float (scrollDepth (data t)) in
  ((clicks * 0.3) + (time * 0.4) + (scroll * 0.3))%float.

Definition resetData (t : InteractionTracker) (b : Browser)
  : InteractionTracker * Browser :=
  let t1 := set_data (mkData zero_clicks 0 zero_sections "light"
                             (Some (today (clock b))) 1 zero_sections []) t in
  (t1, saveData t1 b).

(** The constructor: [this.data = this.loadData() || {...}], the three
    fields, then [init()], of which only [incrementVisitCount] changes the
    state (the other three register listeners).  A stored tree that is
    truthy but not an InteractionData record is outside this development:
    [IllShaped]. *)
Inductive constructed : Type :=
| Built (t : InteractionTracker) (b : Browser)
| IllShaped (j : json) (b : Browser).

Definition initial_data (j : json) : option InteractionData :=
  if truthy j then as_data j else Some defaults.

Definition new_InteractionTracker (b : Browser) : constructed :=
  let '(j, b1) := loadData b in
  match initial_data j with
  | Some d =>
      let '(t, b2) := incrementVisitCount (mkTracker d "home" (now (clock b1))) b1 in
      Built t b2
  | None => IllShaped j b1
  end.

(** ** EvolutionEngine *)

Record HistoryEntry : Type := mkEntry {
  timestamp : string;
  description : string;
  snapshot : json;            (* JSON.parse(JSON.stringify(data)) *)
  engagementScore : float
}.

(** The history holds the entries read from storage, which the engine
    never inspects, and the entries it pushes itself. *)
Inductive history_item : Type :=
| Stored (j : json)
| Logged (e : HistoryEntry).

Record EvolutionEngine : Type := mkEngine {
  evolutionHistory : list history_item;
  lastAppliedTimes : gmap string Z;
  currentEvolutions : gset string
}.

(** The two objects of the page; the engine works on the tracker it was
    given. *)
Record Page : Type := mkPage {
  tracker : InteractionTracker;
  engine : EvolutionEngine
}.

Definition history_key : string := "evolutionHistory".

(** A history item as the tree [JSON.stringify] is given: a stored item as
    it was read, a logged one field by field. *)
Definition item_json (i : history_item) : json :=
  match i with
  | Stored j => j
  | Logged e =>
      JObj [ ("timestamp", JStr (timestamp e));
             ("description", JStr (description e));
             ("data", snapshot e);
             ("engagementScore", JReal (engagementScore e)) ]
  end.

Definition saveEvolutionHistory (e : EvolutionEngine) (b : Browser) : Browser :=
  match localStorage_setItem history_key
          (JSON_stringify (JArr (item_json <$> evolutionHistory e))) b with
  | Ok b' => b'
  | Throw x => console_warn "Could not save evolution history:" x b
  end.

Definition loadEvolutionHistory (b : Browser) : json * Browser :=
  match result_bind (localStorage_getItem history_key b)
          (λ saved, match saved with
                    | Some s => if nonempty s then JSON_parse s else Ok (JArr [])
                    | None => Ok (JArr [])
                    end) with
  | Ok j => (j, b)
  | Throw x => (JArr [], console_warn "Could not load evolution history:" x b)
  end.

Definition evolutionEvent (desc : string) (p : Page) (b : Browser) : HistoryEntry :=
  {| timestamp := iso (clock b);
     description := desc;
     snapshot := stringified (toJSON (getData (tracker p)));
     engagementScore := getEngagementScore (tracker p) |}.

Definition logEvolution (desc : string) (p : Page) (b : Browser) : Page * Browser :=
  let e := mkEngine (push_capped 100 (Logged (evolutionEvent desc p b))
                                 (evolutionHistory (engine p)))
                    (lastAppliedTimes (engine p)) (currentEvolutions (engine p)) in
  (mkPage (tracker p) e, saveEvolutionHistory e b).

Definition setTimeout (k : task) (delay : Z) (d : Dom) : Dom :=
  mkDom (about_present d) (projects_present d) (about_follows_projects d)
        (sections_opacity d) (root_style d) (contactHero_label d)
        (exploreProjects_label d) (submit_label d) (body_dark d)
        (themeToggle_html d) (project_cards d) (head_styles d)
        (projects_appended d) (notice_present d) (notice_text d)
        (notice_shown d) (timers d ++ [(delay, k)]).

(** Overwrites the text of an element that exists. *)
Definition set_text (new : string) (old : option string) : option string :=
  match old with
  | Some _ => Some new
  | None => None
  end.

Definition showEvolutionNotice (message : string) (b : Browser) : Browser :=
  let d := dom b in
  if notice_present d then
    set_dom (setTimeout HideNotice 5000
      (mkDom (about_present d) (projects_present d) (about_follows_projects d)
             (sections_opacity d) (root_style d) (contactHero_label d)
             (exploreProjects_label d) (submit_label d) (body_dark d)
             (themeToggle_html d) (project_cards d) (head_styles d)
             (projects_appended d) true (set_text message (notice_text d))
             true (timers d))) b
  else b.

(** [aboutSection?.parentNode] is an element or the document whenever
    [#about] is found, so the test on [container] adds nothing. *)
Definition moveProjectsUp (p : Page) (b : Browser) : Page * Browser :=
  let d := dom b in
  if about_present d && projects_present d && negb (about_follows_projects d) then
    let b1 := set_dom (setTimeout InsertProjectsBeforeAbout 300
      (mkDom (about_present d) (projects_present d) (about_follows_projects d)
             (Some "0") (root_style d) (contactHero_label d)
             (exploreProjects_label d) (submit_label d) (body_dark d)
             (themeToggle_html d) (project_cards d) (head_styles d)
             (projects_appended d) (notice_present d) (notice_text d)
             (notice_shown d) (timers d))) b in
    let '(p2, b2) := logEvolution "Projects section moved up based on your interest!" p b1 in
    (p2, showEvolutionNotice "ðŸŽ¯ Projects prioritized! Moved to top based on your interest." b2)
  else (p, b).

(** The three texts [optimizeCTA] writes. *)
Definition contactHero_text : string := "Let's Build Together!".
Definition exploreProjects_text : string := "See My Work â†’".
Definition submit_text : string := "Send Message Now!".

Definition optimizeCTA (p : Page) (b : Browser) : Page * Browser :=
  let d := dom b in
  let b1 := set_dom
    (mkDom (about_present d) (projects_present d) (about_follows_projects d)
           (sections_opacity d)
           (<["--primary-dark" := "#059669"]> (<["--primary" := "#10b981"]> (root_style d)))
           (set_text contactHero_text (contactHero_label d))
           (set_text exploreProjects_text (exploreProjects_label d))
           (set_text submit_text (submit_label d))
           (body_dark d) (themeToggle_html d) (project_cards d) (head_styles d)
           (projects_appended d) (notice_present d) (notice_text d)
           (notice_shown d) (timers d)) b in
  let '(p2, b2) := logEvolution "CTA buttons optimized based on engagement!" p b1 in
  (p2, showEvolutionNotice "âœ¨ CTAs enhanced! Buttons optimized for better conversion." b2).

Definition dquote : string := String (Ascii.ascii_of_nat 34) EmptyString.
Definition sun_icon : string := "<i class=" +:+ dquote +:+ "fas fa-sun" +:+ dquote +:+ "></i>".

Definition setDarkThemeDefault (p : Page) (b : Browser) : Page * Browser :=
  let d := dom b in
  if body_dark d then (p, b)
  else
    let b1 := set_dom
      (mkDom (about_present d) (projects_present d) (about_follows_projects d)
             (sections_opacity d) (root_style d) (contactHero_label d)
             (exploreProjects_label d) (submit_label d) true
             (set_text sun_icon (themeToggle_html d)) (project_cards d)
             (head_styles d) (projects_appended d) (notice_present d)
             (notice_text d) (notice_shown d) (timers d)) b in
    let '(t2, b2) := trackThemePreference "dark" (tracker p) b1 in
    let '(p3, b3) := logEvolution "Dark theme set as default based on user preference!"
                                  (mkPage t2 (engine p)) b2 in
    (p3, showEvolutionNotice "ðŸŒ™ Dark theme activated as your default preference." b3).

(** One timer per card, [index * 200] ms away, then the keyframes rule. *)
Definition highlightPopularProject (p : Page) (b : Browser) : Page * Browser :=
  let d := dom b in
  let d1 := foldl (λ acc index, setTimeout (GlowCard index) (Z.of_nat index * 200) acc)
                  d (seq 0 (project_cards d)) in
  let b1 := set_dom
    (mkDom (about_present d1) (projects_present d1) (about_follows_projects d1)
           (sections_opacity d1) (root_style d1) (contactHero_label d1)
           (exploreProjects_label d1) (submit_label d1) (body_dark d1)
           (themeToggle_html d1) (project_cards d1)
           (head_styles d1 ++ ["@keyframes project-glow"])
           (projects_appended d1) (notice_present d1) (notice_text d1)
           (notice_shown d1) (timers d1)) b in
  let '(p2, b2) := logEvolution "Projects highlighted based on user interest!" p b1 in
  (p2, showEvolutionNotice "ðŸ’Ž Projects highlighted! Your interest in my work is noted." b2).

Definition revealAdditionalContent (p : Page) (b : Browser) : Page * Browser :=
  let d := dom b in
  let b1 :=
    if projects_present d then
      set_dom
        (mkDom (about_present d) (projects_present d) (about_follows_projects d)
               (sections_opacity d) (root_style d) (contactHero_label d)
               (exploreProjects_label d) (submit_label d) (body_dark d)
               (themeToggle_html d) (project_cards d) (head_styles d)
               (projects_appended d ++ ["evolution-content glass-card"])
               (notice_present d) (notice_text d) (notice_shown d) (timers d)) b
    else b in
  let '(p2, b2) := logEvolution "Additional content revealed due to deep engagement!" p b1 in
  (p2, showEvolutionNotice "ðŸ”“ Exclusive content unlocked! Scroll to see more." b2).

Record EvolutionRule : Type := mkRule {
  name : string;
  condition : InteractionData → bool;
  action : Page → Browser → Page * Browser;
  cooldown : Z
}.

Definition projects_priority : EvolutionRule :=
  {| name := "projects_priority";
     condition := λ data,
       jgt (field (clicks data) "projects") (jadd (field (clicks data) "about") (Num 2))
       && jgt (field (timeOnSections data) "projects") (field (timeOnSections data) "about");
     action := moveProjectsUp;
     cooldown := 30000 |}.

Definition cta_optimization : EvolutionRule :=
  {| name := "cta_optimization";
     condition := λ data,
       jgt (field (clicks data) "cta") (Num 3) || jgt (field (clicks data) "contact") (Num 5);
     action := optimizeCTA;
     cooldown := 45000 |}.

Definition dark_theme_default : EvolutionRule :=
  {| name := "dark_theme_default";
     condition := λ data,
       jgt (field (clicks data) "themeToggle") (Num 1)
       && bool_decide (themePreference data = "dark");
     action := setDarkThemeDefault;
     cooldown := 60000 |}.

Definition project_highlight : EvolutionRule :=
  {| name := "project_highlight";
     condition := λ data, jgt (field (clicks data) "projects") (Num 8);
     action := highlightPopularProject;
     cooldown := 25000 |}.

Definition content_reveal : EvolutionRule :=
  {| name := "content_reveal";
     condition := λ data, bool_decide (70 < scrollDepth data);
     action := revealAdditionalContent;
     cooldown := 30000 |}.

Definition setupEvolutionRules : list EvolutionRule :=
  [ projects_priority; cta_optimization; dark_theme_default;
    project_highlight; content_reveal ].

(** [this.evolutionRules], assigned once in the constructor. *)
Definition evolutionRules : list EvolutionRule := setupEvolutionRules.

(** [lastAppliedTimes.get(rule.name) || 0] *)
Definition lastApplied (rule : EvolutionRule) (e : EvolutionEngine) : Z :=
  default 0 (lastAppliedTimes e !! name rule).

Definition shouldApplyRule (rule : EvolutionRule) (data : InteractionData)
    (e : EvolutionEngine) (b : Browser) : bool :=
  let cooldownPassed := bool_decide (cooldown rule < now (clock b) - lastApplied rule e) in
  let notCurrentlyActive := negb (bool_decide (name rule ∈ currentEvolutions e)) in
  condition rule data && cooldownPassed && notCurrentlyActive.

(** The body of the [if] in [checkEvolutionRules]. *)
Definition apply_rule (rule : EvolutionRule) (p : Page) (b : Browser) : Page * Browser :=
  let '(p1, b1) := action rule p b in
  (mkPage (tracker p1)
          (mkEngine (evolutionHistory (engine p1))
                    (<[name rule := now (clock b1)]> (lastAppliedTimes (engine p1)))
                    ({[name rule]} ∪ currentEvolutions (engine p1))),
   b1).

(** [rules.forEach(rule => ...)].  Besides the new state the function
    returns the names of the rules whose action it ran, in order.  The
    tracker's data object is read through the reference [getData]
    returned, so a later rule sees what an earlier action changed. *)
Fixpoint forEach_rule (rules : list EvolutionRule) (p : Page) (b : Browser)
  : list string * Page * Browser :=
  match rules with
  | [] => ([], p, b)
  | rule :: rest =>
      if shouldApplyRule rule (getData (tracker p)) (engine p) b then
        let '(p1, b1) := apply_rule rule p b in
        let '(fired, p2, b2) := forEach_rule rest p1 b1 in
        (name rule :: fired, p2, b2)
      else forEach_rule rest p b
  end.

Definition checkEvolutionRules (p : Page) (b : Browser) : list string * Page * Browser :=
  forEach_rule evolutionRules p b.

(** The constructor: the history read from storage must be an array for
    [push] to work; the first evaluation runs at once. *)
Inductive engine_constructed : Type :=
| EngineBuilt (fired : list string) (p : Page) (b : Browser)
| HistoryIllShaped (j : json) (b : Browser).

Definition new_EvolutionEngine (t : InteractionTracker) (b : Browser) : engine_constructed :=
  let '(j, b1) := loadEvolutionHistory b in
  match j with
  | JArr items =>
      let '(fired, p, b2) :=
        checkEvolutionRules (mkPage t (mkEngine (Stored <$> items) ∅ ∅)) b1 in
      EngineBuilt fired p b2
  | _ => HistoryIllShaped j b1
  end.

(** ** A session *)

(** Between two evaluations anything may happen to the tracker and to the
    browser (clicks, scrolling, timers, the clock); the engine's own
    fields are written by [checkEvolutionRules] only. *)
Inductive event : Type :=
| Evaluate
| Elsewhere (t : InteractionTracker) (b : Browser).

(** The rules each evaluation of the session fired. *)
Fixpoint session (evs : list event) (p : Page) (b : Browser) : list (list string) :=
  match evs with
  | [] => []
  | Evaluate :: rest =>
      let '(fired, p1, b1) := checkEvolutionRules p b in
      fired :: session rest p1 b1
  | Elsewhere t b' :: rest => session rest (mkPage t (engine p)) b'
  end.

(** ** Totals and sample states used in the statements *)

(** The total of a record of integer counters. *)
Definition total (m : gmap string Z) : Z := map_fold (λ _ z acc, acc + z) 0 m.

Definition ten_clicks : gmap string Z :=
  <["projects" := 4]> (<["contact" := 1]> (<["about" := 2]>
  (<["themeToggle" := 0]> (<["social" := 0]> (<["cta" := 3]>
  (<["navigation" := 0]> ∅)))))).

Definition five_seconds : gmap string Z :=
  <["home" := 2000]> (<["about" := 1000]> (<["projects" := 1500]>
  (<["contact" := 500]> ∅))).

(** 10 clicks in all, 5 seconds of dwell time, scroll depth 50. *)
Definition sample_tracker : InteractionTracker :=
  mkTracker (mkData (Num <$> ten_clicks) 50 (Num <$> five_seconds)
                    "light" None 0 zero_sections [])
            "home" 0.

Definition sample_clock : Clock :=
  {| now := 1700000000000;
     today := "Tue Nov 14 2023";
     iso := "2023-11-14T22:13:20.000Z" |}.

(** A page with the two sections, the three buttons, the notice and three
    project cards. *)
Definition sample_dom : Dom :=
  mkDom true true true None ∅
        (Some "Contact Me") (Some "Explore Projects") (Some "Send Message")
        false (Some "") 3 [] [] true (Some "") false [].

(** Empty, working storage. *)
Definition sample_browser : Browser :=
  mkBrowser ∅ true true [] sample_clock sample_dom.

(** Storage that can be read but refuses every write. *)
Definition full_browser : Browser :=
  mkBrowser ∅ true false [] sample_clock sample_dom.

(** The tracker of a first visit, before [init]. *)
Definition fresh_tracker : InteractionTracker :=
  mkTracker defaults "home" (now sample_clock).

#[local] Instance is_number_dec v : Decision (is_number v).
Proof. destruct v; simpl; apply _. Defined.

(** Every counter of a record is a number. *)
Definition numbers (o : gmap string num) : Prop :=
  map_Forall (λ _ v, is_number v) o.

Definition numeric (d : InteractionData) : Prop :=
  numbers (clicks d) ∧ numbers (timeOnSections d) ∧ numbers (sectionViews d).

(** No counter of [o] is smaller, or gone, in [o']. *)
Definition counters_le (o o' : gmap string num) : Prop :=
  ∀ k z, o !! k = Some (Num z) → ∃ z', o' !! k = Some (Num z') ∧ z ≤ z'.

(** The methods of the tracker that write to it or to the browser, and
    its two listeners. *)
Inductive operation : Type :=
| TrackClick (type : string) (target : option string) (metadata : list (string * json))
| TrackSectionView (section : string)
| TrackInteraction (type : string) (extra : list (string * json))
| TrackThemePreference (preference : string)
| IncrementVisitCount
| UpdateSectionTime
| SaveData
| LoadData
| ResetData
| DocumentClick (elementData : list (string * json))
| SectionVisible (id : string).

Definition perform (op : operation) (t : InteractionTracker) (b : Browser)
  : option (InteractionTracker * Browser) :=
  match op with
  | TrackClick type target metadata => Some (trackClick type target metadata t b)
  | TrackSectionView section => Some (trackSectionView section t b, b)
  | TrackInteraction type extra => Some (trackInteraction type extra t b, b)
  | TrackThemePreference preference => Some (trackThemePreference preference t b)
  | IncrementVisitCount => Some (incrementVisitCount t b)
  | UpdateSectionTime => t' ← updateSectionTime t b; Some (t', b)
  | SaveData => Some (t, saveData t b)
  | LoadData => Some (t, (loadData b).2)
  | ResetData => Some (resetData t b)
  | DocumentClick elementData => Some (on_document_click elementData t, b)
  | SectionVisible id => t' ← on_section_visible id t b; Some (t', b)
  end.

(** A run of operations; between two of them the clock advances and the
    rest of the browser may change: [tick] gives the browser the next
    operation sees. *)
Fixpoint perform_all (ops : list (operation * (Browser → Browser)))
    (t : InteractionTracker) (b : Browser) : option (InteractionTracker * Browser) :=
  match ops with
  | [] => Some (t, b)
  | (op, tick) :: rest =>
      match perform op t b with
      | Some (t', b') => perform_all rest t' (tick b')
      | None => None
      end
  end.

Definition is_reset (op : operation) : bool :=
  match op with
  | ResetData => true
  | _ => false
  end.

(** Four clicks on a call-to-action button. *)
Definition four_cta_clicks (t : InteractionTracker) (b : Browser)
  : InteractionTracker * Browser :=
  let '(t1, b1) := trackClick "cta" None [] t b in
  let '(t2, b2) := trackClick "cta" None [] t1 b1 in
  let '(t3, b3) := trackClick "cta" None [] t2 b2 in
  trackClick "cta" None [] t3 b3.

(** Storage that is denied altogether: every access throws. *)
Definition denied_browser : Browser :=
  mkBrowser ∅ false false [] sample_clock sample_dom.

(** Storage whose entry for the tracker is not JSON text. *)
Definition corrupt_browser : Browser :=
  mkBrowser (<[interaction_key := Garbled "{clicks:"]> ∅) true true []
            sample_clock sample_dom.

(** The tracker once the visit of the day is counted. *)
Definition returning_tracker : InteractionTracker :=
  (incrementVisitCount fresh_tracker sample_browser).1.

(** The tracker after a section whose id is not a key of [timeOnSections]
    was on screen and the user moved back to the first section. *)
Definition skills_then_home : option InteractionTracker :=
  on_section_visible "skills" fresh_tracker sample_browser
  ≫= λ t, on_section_visible "home" t sample_browser.

Definition skills_tracker : InteractionTracker :=
  default fresh_tracker skills_then_home.

(** What gates a rule in the engine, and the three labels of the page. *)
Definition gate (p : Page) : gmap string Z * gset string :=
  (lastAppliedTimes (engine p), currentEvolutions (engine p)).

Definition labels (b : Browser) : option string * option string * option string :=
  (contactHero_label (dom b), exploreProjects_label (dom b), submit_label (dom b)).

(** The page after four clicks on a call-to-action button in a first
    visit, with a new engine, and the browser 100 seconds later. *)
Definition cta_page : Page :=
  mkPage (four_cta_clicks fresh_tracker sample_browser).1 (mkEngine [] ∅ ∅).

Definition cta_browser : Browser := (four_cta_clicks fresh_tracker sample_browser).2.

Definition later (b : Browser) : Browser :=
  mkBrowser (cells b) (readable b) (writable b) (console b)
            {| now := now (clock b) + 100000; today := today (clock b); iso := iso (clock b) |}
            (dom b).

(** How many times [trackClick type target] names the key [k]. *)
Definition hits (type : string) (target : option string) (k : string) : nat :=
  ((if bool_decide (k = type) then 1 else 0)
   + (if bool_decide (target = Some k ∧ k ≠ "") then 1 else 0))%nat.

(** ** The rest of the tracker and of the page *)

(** [Object.entries(timeOnSections).reduce((a, b) => a[1] > b[1] ? a : b)[0]],
    given the entries in the object's own key order.  Without an initial
    value [reduce] throws a TypeError on an empty array: [None]. *)
Definition more_popular (a b : string * num) : string * num :=
  if jgt a.2 b.2 then a else b.

Definition getPopularSection (entries : list (string * num)) : option string :=
  match entries with
  | [] => None
  | first :: rest => Some (foldl more_popular first rest).1
  end.

(** [o.k] on an object literal: the value of the first field named [k]. *)
Fixpoint obj_get (k : string) (o : list (string * json)) : option json :=
  match o with
  | [] => None
  | (k', v) :: rest => if bool_decide (k' = k) then Some v else obj_get k rest
  end.

(** The browser at another reading of the clock. *)
Definition with_clock (c : Clock) (b : Browser) : Browser :=
  mkBrowser (cells b) (readable b) (writable b) (console b) c (dom b).

(** Loading the page at each of the clock readings in turn, with nothing
    else happening: the tracker the last load builds. *)
Fixpoint page_loads (cs : list Clock) (last : option InteractionTracker) (b : Browser)
  : option (option InteractionTracker * Browser) :=
  match cs with
  | [] => Some (last, b)
  | c :: rest =>
      match new_InteractionTracker (with_clock c b) with
      | Built t b' => page_loads rest (Some t) b'
      | IllShaped _ _ => None
      end
  end.

(** The number of loads that fall on another day than the load before. *)
Fixpoint new_days (previous : option string) (days : list string) : Z :=
  match days with
  | [] => 0
  | day :: rest =>
      (if bool_decide (previous = Some day) then 0 else 1) + new_days (Some day) rest
  end.

(** What a load finds in working storage: nothing yet, or the record the
    last save wrote. *)
Definition holds (b : Browser) (d : InteractionData) : Prop :=
  readable b = true ∧ writable b = true ∧ numeric d
  ∧ Forall storable (interactions d)
  ∧ (cells b !! interaction_key = Some (Json (toJSON d))
     ∨ (cells b !! interaction_key = None ∧ d = defaults)).

#[local] Instance num_eq_dec : EqDecision num.
Proof. solve_decision. Defined.

(** What the predicates of the rules read. *)
Definition rule_view (d : InteractionData)
  : gmap string num * gmap string num * Z * string :=
  (clicks d, timeOnSections d, scrollDepth d, themePreference d).

(** The rules that [shouldApplyRule] accepts in a given state, in the
    order of the table. *)
Definition eligible_among (rules : list EvolutionRule) (p : Page) (b : Browser)
  : list EvolutionRule :=
  List.filter (λ rule, shouldApplyRule rule (getData (tracker p)) (engine p) b) rules.

Definition eligible (p : Page) (b : Browser) : list EvolutionRule :=
  eligible_among evolutionRules p b.

(** A visitor who clicked the project cards five times and stayed on the
    projects section. *)
Definition projects_fan : InteractionTracker :=
  mkTracker (mkData (<["projects" := Num 5]> zero_clicks) 0
                    (<["projects" := Num 60000]> zero_sections)
                    "light" (Some (today sample_clock)) 1 zero_sections [])
            "projects" (now sample_clock).

(** The state of the engine once [rule] has been marked as applied. *)
Definition mark_applied (rule : EvolutionRule) (p : Page) (b : Browser) : Page :=
  mkPage (tracker p)
         (mkEngine (evolutionHistory (engine p))
                   (<[name rule := now (clock b)]> (lastAppliedTimes (engine p)))
                   ({[name rule]} ∪ currentEvolutions (engine p))).

(** The timers [highlightPopularProject] sets for [n] cards. *)
Definition glow_timers (n : nat) : list (Z * task) :=
  (λ index, (Z.of_nat index * 200, GlowCard index)) <$> seq 0 n.

(** ** PortfolioApp *)

Definition moon_icon : string := "<i class=" +:+ dquote +:+ "fas fa-moon" +:+ dquote +:+ "></i>".

Definition set_theme (dark : bool) (html : string) (d : Dom) : Dom :=
  mkDom (about_present d) (projects_present d) (about_follows_projects d)
        (sections_opacity d) (root_style d) (contactHero_label d)
        (exploreProjects_label d) (submit_label d) dark
        (set_text html (themeToggle_html d)) (project_cards d) (head_styles d)
        (projects_appended d) (notice_present d) (notice_text d)
        (notice_shown d) (timers d).

(** [classList.toggle('dark-theme')], the icon of the toggle when it
    exists, then the two calls on the tracker. *)
Definition toggleTheme (p : Page) (b : Browser) : Page * Browser :=
  let isDark := negb (body_dark (dom b)) in
  let b1 := set_dom (set_theme isDark (if isDark then sun_icon else moon_icon) (dom b)) b in
  let '(t1, b2) := trackClick "themeToggle" None [] (tracker p) b1 in
  let '(t2, b3) := trackThemePreference (if isDark then "dark" else "light") t1 b2 in
  (mkPage t2 (engine p), b3).

Definition applySavedPreferences (p : Page) (b : Browser) : Browser :=
  if bool_decide (themePreference (getData (tracker p)) = "dark")
  then set_dom (set_theme true sun_icon (dom b)) b
  else b.

Definition hideEvolutionNotice (b : Browser) : Browser :=
  let d := dom b in
  if notice_present d then
    set_dom (mkDom (about_present d) (projects_present d) (about_follows_projects d)
                   (sections_opacity d) (root_style d) (contactHero_label d)
                   (exploreProjects_label d) (submit_label d) (body_dark d)
                   (themeToggle_html d) (project_cards d) (head_styles d)
                   (projects_appended d) (notice_present d) (notice_text d)
                   false (timers d)) b
  else b.

(** The four fields of the contact form (the elements [#name], [#email],
    [#subject] and [#message], which [handleContactSubmit] takes to exist),
    the toasts appended to the body so far, in order, with the two timers
    each of them sets (the timers run outside this state: a toast that has
    slid out and was removed stays in the list), and the navigation link
    that carries the class [active]. *)
Record ContactForm : Type := mkForm {
  name_value : string;
  email_value : string;
  subject_value : string;
  message_value : string
}.

Record Toast : Type := mkToast {
  toast_class : string;
  toast_icon : option string;
  toast_message : string
}.

Inductive toast_task : Type :=
| SlideIn (toast : nat)
| SlideOutAndRemove (toast : nat).

Record Site : Type := mkSite {
  page : Page;
  browser : Browser;
  form : ContactForm;
  toasts : list Toast;
  toast_timers : list (Z * toast_task);
  active_link : option nat
}.

(** [icons[type] || 'info-circle'].  For a name of [Object.prototype] the
    lookup finds the inherited member, which is truthy and not a string:
    [None]. *)
Definition getNotificationIcon (type : string) : option string :=
  if bool_decide (type = "success") then Some "check-circle"
  else if bool_decide (type = "error") then Some "exclamation-circle"
  else if bool_decide (type = "info") then Some "info-circle"
  else if bool_decide (type ∈ Object_prototype) then None
  else Some "info-circle".

Definition showNotification (message type : string) (s : Site) : Site :=
  let toast := mkToast ("notification notification-" +:+ type)
                       (getNotificationIcon type) message in
  let index := length (toasts s) in
  mkSite (page s) (browser s) (form s) (toasts s ++ [toast])
         (toast_timers s ++ [(100, SlideIn index); (4000, SlideOutAndRemove index)])
         (active_link s).

(** [!value]: the empty string. *)
Definition blank (value : string) : bool := bool_decide (value = "").

Definition handleContactSubmit (s : Site) : Site :=
  let f := form s in
  if blank (name_value f) || blank (email_value f)
     || blank (subject_value f) || blank (message_value f)
  then showNotification "Please fill in all fields before sending." "error" s
  else
    let s1 := showNotification "Message sent successfully! I'll get back to you soon."
                               "success" s in
    mkSite (page s1) (browser s1) (mkForm "" "" "" "") (toasts s1)
           (toast_timers s1) (active_link s1).

(** A tracker method run on the tracker of the site. *)
Definition on_tracker (f : InteractionTracker → Browser → InteractionTracker * Browser)
    (s : Site) : Site :=
  let '(t, b) := f (tracker (page s)) (browser s) in
  mkSite (mkPage t (engine (page s))) b (form s) (toasts s) (toast_timers s)
         (active_link s).

Definition on_engine (f : Page → Browser → Page * Browser) (s : Site) : Site :=
  let '(p, b) := f (page s) (browser s) in
  mkSite p b (form s) (toasts s) (toast_timers s) (active_link s).

Definition on_browser (f : Browser → Browser) (s : Site) : Site :=
  mkSite (page s) (f (browser s)) (form s) (toasts s) (toast_timers s) (active_link s).

(** What the page reacts to, one event per listener or timer callback.
    A click on an element runs the listener of the element and then the
    document-wide one of [setupInteractionTracking]: two events here, the
    second being [DocumentClicked].  [NoticeClosed] is also what the timer
    set by [showEvolutionNotice] does.  Scrolling is taken at its result:
    the listener of [setupScrollTracking] stores a rounded percentage, here
    any integer, and half a second after the last scroll event it logs a
    [scroll] entry.  [SectionEntered] is the observer of [setupAnimations],
    [SectionHalfVisible] the one of [setupSectionTracking]. *)
Inductive site_event : Type :=
| ThemeToggleClicked
| NavLinkClicked (link : nat) (targetSection : option string)
| ProjectCardClicked
| CallToActionClicked
| ContactFormSubmitted
| ContactFormEdited (f : ContactForm)
| NoticeClosed
| DocumentClicked (elementData : list (string * json))
| SectionHalfVisible (id : string)
| SectionEntered (id : string)
| Scrolled (depth : Z)
| ScrollSettled
| SaveInterval
| BeforeUnload
| RulesEvaluated
| TimePassed (c : Clock).

Definition set_scrollDepth (depth : Z) (t : InteractionTracker) : InteractionTracker :=
  set_data (mkData (clicks (data t)) depth (timeOnSections (data t))
                   (themePreference (data t)) (lastVisit (data t)) (visitCount (data t))
                   (sectionViews (data t)) (interactions (data t))) t.

Definition react (ev : site_event) (s : Site) : option Site :=
  match ev with
  | ThemeToggleClicked => Some (on_engine toggleTheme s)
  | NavLinkClicked link targetSection =>
      let s1 := on_tracker (trackClick "navigation" targetSection []) s in
      Some (mkSite (page s1) (browser s1) (form s1) (toasts s1) (toast_timers s1)
                   (Some link))
  | ProjectCardClicked => Some (on_tracker (trackClick "projects" None []) s)
  | CallToActionClicked => Some (on_tracker (trackClick "cta" None []) s)
  | ContactFormSubmitted =>
      Some (on_tracker (trackClick "contact" None []) (handleContactSubmit s))
  | ContactFormEdited f =>
      Some (mkSite (page s) (browser s) f (toasts s) (toast_timers s) (active_link s))
  | NoticeClosed => Some (on_browser hideEvolutionNotice s)
  | DocumentClicked elementData =>
      Some (on_tracker (λ t b, (on_document_click elementData t, b)) s)
  | SectionHalfVisible id =>
      t ← on_section_visible id (tracker (page s)) (browser s);
      Some (on_tracker (λ _ b, (t, b)) s)
  | SectionEntered id => Some (on_tracker (λ t b, (trackSectionView id t b, b)) s)
  | Scrolled depth => Some (on_tracker (λ t b, (set_scrollDepth depth t, b)) s)
  | ScrollSettled =>
      Some (on_tracker (λ t b, (trackInteraction "scroll"
                                  [("depth", JInt (scrollDepth (data t)))] t b, b)) s)
  | SaveInterval => Some (on_browser (saveData (tracker (page s))) s)
  | BeforeUnload =>
      t ← updateSectionTime (tracker (page s)) (browser s);
      Some (on_tracker (λ _ b, (t, saveData t b)) s)
  | RulesEvaluated =>
      Some (on_engine (λ p b, let '(_, p', b') := checkEvolutionRules p b in (p', b')) s)
  | TimePassed c => Some (on_browser (with_clock c) s)
  end.

Fixpoint react_all (evs : list site_event) (s : Site) : option Site :=
  match evs with
  | [] => Some s
  | ev :: rest =>
      match react ev s with
      | Some s' => react_all rest s'
      | None => None
      end
  end.

(** [new PortfolioApp()]: the tracker, the engine, whose constructor
    already evaluates the rules, then [init()], of which
    [applySavedPreferences] is the step that writes to the state kept
    here.  The form and the active link are as the document has them. *)
Inductive site_constructed : Type :=
| SiteBuilt (s : Site)
| SiteIllShaped.

Definition new_PortfolioApp (b : Browser) (f : ContactForm) (active : option nat)
  : site_constructed :=
  match new_InteractionTracker b with
  | Built t b1 =>
      match new_EvolutionEngine t b1 with
      | EngineBuilt _ p b2 =>
          SiteBuilt (mkSite p (applySavedPreferences p b2) f [] [] active)
      | HistoryIllShaped _ _ => SiteIllShaped
      end
  | IllShaped _ _ => SiteIllShaped
  end.

(** The dark preference is on the page. *)
Definition theme_applied (s : Site) : Prop :=
  themePreference (data (tracker (page s))) = "dark" →
  body_dark (dom (browser s)) = true.

(** A property of the tracker and of the dark class of the body that a
    call of [trackThemePreference('dark')] on a dark page keeps. *)
Definition kept_by_actions (J : InteractionTracker → bool → Prop) : Prop :=
  ∀ t dark b, J t dark → J (trackThemePreference "dark" t b).1 true.

(** * Properties *)

(** ** Capped logs *)

Section Capped.
Context {A : Type}.
Implicit Types (l : list A) (e : A) (cap : nat).

Lemma slice_last_length cap l :
  length (slice_last cap l) = (length l `min` cap)%nat.
Proof. unfold slice_last. rewrite length_drop. lia. Qed.

Lemma slice_last_suffix cap l : slice_last cap l `suffix_of` l.
Proof. apply suffix_drop. Qed.

Lemma slice_last_short cap l : (length l ≤ cap)%nat → slice_last cap l = l.
Proof.
  intros H. unfold slice_last.
  replace (length l - cap)%nat with 0%nat by lia. done.
Qed.

(** The guard [length > cap] only skips a slice that would change nothing. *)
Lemma push_capped_slice cap e l :
  push_capped cap e l = slice_last cap (l ++ [e]).
Proof.
  unfold push_capped. case_bool_decide; [done|].
  symmetry. apply slice_last_short. lia.
Qed.

Lemma push_capped_keeps_newest cap e l :
  (0 < cap)%nat → last (push_capped cap e l) = Some e.
Proof.
  intros Hcap. rewrite push_capped_slice. unfold slice_last.
  rewrite drop_app_le by (rewrite length_app; simpl; lia).
  apply last_snoc.
Qed.
End Capped.

(** C4: both logs are capped with oldest-first eviction.  After every
    [trackInteraction] the interactions log has at most 1000 entries: it is
    the old log followed by the new entry, cut down to its last 1000
    entries, so what is dropped is exactly the oldest entries and the rest
    keeps its order.  After every [logEvolution] the same holds of the
    evolution history with 100. *)
Theorem logs_capped_oldest_first :
  (∀ type extra t b,
     let old := interactions (data t) in
     let new := interactions (data (trackInteraction type extra t b)) in
     (length new ≤ 1000)%nat
     ∧ new `suffix_of` old ++ [log_entry type extra b]
     ∧ length new = (S (length old) `min` 1000)%nat
     ∧ last new = Some (log_entry type extra b))
  ∧ (∀ desc p b,
     let old := evolutionHistory (engine p) in
     let new := evolutionHistory (engine (logEvolution desc p b).1) in
     (length new ≤ 100)%nat
     ∧ new `suffix_of` old ++ [Logged (evolutionEvent desc p b)]
     ∧ length new = (S (length old) `min` 100)%nat
     ∧ last new = Some (Logged (evolutionEvent desc p b))).
Proof.
  split; intros; subst old new; simpl.
  - rewrite push_capped_keeps_newest by lia.
    rewrite push_capped_slice, slice_last_length, length_app. simpl.
    repeat split; [lia|apply slice_last_suffix|lia].
  - rewrite push_capped_keeps_newest by lia.
    rewrite push_capped_slice, slice_last_length, length_app. simpl.
    repeat split; [lia|apply slice_last_suffix|lia].
Qed.

(** A full log loses its first entry only. *)
Example push_capped_evicts_first (l : list nat) :
  length l = 999%nat → push_capped 1000 7%nat (3%nat :: l) = l ++ [7%nat].
Proof.
  intros H. rewrite push_capped_slice. unfold slice_last.
  assert (length ((3%nat :: l) ++ [7%nat]) - 1000 = 1)%nat as ->
    by (rewrite length_app; cbn [length]; lia).
  done.
Qed.

(** ** The engagement score *)


Lemma sum_values_numbers (m : gmap string Z) :
  sum_values (Num <$> m) = Num (total m).
Proof.
  unfold sum_values, total. rewrite map_fold_fmap, !map_fold_foldr.
  induction (map_to_list m) as [|[k z] l IH]; [done|].
  simpl. rewrite IH. done.
Qed.

(** One NaN among the values makes the sum NaN. *)
Lemma sum_values_NaN (o : gmap string num) (k : string) :
  o !! k = Some NaN → sum_values o = NaN.
Proof.
  unfold sum_values. revert k.
  apply (map_fold_weak_ind (λ r o, ∀ k, o !! k = Some NaN → r = NaN)).
  - intros k. by rewrite lookup_empty.
  - intros i x m r Hi IH k. rewrite lookup_insert. case_decide.
    + intros [= ->]. by destruct r.
    + intros Hk. rewrite (IH k Hk). done.
Qed.


Example sample_totals :
  total ten_clicks = 10 ∧ total five_seconds = 5000
  ∧ scrollDepth (data sample_tracker) = 50.
Proof. repeat split; vm_compute; reflexivity. Qed.

(** C1, as stated, fails: with 10 clicks, 5 seconds and scroll depth 50
    the score is not 5. *)
Lemma getEngagementScore_sample_not_5 :
  sum_values (clicks (data sample_tracker)) = Num 10
  ∧ sum_values (timeOnSections (data sample_tracker)) = Num 5000
  ∧ scrollDepth (data sample_tracker) = 50
  ∧ getEngagementScore sample_tracker ≠ 5%float.
Proof.
  repeat split; try (vm_compute; reflexivity).
  intros H.
  assert (E : PrimFloat.ltb 5 (getEngagementScore sample_tracker) = true)
    by (vm_compute; reflexivity).
  rewrite H in E. vm_compute in E. discriminate.
Qed.

(** C1 (amended): over counters that are numbers, [getEngagementScore] is
    0.3 times the total of the click counters, plus 0.4 times the total
    dwell time in seconds (the milliseconds of all sections, divided by
    1000), plus 0.3 times the scroll depth, in double arithmetic; it is 0
    when the three quantities are 0, and it is 20 (10*0.3 + 5*0.4 + 50*0.3)
    for 10 clicks, 5 seconds and scroll depth 50. *)
Theorem getEngagementScore_weighted_sum (c s : gmap string Z) (t : InteractionTracker) :
  clicks (data t) = Num <$> c →
  timeOnSections (data t) = Num <$> s →
  getEngagementScore t
  = (to_float (total c) * 0.3 + to_float (total s) / 1000 * 0.4
     + to_float (scrollDepth (data t)) * 0.3)%float
  ∧ (total c = 0 → total s = 0 → scrollDepth (data t) = 0 →
     getEngagementScore t = 0%float)
  ∧ (total c = 10 → total s = 5000 → scrollDepth (data t) = 50 →
     getEngagementScore t = 20%float).
Proof.
  intros Hc Hs.
  assert (E : getEngagementScore t
              = (to_float (total c) * 0.3 + to_float (total s) / 1000 * 0.4
                 + to_float (scrollDepth (data t)) * 0.3)%float).
  { unfold getEngagementScore. rewrite Hc, Hs, !sum_values_numbers. reflexivity. }
  split; [exact E|]. rewrite E.
  split; intros -> -> ->; vm_compute; reflexivity.
Qed.

Lemma getEngagementScore_weighted_sum_witness :
  getEngagementScore sample_tracker = 20%float.
Proof.
  apply (getEngagementScore_weighted_sum ten_clicks five_seconds sample_tracker);
    vm_compute; reflexivity.
Defined.

(** ** Counting in a dictionary *)

Lemma get_own (o : gmap string num) k v : o !! k = Some v → get o k = Own v.
Proof. unfold get. by intros ->. Qed.

Lemma count_own (o : gmap string num) k v :
  o !! k = Some v → count o k = <[k := incr v]> o.
Proof. intros H. unfold count, post_increment. by rewrite (get_own _ _ _ H). Qed.

Lemma count_unknown (o : gmap string num) k :
  o !! k = None → k ∉ Object_prototype → count o k = o.
Proof.
  intros H Hk. unfold count, get. rewrite H.
  by rewrite bool_decide_eq_false_2.
Qed.

(** The slip: a name that [Object.prototype] defines passes the test
    [!== undefined] and the increment stores NaN under it. *)
Lemma count_inherited (o : gmap string num) k :
  o !! k = None → k ∈ Object_prototype → k ≠ "__proto__" →
  count o k = <[k := NaN]> o.
Proof.
  intros H Hk Hp. unfold count, post_increment, get. rewrite H.
  rewrite bool_decide_eq_true_2 by done. simpl.
  by rewrite bool_decide_eq_false_2.
Qed.

Lemma count_other (o : gmap string num) k k' :
  k ≠ k' → count o k !! k' = o !! k'.
Proof.
  intros Hne. unfold count, post_increment.
  destruct (get o k); simpl; try case_bool_decide;
    rewrite ?lookup_insert_ne; done.
Qed.

Lemma counters_le_refl o : counters_le o o.
Proof. intros k z H. exists z. split; [done|lia]. Qed.

Lemma counters_le_trans o1 o2 o3 :
  counters_le o1 o2 → counters_le o2 o3 → counters_le o1 o3.
Proof.
  intros H12 H23 k z H.
  destruct (H12 k z H) as (z2 & H2 & Hle2).
  destruct (H23 k z2 H2) as (z3 & H3 & Hle3).
  exists z3. split; [done|lia].
Qed.

Lemma count_counters_le o k : counters_le o (count o k).
Proof.
  intros k' z H. destruct (decide (k = k')) as [->|Hne].
  - rewrite (count_own _ _ _ H). exists (z + 1).
    rewrite lookup_insert_eq. split; [done|lia].
  - exists z. rewrite count_other by done. split; [done|lia].
Qed.

(** ** Counters never decrease, except by a reset *)

Lemma perform_counters_le op t b t' b' :
  is_reset op = false →
  perform op t b = Some (t', b') →
  counters_le (clicks (data t)) (clicks (data t'))
  ∧ counters_le (sectionViews (data t)) (sectionViews (data t')).
Proof.
  intros Hop H. destruct op; try discriminate Hop; simpl in H.
  - (* trackClick *)
    injection H as <- <-. simpl. split; [|apply counters_le_refl].
    destruct target as [tg|]; [|apply count_counters_le].
    case_bool_decide; [apply count_counters_le|].
    eapply counters_le_trans; apply count_counters_le.
  - (* trackSectionView *)
    injection H as <- <-. simpl. split; [apply counters_le_refl|apply count_counters_le].
  - injection H as <- <-. simpl. split; apply counters_le_refl.
  - injection H as <- <-. simpl. split; apply counters_le_refl.
  - (* incrementVisitCount *)
    unfold incrementVisitCount in H. case_bool_decide; injection H as <- <-;
      simpl; split; apply counters_le_refl.
  - (* updateSectionTime *)
    unfold updateSectionTime in H.
    destruct (add_assign _ _ _); simpl in H; [|discriminate].
    injection H as <- <-. simpl. split; apply counters_le_refl.
  - injection H as <- <-. split; apply counters_le_refl.
  - injection H as <- <-. split; apply counters_le_refl.
  - injection H as <- <-. simpl. split; apply counters_le_refl.
  - (* the observer callback *)
    unfold on_section_visible, updateSectionTime in H.
    destruct (add_assign _ _ _); simpl in H; [|discriminate].
    injection H as <- <-. simpl. split; [apply counters_le_refl|apply count_counters_le].
Qed.

(** C8, as stated, fails: [resetData] puts a counter that stood at 4 back
    to 0. *)
Lemma resetData_decreases_a_counter :
  let t := (four_cta_clicks fresh_tracker sample_browser).1 in
  let t' := (resetData t sample_browser).1 in
  clicks (data t) !! "cta" = Some (Num 4)
  ∧ clicks (data t') !! "cta" = Some (Num 0)
  ∧ ¬ counters_le (clicks (data t)) (clicks (data t')).
Proof.
  assert (H4 : clicks (data (four_cta_clicks fresh_tracker sample_browser).1) !! "cta"
               = Some (Num 4)) by (vm_compute; reflexivity).
  assert (H0 : clicks (data (resetData (four_cta_clicks fresh_tracker sample_browser).1
                               sample_browser).1) !! "cta"
               = Some (Num 0)) by (vm_compute; reflexivity).
  split; [exact H4|]. split; [exact H0|].
  intros Hle. destruct (Hle "cta" 4 H4) as (z' & Hz & Hge).
  rewrite H0 in Hz. injection Hz as <-. lia.
Qed.

(** C8 (amended): in a run of tracker operations that contains no
    [resetData], whatever the browser does in between, no click counter
    and no section-view counter ever decreases. *)
Theorem counters_never_decrease_without_reset
    (ops : list (operation * (Browser → Browser)))
    (t t' : InteractionTracker) (b b' : Browser) :
  Forall (λ o, is_reset o.1 = false) ops →
  perform_all ops t b = Some (t', b') →
  counters_le (clicks (data t)) (clicks (data t'))
  ∧ counters_le (sectionViews (data t)) (sectionViews (data t')).
Proof.
  intros Hops. revert t b. induction Hops as [|[op tick] rest Hop _ IH]; intros t b H.
  - injection H as <- <-. split; apply counters_le_refl.
  - simpl in H. destruct (perform op t b) as [[t1 b1]|] eqn:E; [|discriminate].
    destruct (perform_counters_le op t b t1 b1 Hop E) as [Hc Hv].
    destruct (IH t1 (tick b1) H) as [Hc' Hv'].
    split; eapply counters_le_trans; eassumption.
Qed.

Lemma counters_never_decrease_without_reset_witness :
  counters_le (clicks (data fresh_tracker))
              (clicks (data (four_cta_clicks fresh_tracker sample_browser).1))
  ∧ counters_le (sectionViews (data fresh_tracker))
                (sectionViews (data (four_cta_clicks fresh_tracker sample_browser).1)).
Proof.
  apply (counters_never_decrease_without_reset
           [(TrackClick "cta" None [], id); (TrackClick "cta" None [], id);
            (TrackClick "cta" None [], id); (TrackClick "cta" None [], id)]
           fresh_tracker _ sample_browser
           (four_cta_clicks fresh_tracker sample_browser).2).
  - repeat constructor.
  - reflexivity.
Defined.

(** ** trackClick *)

(** C7 at the failing input: the category [toString] is not a key of
    [clicks], yet [trackClick('toString')] stores NaN under it, after which
    the total of the clicks and the engagement score are NaN. *)
Theorem trackClick_inherited_name_stores_NaN :
  let t' := (trackClick "toString" None [] fresh_tracker sample_browser).1 in
  clicks (data fresh_tracker) !! "toString" = None
  ∧ clicks (data t') !! "toString" = Some NaN
  ∧ sum_values (clicks (data t')) = NaN
  ∧ PrimFloat.is_nan (getEngagementScore t') = true.
Proof. repeat split; vm_compute; reflexivity. Qed.

(** Away from the names of [Object.prototype] the method does what C7
    says: the counter of a known category goes up by one, the counter of a
    known non-empty target goes up by one more ([hits] counts the two), an
    unknown name changes nothing, one entry is logged and [saveData] runs
    on the result. *)
Lemma trackClick_own_names type target metadata t b :
  type ∉ Object_prototype →
  (∀ tg, target = Some tg → tg ∉ Object_prototype) →
  let '(t', b') := trackClick type target metadata t b in
  (∀ k, clicks (data t') !! k = Nat.iter (hits type target k) incr <$> clicks (data t) !! k)
  ∧ interactions (data t')
    = push_capped 1000
        (log_entry "click"
           (obj_spread [("type", JStr type); ("target", opt_string_json target)] metadata) b)
        (interactions (data t))
  ∧ b' = saveData t' b.
Proof.
  intros Htype Htarget. simpl. split; [|done].
  assert (Hcount : ∀ (o : gmap string num) x k, x ∉ Object_prototype →
            count o x !! k = (if bool_decide (k = x) then incr else id) <$> o !! k).
  { intros o x k Hx. case_bool_decide as E.
    - subst k. destruct (o !! x) as [v|] eqn:Ho.
      + rewrite (count_own _ _ _ Ho), lookup_insert_eq. done.
      + rewrite (count_unknown _ _ Ho Hx), Ho. done.
    - rewrite count_other by done. by destruct (o !! k). }
  intros k. unfold hits. destruct target as [tg|].
  - case_bool_decide as Etg.
    + subst tg. rewrite Hcount by done.
      rewrite (bool_decide_eq_false_2 (Some "" = Some k ∧ k ≠ "")) by (intros [? ?]; congruence).
      destruct (clicks (data t) !! k); simpl; [|done].
      case_bool_decide; simpl; done.
    + rewrite !Hcount by eauto.
      destruct (clicks (data t) !! k); simpl; [|done].
      destruct (decide (k = tg)) as [->|Hne].
      * rewrite (bool_decide_eq_true_2 (tg = tg)) by done.
        rewrite (bool_decide_eq_true_2 (Some tg = Some tg ∧ tg ≠ "")) by done.
        case_bool_decide; simpl; done.
      * rewrite (bool_decide_eq_false_2 (k = tg)) by done.
        rewrite (bool_decide_eq_false_2 (Some tg = Some k ∧ k ≠ "")) by (intros [? ?]; congruence).
        case_bool_decide; simpl; done.
  - rewrite Hcount by done.
    rewrite (bool_decide_eq_false_2 (None = Some k ∧ k ≠ "")) by (intros [? ?]; congruence).
    destruct (clicks (data t) !! k); simpl; [|done].
    case_bool_decide; simpl; done.
Qed.

(** ** Persistence *)

Lemma push_capped_drop {A} cap (e : A) l :
  push_capped cap e l = drop (length l + 1 - cap) (l ++ [e]).
Proof.
  rewrite push_capped_slice. unfold slice_last. by rewrite length_app.
Qed.

(** The log after a push, read off the definition of [push_capped]. *)
Ltac pushed :=
  unfold push_capped, slice_last; rewrite ?length_app; cbn [length];
  case_bool_decide;
  first
    [ done
    | lia
    | match goal with
      | |- _ = drop ?n _ => replace n with 0%nat by lia; done
      | |- last (drop _ _) = _ =>
          rewrite drop_app_le by lia; apply last_snoc
      | |- last _ = _ => apply last_snoc
      end ].

(** What is written for a record: the counters and the other fields as
    they are, the log entry by entry. *)
Lemma stringified_dict_json o : stringified (dict_json o) = dict_json o.
Proof.
  unfold dict_json. cbn [stringified]. f_equal.
  rewrite <-list_fmap_compose. apply list_fmap_ext.
  intros i [k v] _. simpl. by destruct v.
Qed.

Lemma stringified_toJSON d :
  stringified (toJSON d)
  = toJSON (set_interactions (stringified <$> interactions d) d).
Proof.
  unfold toJSON. cbn [stringified fmap list_fmap fst snd].
  rewrite !stringified_dict_json. simpl. by destruct (lastVisit d).
Qed.

Lemma storable_log l : Forall storable l → stringified <$> l = l.
Proof.
  induction 1 as [|j l Hj _ IH]; [done|]. rewrite fmap_cons. unfold storable in Hj. by rewrite Hj, IH.
Qed.

Lemma storable_toJSON d :
  Forall storable (interactions d) → stringified (toJSON d) = toJSON d.
Proof.
  intros H. rewrite stringified_toJSON, (storable_log _ H). by destruct d.
Qed.

Lemma saveData_written t b :
  readable b = true →
  writable b = true →
  saveData t b
  = set_cells (<[interaction_key := Json (stringified (toJSON (data t)))]> (cells b)) b.
Proof. intros Hr Hw. unfold saveData, localStorage_setItem. by rewrite Hr, Hw. Qed.

Lemma saveData_refused t b :
  readable b = true →
  writable b = false →
  saveData t b = console_warn "Could not save interaction data:" QuotaExceededError b.
Proof. intros Hr Hw. unfold saveData, localStorage_setItem. by rewrite Hr, Hw. Qed.

Lemma saveData_clock t b : clock (saveData t b) = clock b.
Proof.
  unfold saveData, localStorage_setItem. by destruct (readable b), (writable b).
Qed.

Lemma saveData_dom t b : dom (saveData t b) = dom b.
Proof.
  unfold saveData, localStorage_setItem. by destruct (readable b), (writable b).
Qed.

Lemma loadData_clock b : clock (loadData b).2 = clock b.
Proof. unfold loadData. by destruct (result_bind _ _). Qed.

Lemma as_dict_dict_json (o : gmap string num) :
  numbers o → as_dict (dict_json o) = Some o.
Proof.
  intros Ho. unfold as_dict, dict_json.
  rewrite (mapM_fmap_Forall_Some as_counter (prod_map id num_json) (map_to_list o)).
  - simpl. by rewrite list_to_map_to_list.
  - apply Forall_forall. intros [k v] Hkv.
    apply elem_of_map_to_list in Hkv. specialize (Ho k v Hkv).
    destruct v; [done|destruct Ho].
Qed.

Lemma as_data_toJSON (d : InteractionData) :
  numeric d → as_data (toJSON d) = Some d.
Proof.
  intros (Hc & Ht & Hv). destruct d as [c sd ts tp lv vc sv ia]. simpl in *.
  unfold as_data, toJSON. simpl.
  repeat first [rewrite lookup_insert_eq | rewrite lookup_insert_ne by done]. simpl.
  pose proof (as_dict_dict_json c Hc) as Ec.
  pose proof (as_dict_dict_json ts Ht) as Et.
  pose proof (as_dict_dict_json sv Hv) as Ev.
  unfold as_dict, dict_json in Ec, Et, Ev. rewrite Ec, Et, Ev. simpl.
  by destruct lv.
Qed.

Lemma loadData_stored j b :
  readable b = true →
  cells b !! interaction_key = Some (Json j) →
  loadData b = (j, b).
Proof.
  intros Hr Hj. unfold loadData, localStorage_getItem. by rewrite Hr, Hj.
Qed.

Lemma defaults_numeric : numeric defaults.
Proof.
  unfold numeric, numbers. repeat split; apply (bool_decide_unpack _); vm_compute; reflexivity.
Qed.

(** The record a fresh instance reads after a save: the record saved,
    with every log entry as [JSON.stringify] writes it. *)
Lemma save_then_load t b b' :
  readable b = true →
  writable b = true →
  readable b' = true →
  cells b' !! interaction_key = cells (saveData t b) !! interaction_key →
  numeric (data t) →
  loadData b'
  = (toJSON (set_interactions (stringified <$> interactions (data t)) (data t)), b')
  ∧ as_data (loadData b').1
    = Some (set_interactions (stringified <$> interactions (data t)) (data t)).
Proof.
  intros Hr Hw Hr' Hcells Hnum.
  rewrite saveData_written in Hcells by done. cbn [cells set_cells] in Hcells.
  rewrite lookup_insert_eq, stringified_toJSON in Hcells.
  rewrite (loadData_stored _ _ Hr' Hcells). split; [done|].
  apply as_data_toJSON. by destruct Hnum as (? & ? & ?).
Qed.

(** C10: the visit counter moves at most once per calendar day.  If
    [lastVisit] is already today's date string, [incrementVisitCount]
    changes neither the tracker nor the browser (no increment, no log
    entry, no save).  Otherwise [visitCount] goes up by exactly 1,
    [lastVisit] becomes today's date string, the log is the old log with
    one [visit] entry after it (cut to its last 1000 entries), the other
    fields stay, and the record is persisted: when storage takes the
    write, the stored object carries the new count, the new day and the
    new log, and reads back as the new record; when it does not, storage
    is as before and the console has one more warning. *)
Theorem incrementVisitCount_once_per_day (t : InteractionTracker) (b : Browser) :
  (lastVisit (data t) = Some (today (clock b)) → incrementVisitCount t b = (t, b))
  ∧ (lastVisit (data t) ≠ Some (today (clock b)) →
     let t' := (incrementVisitCount t b).1 in
     let b' := (incrementVisitCount t b).2 in
     let log := interactions (data t) in
     let entry := JObj [("type", JStr "visit"); ("timestamp", JInt (now (clock b)))] in
     visitCount (data t') = visitCount (data t) + 1
     ∧ lastVisit (data t') = Some (today (clock b))
     ∧ interactions (data t') = drop (length log + 1 - 1000) (log ++ [entry])
     ∧ ((length log < 1000)%nat → interactions (data t') = log ++ [entry])
     ∧ clicks (data t') = clicks (data t)
     ∧ timeOnSections (data t') = timeOnSections (data t)
     ∧ sectionViews (data t') = sectionViews (data t)
     ∧ scrollDepth (data t') = scrollDepth (data t)
     ∧ themePreference (data t') = themePreference (data t)
     ∧ (readable b = true → writable b = true →
        (∃ fields,
           cells b' !! interaction_key = Some (Json (JObj fields))
           ∧ obj_get "visitCount" fields = Some (JInt (visitCount (data t) + 1))
           ∧ obj_get "lastVisit" fields = Some (JStr (today (clock b)))
           ∧ obj_get "interactions" fields
             = Some (JArr (stringified <$> interactions (data t'))))
        ∧ (numeric (data t) → Forall storable log →
           as_data (loadData b').1 = Some (data t')))
     ∧ (readable b && writable b = false →
        cells b' = cells b
        ∧ ∃ e, console b' = console b ++ [("Could not save interaction data:", e)])).
Proof.
  unfold incrementVisitCount. split; intros H.
  - by rewrite bool_decide_eq_true_2.
  - rewrite bool_decide_eq_false_2 by done. cbv zeta. cbn [fst snd].
    set (t1 := trackInteraction "visit" [] _ b).
    assert (Hlog : interactions (data t1)
                   = push_capped 1000
                       (JObj [("type", JStr "visit"); ("timestamp", JInt (now (clock b)))])
                       (interactions (data t))) by done.
    split; [done|]. split; [done|].
    split; [rewrite Hlog; pushed|].
    split; [intros Hroom; rewrite Hlog; pushed|].
    do 5 (split; [done|]). split.
    + intros Hr Hw. rewrite (saveData_written _ _ Hr Hw). split.
      * eexists. split.
        { cbn [cells set_cells]. rewrite lookup_insert_eq, stringified_toJSON.
          unfold toJSON. reflexivity. }
        done.
      * intros Hnum Hstorable.
        destruct (save_then_load t1 b (saveData t1 b) Hr Hw) as [_ Hread].
        { by rewrite saveData_written. }
        { done. }
        { by destruct Hnum as (? & ? & ?). }
        rewrite saveData_written in Hread by done. rewrite Hread. f_equal.
        rewrite storable_log; [by destruct t1 as [[] ? ?]|].
        rewrite Hlog, push_capped_drop. apply Forall_drop, Forall_app.
        split; [done|]. by apply Forall_singleton.
    + intros Hfail. unfold saveData, localStorage_setItem.
      destruct (readable b), (writable b); try discriminate Hfail;
        (split; [done|]); by eexists.
Qed.

Lemma incrementVisitCount_once_per_day_witness :
  incrementVisitCount returning_tracker sample_browser
  = (returning_tracker, sample_browser)
  ∧ visitCount (data (incrementVisitCount fresh_tracker sample_browser).1) = 1
  ∧ lastVisit (data (incrementVisitCount fresh_tracker sample_browser).1)
    = Some "Tue Nov 14 2023"
  ∧ interactions (data (incrementVisitCount fresh_tracker sample_browser).1)
    = [JObj [("type", JStr "visit"); ("timestamp", JInt 1700000000000)]]
  ∧ (∃ fields,
       cells (incrementVisitCount fresh_tracker sample_browser).2 !! interaction_key
       = Some (Json (JObj fields))
       ∧ obj_get "visitCount" fields = Some (JInt 1)
       ∧ obj_get "lastVisit" fields = Some (JStr "Tue Nov 14 2023")
       ∧ obj_get "interactions" fields
         = Some (JArr [JObj [("type", JStr "visit"); ("timestamp", JInt 1700000000000)]]))
  ∧ as_data (loadData (incrementVisitCount fresh_tracker sample_browser).2).1
    = Some (data (incrementVisitCount fresh_tracker sample_browser).1)
  ∧ console (incrementVisitCount fresh_tracker full_browser).2
    = [("Could not save interaction data:", QuotaExceededError)]
  ∧ console (incrementVisitCount fresh_tracker denied_browser).2
    = [("Could not save interaction data:", SecurityError)].
Proof.
  split.
  { apply (incrementVisitCount_once_per_day returning_tracker sample_browser).
    reflexivity. }
  destruct (incrementVisitCount_once_per_day fresh_tracker sample_browser) as [_ H].
  destruct (H ltac:(discriminate))
    as (Hcount & Hday & _ & _ & _ & _ & _ & _ & _ & Hsaved & _).
  destruct (Hsaved eq_refl eq_refl) as [_ Hread].
  split; [exact Hcount|]. split; [exact Hday|].
  split; [reflexivity|].
  split.
  - eexists. split; [vm_compute; reflexivity|]. repeat split.
  - split; [|split; reflexivity]. apply Hread; [apply defaults_numeric|constructor].
Defined.

Lemma float_json_stringified f : stringified (float_json f) = float_json f.
Proof.
  unfold float_json.
  destruct (PrimFloat.is_nan f || PrimFloat.is_infinity f) eqn:E; [done|].
  destruct (PrimFloat.eqb f 0) eqn:E0; simpl.
  - reflexivity.
  - unfold float_json. by rewrite E, E0.
Qed.

Fixpoint stringified_idem (j : json) : stringified (stringified j) = stringified j.
Proof.
  destruct j as [| | |f| |items|fields]; try reflexivity.
  - apply float_json_stringified.
  - cbn [stringified]. f_equal.
    induction items as [|x l IH]; [reflexivity|].
    rewrite !fmap_cons. by rewrite stringified_idem, IH.
  - cbn [stringified]. f_equal.
    induction fields as [|[k v] l IH]; [reflexivity|].
    rewrite !fmap_cons. cbn [fst snd]. by rewrite stringified_idem, IH.
Qed.

(** Writing commutes with the spread: keys stay, values are written one
    by one. *)
Lemma stringified_obj_put k v o :
  (λ kv, (kv.1, stringified kv.2)) <$> obj_put k v o
  = obj_put k (stringified v) ((λ kv, (kv.1, stringified kv.2)) <$> o).
Proof.
  induction o as [|[k' v'] o IH]; [done|].
  cbn [obj_put]. rewrite !fmap_cons. cbn [fst snd obj_put].
  case_bool_decide; [done|]. rewrite fmap_cons. cbn [fst snd]. by rewrite IH.
Qed.

Lemma stringified_obj_spread o extra :
  (λ kv, (kv.1, stringified kv.2)) <$> obj_spread o extra
  = obj_spread ((λ kv, (kv.1, stringified kv.2)) <$> o)
               ((λ kv, (kv.1, stringified kv.2)) <$> extra).
Proof.
  unfold obj_spread. revert o.
  induction extra as [|[k v] extra IH]; intros o; [done|].
  rewrite fmap_cons. cbn [foldl fst snd]. by rewrite IH, stringified_obj_put.
Qed.

Lemma storable_fields l :
  Forall (λ kv : string * json, storable kv.2) l →
  (λ kv, (kv.1, stringified kv.2)) <$> l = l.
Proof.
  induction 1 as [|[k v] l Hv _ IH]; [done|].
  rewrite fmap_cons. cbn [fst snd] in *. unfold storable in Hv. by rewrite Hv, IH.
Qed.

(** C9: storage errors never propagate.  When the write throws, whatever
    the error, [saveData] returns normally: the console has one more
    warning, which carries the error, and the stored cells are as they
    were; the write throws a SecurityError when storage is denied and a
    QuotaExceededError when it is full.  The record in memory does not
    depend on storage: [trackClick] leaves the same tracker whether the
    write goes through or not.  [loadData] returns [null] when nothing is
    stored, when the stored string does not parse (one warning, unless the
    string is empty, which is not parsed at all) and when the read throws
    (one warning).  The constructor then takes the zeroed defaults and, as
    on every first visit, counts the visit. *)
Theorem storage_errors_never_propagate (t : InteractionTracker) (b : Browser) :
  (∀ e, localStorage_setItem interaction_key (JSON_stringify (toJSON (data t))) b = Throw e →
     console (saveData t b) = console b ++ [("Could not save interaction data:", e)]
     ∧ cells (saveData t b) = cells b)
  ∧ (readable b = false →
     localStorage_setItem interaction_key (JSON_stringify (toJSON (data t))) b
     = Throw SecurityError
     ∧ localStorage_getItem interaction_key b = Throw SecurityError)
  ∧ (readable b = true → writable b = false →
     localStorage_setItem interaction_key (JSON_stringify (toJSON (data t))) b
     = Throw QuotaExceededError)
  ∧ (∀ type target metadata b0, clock b0 = clock b →
     (trackClick type target metadata t b0).1 = (trackClick type target metadata t b).1)
  ∧ (localStorage_getItem interaction_key b = Ok None → loadData b = (JNull, b))
  ∧ (∀ s, localStorage_getItem interaction_key b = Ok (Some (Garbled s)) →
     (loadData b).1 = JNull
     ∧ cells (loadData b).2 = cells b
     ∧ console (loadData b).2
       = console b ++ (if bool_decide (s = "") then []
                       else [("Could not load interaction data:", SyntaxError)]))
  ∧ (∀ e, localStorage_getItem interaction_key b = Throw e →
     (loadData b).1 = JNull
     ∧ cells (loadData b).2 = cells b
     ∧ console (loadData b).2 = console b ++ [("Could not load interaction data:", e)])
  ∧ ((loadData b).1 = JNull →
     ∃ t' b',
       new_InteractionTracker b = Built t' b'
       ∧ (t', b') = incrementVisitCount (mkTracker defaults "home" (now (clock b)))
                                        (loadData b).2
       ∧ clicks (data t') = zero_clicks
       ∧ timeOnSections (data t') = zero_sections
       ∧ sectionViews (data t') = zero_sections
       ∧ scrollDepth (data t') = 0
       ∧ themePreference (data t') = "light"
       ∧ visitCount (data t') = 1
       ∧ lastVisit (data t') = Some (today (clock b))).
Proof.
  split; [|split; [|split; [|split; [|split; [|split; [|split]]]]]].
  - intros e H. unfold saveData. rewrite H. done.
  - intros Hr. unfold localStorage_setItem, localStorage_getItem. by rewrite Hr.
  - intros Hr Hw. unfold localStorage_setItem. by rewrite Hr, Hw.
  - intros type target metadata b0 Hclock. unfold trackClick, trackInteraction, log_entry.
    cbn [fst]. by rewrite Hclock.
  - intros H. unfold loadData. by rewrite H.
  - intros s H. unfold loadData. rewrite H. simpl.
    destruct (bool_decide (s = "")); simpl; [|done].
    by rewrite app_nil_r.
  - intros e H. unfold loadData. by rewrite H.
  - intros H. unfold new_InteractionTracker.
    destruct (loadData b) as [j b1] eqn:E. simpl in H. subst j.
    assert (Hclock : clock b1 = clock b).
    { pose proof (loadData_clock b) as Hc. by rewrite E in Hc. }
    simpl. unfold incrementVisitCount. simpl. rewrite Hclock.
    eexists _, _. repeat split.
Qed.

Lemma storage_errors_never_propagate_witness :
  console (saveData fresh_tracker denied_browser)
  = [("Could not save interaction data:", SecurityError)]
  ∧ cells (saveData fresh_tracker denied_browser) = ∅
  ∧ console (saveData fresh_tracker full_browser)
    = [("Could not save interaction data:", QuotaExceededError)]
  ∧ (loadData denied_browser).1 = JNull
  ∧ console (loadData denied_browser).2
    = [("Could not load interaction data:", SecurityError)]
  ∧ (loadData corrupt_browser).1 = JNull
  ∧ console (loadData corrupt_browser).2
    = [("Could not load interaction data:", SyntaxError)]
  ∧ ∃ t' b', new_InteractionTracker corrupt_browser = Built t' b'
             ∧ clicks (data t') = zero_clicks ∧ visitCount (data t') = 1.
Proof.
  destruct (storage_errors_never_propagate fresh_tracker denied_browser)
    as (Hsave & Hdenied & _ & _ & _ & _ & Hthrow & _).
  destruct (Hdenied eq_refl) as [Hset Hget].
  destruct (Hsave _ Hset) as [_ Hcells].
  destruct (Hthrow _ Hget) as (Hnull & _ & _).
  destruct (storage_errors_never_propagate fresh_tracker corrupt_browser)
    as (_ & _ & _ & _ & _ & Hgarbled & _ & Hnew).
  destruct (Hgarbled "{clicks:" eq_refl) as (Hnull' & _ & _).
  destruct (Hnew Hnull') as (t' & b' & Hb & _ & Hc & _ & _ & _ & _ & Hv & _).
  split; [reflexivity|]. split; [exact Hcells|]. split; [reflexivity|].
  split; [exact Hnull|]. split; [reflexivity|].
  split; [exact Hnull'|]. split; [reflexivity|].
  exists t', b'. split; [exact Hb|]. split; [exact Hc|exact Hv].
Defined.

(** ** The round trip through storage *)




(** ** What the actions leave alone *)

Lemma logEvolution_frame desc p b :
  tracker (logEvolution desc p b).1 = tracker p
  ∧ gate (logEvolution desc p b).1 = gate p
  ∧ dom (logEvolution desc p b).2 = dom b
  ∧ clock (logEvolution desc p b).2 = clock b.
Proof.
  unfold logEvolution, saveEvolutionHistory, localStorage_setItem.
  by destruct (readable b), (writable b).
Qed.

Lemma showEvolutionNotice_frame message b :
  labels (showEvolutionNotice message b) = labels b
  ∧ clock (showEvolutionNotice message b) = clock b.
Proof. unfold showEvolutionNotice. by destruct (notice_present (dom b)). Qed.

Lemma trackThemePreference_frame preference t b :
  clicks (data (trackThemePreference preference t b).1) = clicks (data t)
  ∧ dom (trackThemePreference preference t b).2 = dom b
  ∧ clock (trackThemePreference preference t b).2 = clock b.
Proof.
  unfold trackThemePreference. simpl.
  by rewrite saveData_dom, saveData_clock.
Qed.

(** Logging and then showing the notice, the common tail of the actions. *)
Lemma log_and_notify_frame desc message p b :
  let r := (let '(p2, b2) := logEvolution desc p b in
            (p2, showEvolutionNotice message b2)) in
  gate r.1 = gate p
  ∧ clicks (data (tracker r.1)) = clicks (data (tracker p))
  ∧ clock r.2 = clock b
  ∧ labels r.2 = labels b.
Proof.
  destruct (logEvolution_frame desc p b) as (Ht & Hg & Hd & Hc).
  destruct (logEvolution desc p b) as [p2 b2]. simpl in *.
  destruct (showEvolutionNotice_frame message b2) as (Hl & Hc').
  rewrite Ht, Hg, Hl, Hc', Hc. unfold labels. by rewrite Hd.
Qed.

Ltac use_log_and_notify :=
  match goal with
  | |- context [logEvolution ?desc ?p ?b] =>
      match goal with
      | |- context [showEvolutionNotice ?message _] =>
          let H := fresh in
          pose proof (log_and_notify_frame desc message p b) as H;
          cbv zeta in H; destruct H as (-> & -> & -> & ->)
      end
  end.

(** Every action leaves the gate of every rule, the click counters and the
    clock as they are; only [optimizeCTA] writes the three labels. *)
Lemma action_frame rule p b :
  rule ∈ evolutionRules →
  gate (action rule p b).1 = gate p
  ∧ clicks (data (tracker (action rule p b).1)) = clicks (data (tracker p))
  ∧ clock (action rule p b).2 = clock b
  ∧ (name rule ≠ "cta_optimization" → labels (action rule p b).2 = labels b).
Proof.
  intros Hin. unfold evolutionRules, setupEvolutionRules in Hin.
  repeat (apply elem_of_cons in Hin as [->|Hin]);
    [| | | | |by apply elem_of_nil in Hin];
    unfold projects_priority, cta_optimization, dark_theme_default,
           project_highlight, content_reveal; cbn [action name].
  - unfold moveProjectsUp. cbv zeta.
    destruct (_ && _ && _); [|done]. use_log_and_notify. done.
  - unfold optimizeCTA. cbv zeta. use_log_and_notify. done.
  - unfold setDarkThemeDefault. cbv zeta.
    destruct (body_dark (dom b)); [done|].
    match goal with
    | |- context [trackThemePreference ?x ?t ?b1] =>
        destruct (trackThemePreference_frame x t b1) as (Hc & Hd & Hk);
        destruct (trackThemePreference x t b1) as [t2 b2]
    end.
    simpl in Hc, Hd, Hk. use_log_and_notify.
    unfold labels. rewrite Hd, Hk. simpl. done.
  - unfold highlightPopularProject. cbv zeta. use_log_and_notify.
    unfold labels. simpl.
    assert (Hfold : ∀ l d,
      let d1 := foldl (λ acc index, setTimeout (GlowCard index) (Z.of_nat index * 200) acc) d l in
      contactHero_label d1 = contactHero_label d
      ∧ exploreProjects_label d1 = exploreProjects_label d
      ∧ submit_label d1 = submit_label d).
    { induction l as [|i l IH]; intros d; [done|]. simpl. apply (IH (setTimeout _ _ d)). }
    destruct (Hfold (seq 0 (project_cards (dom b))) (dom b)) as (-> & -> & ->). done.
  - unfold revealAdditionalContent. cbv zeta. use_log_and_notify.
    by destruct (projects_present (dom b)).
Qed.

(** ** One evaluation of the rules *)

Lemma shouldApplyRule_true rule d e b :
  shouldApplyRule rule d e b = true
  ↔ condition rule d = true
    ∧ cooldown rule < now (clock b) - lastApplied rule e
    ∧ name rule ∉ currentEvolutions e.
Proof.
  unfold shouldApplyRule. cbv zeta.
  rewrite !andb_true_iff, negb_true_iff, bool_decide_eq_true, bool_decide_eq_false.
  tauto.
Qed.

Lemma apply_rule_frame rule p b :
  rule ∈ evolutionRules →
  lastAppliedTimes (engine (apply_rule rule p b).1)
  = <[name rule := now (clock b)]> (lastAppliedTimes (engine p))
  ∧ currentEvolutions (engine (apply_rule rule p b).1)
    = {[name rule]} ∪ currentEvolutions (engine p)
  ∧ clicks (data (tracker (apply_rule rule p b).1)) = clicks (data (tracker p))
  ∧ clock (apply_rule rule p b).2 = clock b
  ∧ (name rule ≠ "cta_optimization" → labels (apply_rule rule p b).2 = labels b).
Proof.
  intros Hin. destruct (action_frame rule p b Hin) as (Hg & Hc & Hk & Hl).
  unfold apply_rule. destruct (action rule p b) as [p1 b1]. simpl in *.
  unfold gate in Hg. injection Hg as -> ->. rewrite Hk. done.
Qed.

Lemma forEach_rule_spec rules :
  (∀ r, r ∈ rules → r ∈ evolutionRules) →
  ∀ p b fired p' b',
  forEach_rule rules p b = (fired, p', b') →
  clock b' = clock b
  ∧ clicks (data (tracker p')) = clicks (data (tracker p))
  ∧ currentEvolutions (engine p') = list_to_set fired ∪ currentEvolutions (engine p)
  ∧ NoDup fired
  ∧ (∀ n, n ∈ fired →
       (n ∉ currentEvolutions (engine p))
       ∧ lastAppliedTimes (engine p') !! n = Some (now (clock b))
       ∧ ∃ r, r ∈ rules ∧ name r = n
              ∧ cooldown r < now (clock b) - lastApplied r (engine p))
  ∧ (∀ n, n ∉ fired →
       lastAppliedTimes (engine p') !! n = lastAppliedTimes (engine p) !! n).
Proof.
  induction rules as [|rule rest IH]; intros Hin p b fired p' b' H; simpl in H.
  - injection H as <- <- <-. simpl.
    split; [done|]. split; [done|]. split; [by rewrite (left_id_L ∅ (∪))|].
    split; [constructor|]. split; [|done].
    intros n Hn. by apply elem_of_nil in Hn.
  - assert (Hrest : ∀ r, r ∈ rest → r ∈ evolutionRules)
      by (intros r Hr; apply Hin; by right).
    assert (Hrule : rule ∈ evolutionRules) by (apply Hin; by left).
    destruct (shouldApplyRule rule (getData (tracker p)) (engine p) b) eqn:Hshould.
    + apply shouldApplyRule_true in Hshould as (Hcond & Hcool & Hfree).
      destruct (apply_rule_frame rule p b Hrule)
        as (Hlast & Hcur & Hclicks & Hclock & _).
      destruct (apply_rule rule p b) as [p1 b1]. simpl in *.
      destruct (forEach_rule rest p1 b1) as [[fired' p2] b2] eqn:Hrec.
      injection H as <- <- <-.
      destruct (IH Hrest p1 b1 fired' p2 b2 Hrec)
        as (Hk & Hc & Hcur' & Hnodup & Hfired & Hkept).
      assert (Hactive : ∀ n, n ∈ fired' → n ≠ name rule ∧ n ∉ currentEvolutions (engine p)).
      { intros n Hn. destruct (Hfired _ Hn) as (Hn' & _).
        rewrite Hcur, elem_of_union, elem_of_singleton in Hn'. tauto. }
      assert (Hfresh : name rule ∉ fired').
      { intros Hn. by destruct (Hactive _ Hn). }
      split; [congruence|]. split; [congruence|].
      split; [rewrite Hcur', Hcur; simpl; by rewrite (assoc_L (∪)), (comm_L (∪) _ {[name rule]})|].
      split; [by constructor|]. split.
      * intros n Hn. apply elem_of_cons in Hn as [->|Hn].
        -- split; [done|]. split.
           ++ rewrite (Hkept _ Hfresh), Hlast. apply lookup_insert_eq.
           ++ exists rule. split; [by left|done].
        -- destruct (Hactive _ Hn) as [Hne Hfree'].
           destruct (Hfired _ Hn) as (_ & Hl & r & Hr & Hname & Hcd).
           split; [done|]. split; [by rewrite Hl, Hclock|].
           exists r. split; [by right|]. split; [done|].
           unfold lastApplied in *.
           rewrite Hlast, lookup_insert_ne, Hclock in Hcd by congruence.
           done.
      * intros n Hn. apply not_elem_of_cons in Hn as [Hne Hn].
        rewrite (Hkept _ Hn), Hlast. by rewrite lookup_insert_ne.
    + destruct (IH Hrest p b fired p' b' H)
        as (Hk & Hc & Hcur' & Hnodup & Hfired & Hkept).
      split; [done|]. split; [done|]. split; [done|]. split; [done|].
      split; [|done].
      intros n Hn. destruct (Hfired _ Hn) as (Hfree & Hl & r & Hr & Hname & Hcd).
      split; [done|]. split; [done|].
      exists r. split; [by right|done].
Qed.

Lemma checkEvolutionRules_spec p b fired p' b' :
  checkEvolutionRules p b = (fired, p', b') →
  clock b' = clock b
  ∧ clicks (data (tracker p')) = clicks (data (tracker p))
  ∧ currentEvolutions (engine p') = list_to_set fired ∪ currentEvolutions (engine p)
  ∧ NoDup fired
  ∧ (∀ n, n ∈ fired →
       (n ∉ currentEvolutions (engine p))
       ∧ lastAppliedTimes (engine p') !! n = Some (now (clock b))
       ∧ ∃ r, r ∈ evolutionRules ∧ name r = n
              ∧ cooldown r < now (clock b) - lastApplied r (engine p))
  ∧ (∀ n, n ∉ fired →
       lastAppliedTimes (engine p') !! n = lastAppliedTimes (engine p) !! n).
Proof. apply forEach_rule_spec. done. Qed.

(** The names of the rules are pairwise different. *)
Lemma rule_names_NoDup : NoDup (name <$> evolutionRules).
Proof. apply (bool_decide_unpack _). vm_compute. reflexivity. Qed.

Lemma rule_of_name r r' :
  r ∈ evolutionRules → r' ∈ evolutionRules → name r = name r' → r = r'.
Proof.
  intros Hr Hr' Hname.
  apply list_elem_of_lookup in Hr as [i Hi], Hr' as [j Hj].
  assert (i = j) as ->.
  { eapply (NoDup_lookup _ i j (name r) rule_names_NoDup);
      rewrite list_lookup_fmap; [by rewrite Hi|by rewrite Hj, Hname]. }
  congruence.
Qed.

(** ** A whole session *)

Lemma session_spec evs :
  ∀ p b,
  NoDup (concat (session evs p b))
  ∧ ∀ n, n ∈ concat (session evs p b) → n ∉ currentEvolutions (engine p).
Proof.
  induction evs as [|[|t b0] rest IH]; intros p b; simpl.
  - split; [constructor|]. intros n Hn. by apply elem_of_nil in Hn.
  - destruct (checkEvolutionRules p b) as [[fired p1] b1] eqn:Hcheck.
    destruct (checkEvolutionRules_spec _ _ _ _ _ Hcheck)
      as (_ & _ & Hcur & Hnodup & Hfired & _).
    destruct (IH p1 b1) as [Hnodup' Hlater].
    assert (Hsplit : ∀ n, n ∈ concat (session rest p1 b1) →
              (n ∉ fired) ∧ (n ∉ currentEvolutions (engine p))).
    { intros n Hn. specialize (Hlater n Hn).
      rewrite Hcur, elem_of_union, elem_of_list_to_set in Hlater. tauto. }
    simpl. split.
    + apply NoDup_app. split; [done|]. split; [|done].
      intros n Hn Hn'. by destruct (Hsplit n Hn').
    + intros n Hn. apply elem_of_app in Hn as [Hn|Hn].
      * by destruct (Hfired n Hn).
      * by destruct (Hsplit n Hn).
  - apply (IH (mkPage t (engine p)) b0).
Qed.

(** C2: each rule fires at most once per session.  Whatever the user and
    the clock do between the evaluations of [checkEvolutionRules], no rule
    name occurs twice among the actions a session runs, and a rule that is
    in [currentEvolutions] is never run again, even when its predicate
    holds and its cooldown has elapsed. *)
Theorem rule_fires_at_most_once (evs : list event) (p : Page) (b : Browser) :
  NoDup (concat (session evs p b))
  ∧ (∀ n, n ∈ currentEvolutions (engine p) → n ∉ concat (session evs p b))
  ∧ (∀ fired p' b', checkEvolutionRules p b = (fired, p', b') →
       ∀ n, n ∈ fired →
         n ∈ currentEvolutions (engine p')
         ∧ ∀ later, n ∉ concat (session later p' b')).
Proof.
  destruct (session_spec evs p b) as [Hnodup Hfree].
  split; [done|]. split.
  - intros n Hn Hfired. by apply (Hfree n Hfired).
  - intros fired p' b' Hcheck n Hn.
    destruct (checkEvolutionRules_spec _ _ _ _ _ Hcheck) as (_ & _ & Hcur & _).
    assert (Hactive : n ∈ currentEvolutions (engine p')).
    { rewrite Hcur, elem_of_union, elem_of_list_to_set. by left. }
    split; [done|]. intros evs' Hagain.
    by apply (proj2 (session_spec evs' p' b') n Hagain).
Qed.

(** After the rule has fired, a later evaluation with the predicate still
    true and the cooldown elapsed does not run it. *)
Lemma rule_fires_at_most_once_witness :
  "cta_optimization" ∈ (checkEvolutionRules cta_page cta_browser).1.1
  ∧ "cta_optimization"
    ∉ concat (session [Elsewhere (tracker cta_page) (later cta_browser); Evaluate]
                      (checkEvolutionRules cta_page cta_browser).1.2
                      (checkEvolutionRules cta_page cta_browser).2).
Proof.
  split.
  - apply (bool_decide_unpack _). vm_compute. reflexivity.
  - apply (rule_fires_at_most_once
             [Elsewhere (tracker cta_page) (later cta_browser); Evaluate]
             (checkEvolutionRules cta_page cta_browser).1.2
             (checkEvolutionRules cta_page cta_browser).2).
    apply (bool_decide_unpack _). vm_compute. reflexivity.
Defined.

(** C3: the cooldown gate.  [shouldApplyRule] answers true exactly when
    the predicate holds, more than [cooldown] milliseconds have passed
    since the time recorded for the rule (0 if it was never applied), and
    the rule is not in [currentEvolutions].  So an evaluation at time [t]
    runs a rule only if [t] minus the time of its last application exceeds
    the cooldown, and it records [t] as the new time of application. *)
Theorem cooldown_gate (p : Page) (b : Browser) :
  (∀ rule,
     shouldApplyRule rule (getData (tracker p)) (engine p) b = true
     ↔ condition rule (getData (tracker p)) = true
       ∧ cooldown rule < now (clock b) - default 0 (lastAppliedTimes (engine p) !! name rule)
       ∧ name rule ∉ currentEvolutions (engine p))
  ∧ (∀ rule, rule ∈ evolutionRules →
       name rule ∈ (checkEvolutionRules p b).1.1 →
       ¬ (now (clock b) - default 0 (lastAppliedTimes (engine p) !! name rule)
          ≤ cooldown rule)
       ∧ (name rule ∉ currentEvolutions (engine p))
       ∧ lastAppliedTimes (engine (checkEvolutionRules p b).1.2) !! name rule
         = Some (now (clock b))).
Proof.
  split; [intros rule; apply shouldApplyRule_true|].
  intros rule Hrule Hfired.
  destruct (checkEvolutionRules p b) as [[fired p'] b'] eqn:Hcheck. simpl in *.
  destruct (checkEvolutionRules_spec _ _ _ _ _ Hcheck) as (_ & _ & _ & _ & Hspec & _).
  destruct (Hspec _ Hfired) as (Hfree & Hlast & r & Hr & Hname & Hcool).
  rewrite (rule_of_name r rule Hr Hrule Hname) in Hcool.
  unfold lastApplied in Hcool. split; [lia|done].
Qed.

Lemma cooldown_gate_witness :
  ¬ (now (clock cta_browser)
     - default 0 (lastAppliedTimes (engine cta_page) !! name cta_optimization)
     ≤ cooldown cta_optimization)
  ∧ (name cta_optimization ∉ currentEvolutions (engine cta_page))
  ∧ lastAppliedTimes (engine (checkEvolutionRules cta_page cta_browser).1.2)
      !! name cta_optimization
    = Some (now (clock cta_browser)).
Proof.
  apply (cooldown_gate cta_page cta_browser).
  - right. left.
  - apply (bool_decide_unpack _). vm_compute. reflexivity.
Defined.

(** ** Four clicks on a call to action *)

Lemma count_own_lookup (o : gmap string num) k v :
  o !! k = Some v → count o k !! k = Some (incr v).
Proof. intros H. rewrite (count_own _ _ _ H). apply lookup_insert_eq. Qed.

Lemma four_cta_clicks_counts t b z :
  clicks (data t) !! "cta" = Some (Num z) →
  clicks (data (four_cta_clicks t b).1) !! "cta" = Some (Num (z + 4))
  ∧ ∀ k, k ≠ "cta" → clicks (data (four_cta_clicks t b).1) !! k = clicks (data t) !! k.
Proof.
  intros H. unfold four_cta_clicks, trackClick. cbn [fst data clicks set_data set_clicks
    trackInteraction set_interactions]. split.
  - apply count_own_lookup in H. apply count_own_lookup in H.
    apply count_own_lookup in H. apply count_own_lookup in H.
    rewrite H. simpl. do 2 f_equal. lia.
  - intros k Hk. by rewrite !count_other.
Qed.

Lemma forEach_rule_cons rule rest p b :
  forEach_rule (rule :: rest) p b
  = if shouldApplyRule rule (getData (tracker p)) (engine p) b then
      let '(p1, b1) := apply_rule rule p b in
      let '(fired, p2, b2) := forEach_rule rest p1 b1 in
      (name rule :: fired, p2, b2)
    else forEach_rule rest p b.
Proof. reflexivity. Qed.

Lemma forEach_rule_app l1 l2 p b :
  forEach_rule (l1 ++ l2) p b
  = let '(f1, p1, b1) := forEach_rule l1 p b in
    let '(f2, p2, b2) := forEach_rule l2 p1 b1 in
    (f1 ++ f2, p2, b2).
Proof.
  revert p b. induction l1 as [|rule l1 IH]; intros p b; simpl.
  - by destruct (forEach_rule l2 p b) as [[f2 p2] b2].
  - destruct (shouldApplyRule _ _ _ _); [|apply IH].
    destruct (apply_rule rule p b) as [p1 b1]. rewrite IH.
    destruct (forEach_rule l1 p1 b1) as [[f1 p1'] b1'].
    by destruct (forEach_rule l2 p1' b1') as [[f2 p2] b2].
Qed.

Lemma forEach_rule_labels rules :
  (∀ r, r ∈ rules → r ∈ evolutionRules ∧ name r ≠ "cta_optimization") →
  ∀ p b, labels (forEach_rule rules p b).2 = labels b.
Proof.
  induction rules as [|rule rest IH]; intros Hin p b; simpl; [done|].
  assert (Hrest : ∀ r, r ∈ rest → r ∈ evolutionRules ∧ name r ≠ "cta_optimization")
    by (intros r Hr; apply Hin; by right).
  destruct (Hin rule ltac:(by left)) as [Hrule Hname].
  destruct (shouldApplyRule _ _ _ _); [|by apply IH].
  destruct (apply_rule_frame rule p b Hrule) as (_ & _ & _ & _ & Hl).
  destruct (apply_rule rule p b) as [p1 b1]. simpl in Hl.
  specialize (IH Hrest p1 b1).
  destruct (forEach_rule rest p1 b1) as [[f p2] b2]. simpl in *.
  rewrite IH. by apply Hl.
Qed.

Lemma apply_rule_cta_labels p b :
  labels (apply_rule cta_optimization p b).2
  = (set_text contactHero_text (contactHero_label (dom b)),
     set_text exploreProjects_text (exploreProjects_label (dom b)),
     set_text submit_text (submit_label (dom b))).
Proof.
  unfold apply_rule, cta_optimization. cbn [action]. unfold optimizeCTA. cbv zeta.
  match goal with
  | |- context [logEvolution ?desc ?p ?b1] =>
      match goal with
      | |- context [showEvolutionNotice ?message _] =>
          destruct (log_and_notify_frame desc message p b1) as (_ & _ & _ & Hl)
      end
  end.
  destruct (logEvolution _ _ _) as [p2 b2]. simpl in *. exact Hl.
Qed.

(** What an evaluation does when [cta_optimization] is due: it runs the
    rule, which ends up active, and the labels are the new texts. *)
Lemma checkEvolutionRules_cta_due p b :
  jgt (field (clicks (data (tracker p))) "cta") (Num 3) = true →
  "cta_optimization" ∉ currentEvolutions (engine p) →
  45000 < now (clock b) - default 0 (lastAppliedTimes (engine p) !! "cta_optimization") →
  "cta_optimization" ∈ (checkEvolutionRules p b).1.1
  ∧ "cta_optimization" ∈ currentEvolutions (engine (checkEvolutionRules p b).1.2)
  ∧ labels (checkEvolutionRules p b).2
    = (set_text contactHero_text (contactHero_label (dom b)),
       set_text exploreProjects_text (exploreProjects_label (dom b)),
       set_text submit_text (submit_label (dom b))).
Proof.
  intros Hcta Hfree Hcool.
  unfold checkEvolutionRules, evolutionRules, setupEvolutionRules.
  change [projects_priority; cta_optimization; dark_theme_default;
          project_highlight; content_reveal]
    with ([projects_priority]
          ++ cta_optimization :: [dark_theme_default; project_highlight; content_reveal]).
  rewrite forEach_rule_app.
  (* the rule before it *)
  assert (H1 : ∀ r, r ∈ [projects_priority] → r ∈ evolutionRules).
  { intros r Hr. apply list_elem_of_singleton in Hr as ->. by left. }
  assert (H1' : ∀ r, r ∈ [projects_priority] →
                  r ∈ evolutionRules ∧ name r ≠ "cta_optimization").
  { intros r Hr. split; [by apply H1|].
    apply list_elem_of_singleton in Hr as ->. done. }
  pose proof (forEach_rule_labels _ H1' p b) as Hl1.
  destruct (forEach_rule [projects_priority] p b) as [[f1 pA] bA] eqn:E1.
  destruct (forEach_rule_spec _ H1 _ _ _ _ _ E1) as (Hk1 & Hc1 & Hcur1 & _ & Hf1 & Hkept1).
  simpl in Hl1.
  assert (Hnot1 : "cta_optimization" ∉ f1).
  { intros Hn. destruct (Hf1 _ Hn) as (_ & _ & r & Hr & Hname & _).
    apply list_elem_of_singleton in Hr as ->. done. }
  (* the rule itself *)
  assert (Hshould : shouldApplyRule cta_optimization (getData (tracker pA)) (engine pA) bA
                    = true).
  { apply shouldApplyRule_true. unfold lastApplied. cbn [name condition cooldown cta_optimization].
    unfold getData. rewrite Hc1, Hcta, Hk1, (Hkept1 _ Hnot1), Hcur1.
    split; [done|]. split; [done|].
    rewrite elem_of_union, elem_of_list_to_set. tauto. }
  rewrite forEach_rule_cons, Hshould.
  pose proof (apply_rule_cta_labels pA bA) as Hl2.
  destruct (apply_rule_frame cta_optimization pA bA ltac:(right; left))
    as (_ & Hcur2 & _ & _ & _).
  destruct (apply_rule cta_optimization pA bA) as [pB bB]. simpl in Hl2, Hcur2.
  (* the rules after it *)
  assert (H3 : ∀ r, r ∈ [dark_theme_default; project_highlight; content_reveal] →
                 r ∈ evolutionRules ∧ name r ≠ "cta_optimization").
  { intros r Hr. repeat (apply elem_of_cons in Hr as [->|Hr]);
      [| | |by apply elem_of_nil in Hr].
    - split; [do 2 right; left|done].
    - split; [do 3 right; left|done].
    - split; [do 4 right; left|done]. }
  pose proof (forEach_rule_labels _ H3 pB bB) as Hl3.
  destruct (forEach_rule [dark_theme_default; project_highlight; content_reveal] pB bB)
    as [[f3 pC] bC] eqn:E3.
  destruct (forEach_rule_spec _ (λ r Hr, proj1 (H3 r Hr)) _ _ _ _ _ E3)
    as (_ & _ & Hcur3 & _).
  simpl in Hl3. simpl. split; [|split].
  - apply elem_of_app. right. left.
  - rewrite Hcur3, Hcur2, !elem_of_union, elem_of_singleton. tauto.
  - rewrite Hl3, Hl2. unfold labels in Hl1. by injection Hl1 as -> -> ->.
Qed.

(** C5: on a record whose [cta] and [contact] counters are 0, four calls
    of [trackClick('cta')] make the predicate of [cta_optimization] true
    (it was false), and the next evaluation of the rules, in a session
    where the rule has not run, runs [optimizeCTA], which puts the three
    new texts on the buttons that exist; no later evaluation runs it
    again. *)
Theorem four_cta_clicks_optimize_once
    (t : InteractionTracker) (b : Browser) (e : EvolutionEngine) (b' : Browser) :
  clicks (data t) !! "cta" = Some (Num 0) →
  clicks (data t) !! "contact" = Some (Num 0) →
  "cta_optimization" ∉ currentEvolutions e →
  45000 < now (clock b') - default 0 (lastAppliedTimes e !! "cta_optimization") →
  let t4 := (four_cta_clicks t b).1 in
  let result := checkEvolutionRules (mkPage t4 e) b' in
  condition cta_optimization (data t) = false
  ∧ clicks (data t4) !! "cta" = Some (Num 4)
  ∧ condition cta_optimization (data t4) = true
  ∧ "cta_optimization" ∈ result.1.1
  ∧ NoDup result.1.1
  ∧ labels result.2
    = (set_text contactHero_text (contactHero_label (dom b')),
       set_text exploreProjects_text (exploreProjects_label (dom b')),
       set_text submit_text (submit_label (dom b')))
  ∧ ∀ later, "cta_optimization" ∉ concat (session later result.1.2 result.2).
Proof.
  intros Hcta Hcontact Hfree Hcool t4 result.
  destruct (four_cta_clicks_counts t b 0 Hcta) as [H4 _]. fold t4 in H4.
  assert (Hgt : jgt (field (clicks (data t4)) "cta") (Num 3) = true).
  { unfold field. by rewrite H4. }
  destruct (checkEvolutionRules_cta_due (mkPage t4 e) b' Hgt Hfree Hcool)
    as (Hfired & Hactive & Hlabels).
  fold result in Hfired, Hactive, Hlabels.
  split; [|split; [exact H4|split; [|split; [exact Hfired|split; [|split; [exact Hlabels|]]]]]].
  - cbn [condition cta_optimization]. unfold field. by rewrite Hcta, Hcontact.
  - cbn [condition cta_optimization]. by rewrite Hgt.
  - destruct result as [[fired p5] b5] eqn:Hcheck.
    by destruct (checkEvolutionRules_spec _ _ _ _ _ Hcheck) as (_ & _ & _ & Hnodup & _).
  - intros evs Hagain.
    by apply (proj2 (session_spec evs result.1.2 result.2) _ Hagain).
Qed.

Lemma four_cta_clicks_optimize_once_witness :
  labels (checkEvolutionRules cta_page (later cta_browser)).2
  = (Some contactHero_text, Some exploreProjects_text, Some submit_text).
Proof.
  apply (four_cta_clicks_optimize_once fresh_tracker sample_browser
           (mkEngine [] ∅ ∅) (later cta_browser)).
  - reflexivity.
  - reflexivity.
  - apply not_elem_of_empty.
  - vm_compute. reflexivity.
Defined.

(** * More of the tracker *)

(** ** Dwell time *)

(** X1: flushing the dwell time in between does not change the
    accounting.  For a current section that has an entry of its own in
    [timeOnSections], or that [Object.prototype] does not define,
    [updateSectionTime] at one instant followed by [updateSectionTime] at
    another leaves the tracker exactly as a single [updateSectionTime] at
    the second instant does, with [sectionStartTime] at that instant.  (For
    a name that only [Object.prototype] defines the entry becomes a string
    that every flush appends digits to: there two flushes do not leave what
    one leaves, and [updateSectionTime] is [None] here.) *)
Theorem updateSectionTime_telescopes (t : InteractionTracker) (b1 b2 : Browser) :
  is_Some (timeOnSections (data t) !! currentSection t)
  ∨ currentSection t ∉ Object_prototype →
  ∃ t1 t2,
    updateSectionTime t b1 = Some t1
    ∧ updateSectionTime t1 b2 = Some t2
    ∧ updateSectionTime t b2 = Some t2
    ∧ sectionStartTime t2 = now (clock b2)
    ∧ currentSection t2 = currentSection t.
Proof.
  intros Hown. unfold updateSectionTime, add_assign, get.
  destruct (timeOnSections (data t) !! currentSection t) as [v|] eqn:E.
  - eexists _, _. split; [reflexivity|].
    cbn [mbind option_bind data timeOnSections set_timeOnSections currentSection
         sectionStartTime].
    rewrite lookup_insert_eq. cbn [mbind option_bind]. split; [reflexivity|].
    split; [|done]. do 2 f_equal.
    unfold set_timeOnSections. cbn. f_equal.
    rewrite insert_insert_eq. f_equal.
    destruct v; simpl; [|done]. f_equal. lia.
  - destruct Hown as [[v Hv]|Hout]; [discriminate Hv|].
    rewrite bool_decide_eq_false_2 by done.
    eexists _, _. split; [reflexivity|].
    cbn [mbind option_bind data timeOnSections set_timeOnSections currentSection
         sectionStartTime].
    rewrite lookup_insert_eq. cbn [mbind option_bind]. split; [reflexivity|].
    split; [|done]. do 2 f_equal.
    unfold set_timeOnSections. cbn. f_equal.
    by rewrite insert_insert_eq.
Qed.

Lemma updateSectionTime_telescopes_witness :
  ∃ t1 t2,
    updateSectionTime fresh_tracker
      (with_clock {| now := 1700000001000; today := "Tue Nov 14 2023";
                     iso := "2023-11-14T22:13:21.000Z" |} sample_browser) = Some t1
    ∧ updateSectionTime t1
        (with_clock {| now := 1700000003000; today := "Tue Nov 14 2023";
                       iso := "2023-11-14T22:13:23.000Z" |} sample_browser) = Some t2
    ∧ timeOnSections (data t1) !! "home" = Some (Num 1000)
    ∧ timeOnSections (data t2) !! "home" = Some (Num 3000)
    ∧ sectionStartTime t2 = 1700000003000.
Proof.
  destruct (updateSectionTime_telescopes fresh_tracker
              (with_clock {| now := 1700000001000; today := "Tue Nov 14 2023";
                             iso := "2023-11-14T22:13:21.000Z" |} sample_browser)
              (with_clock {| now := 1700000003000; today := "Tue Nov 14 2023";
                             iso := "2023-11-14T22:13:23.000Z" |} sample_browser))
    as (t1 & t2 & H1 & H2 & H12 & Hstart & _).
  - left. by eexists.
  - exists t1, t2. split; [exact H1|]. split; [exact H2|].
    vm_compute in H1. injection H1 as <-.
    vm_compute in H12. injection H12 as <-.
    split; [reflexivity|]. split; [reflexivity|]. reflexivity.
Defined.

Lemma total_insert (m : gmap string Z) k z z' :
  m !! k = Some z → total (<[k := z']> m) = total m - z + z'.
Proof.
  intros Hk. unfold total.
  rewrite <-(insert_delete_eq m k z').
  rewrite <-(insert_delete_id m k z Hk) at 2.
  rewrite !map_fold_insert_L; [lia| |apply lookup_delete_eq| |apply lookup_delete_eq];
    intros; lia.
Qed.

(** X2: for a section that has a numeric entry, [updateSectionTime] adds
    exactly the time elapsed since [sectionStartTime] to that entry and
    restarts the interval; the other entries, the counters and the log are
    untouched, and the total dwell time grows by the elapsed time. *)
Theorem updateSectionTime_adds_elapsed_time
    (t : InteractionTracker) (b : Browser) (m : gmap string Z) (z : Z) :
  timeOnSections (data t) = Num <$> m →
  m !! currentSection t = Some z →
  let elapsed := now (clock b) - sectionStartTime t in
  ∃ t', updateSectionTime t b = Some t'
    ∧ timeOnSections (data t') = Num <$> <[currentSection t := z + elapsed]> m
    ∧ sum_values (timeOnSections (data t')) = Num (total m + elapsed)
    ∧ sectionStartTime t' = now (clock b)
    ∧ currentSection t' = currentSection t
    ∧ clicks (data t') = clicks (data t)
    ∧ sectionViews (data t') = sectionViews (data t)
    ∧ interactions (data t') = interactions (data t)
    ∧ visitCount (data t') = visitCount (data t).
Proof.
  intros Hm Hz elapsed.
  unfold updateSectionTime, add_assign, get.
  rewrite Hm, lookup_fmap, Hz. simpl.
  eexists. split; [reflexivity|]. simpl.
  rewrite <-fmap_insert. split; [done|].
  rewrite sum_values_numbers, (total_insert _ _ _ _ Hz).
  repeat split. f_equal. lia.
Qed.

Lemma updateSectionTime_adds_elapsed_time_witness :
  ∃ t', updateSectionTime fresh_tracker (later sample_browser) = Some t'
        ∧ sum_values (timeOnSections (data t')) = Num 100000.
Proof.
  destruct (updateSectionTime_adds_elapsed_time fresh_tracker (later sample_browser)
              (<["home" := 0]> (<["about" := 0]> (<["projects" := 0]>
                 (<["contact" := 0]> ∅)))) 0)
    as (t' & Ht & _ & Hsum & _).
  - vm_compute. reflexivity.
  - reflexivity.
  - exists t'. split; [exact Ht|]. rewrite Hsum. vm_compute. reflexivity.
Defined.

(** ** NaN in a counter *)

Lemma is_nan_of_spec x : Prim2SF x = S754_nan → PrimFloat.is_nan x = true.
Proof. intros H. unfold PrimFloat.is_nan. by rewrite FloatAxioms.eqb_spec, H. Qed.

Lemma add_nan x y :
  Prim2SF x = S754_nan ∨ Prim2SF y = S754_nan → Prim2SF (x + y) = S754_nan.
Proof.
  rewrite FloatAxioms.add_spec. intros [H|H]; rewrite H; [done|].
  by destruct (Prim2SF x).
Qed.

Lemma score_NaN t :
  sum_values (clicks (data t)) = NaN ∨ sum_values (timeOnSections (data t)) = NaN →
  PrimFloat.is_nan (getEngagementScore t) = true.
Proof.
  intros H. apply is_nan_of_spec. unfold getEngagementScore. cbv zeta.
  apply add_nan. left. apply add_nan.
  destruct H as [H|H]; rewrite H; [left|right]; vm_compute; reflexivity.
Qed.

(** X3: one NaN poisons the score.  As soon as a click counter or a dwell
    time is NaN, [getEngagementScore] is NaN, whatever the other counters
    and the scroll depth are. *)
Theorem NaN_counter_poisons_score (t : InteractionTracker) (k : string) :
  clicks (data t) !! k = Some NaN ∨ timeOnSections (data t) !! k = Some NaN →
  PrimFloat.is_nan (getEngagementScore t) = true.
Proof.
  intros [H|H]; apply score_NaN; [left|right]; by apply (sum_values_NaN _ k).
Qed.

Lemma NaN_counter_poisons_score_witness :
  PrimFloat.is_nan (getEngagementScore skills_tracker) = true.
Proof.
  apply (NaN_counter_poisons_score skills_tracker "skills").
  right. vm_compute. reflexivity.
Defined.



(** ** Section views and visits *)

(** X5: [trackSectionView] adds one to the view counter of a section that
    has one, changes no other counter, no dwell time and no click counter,
    and puts one [section_view] entry after the log, which is then cut to
    its last 1000 entries; a section without a counter is only logged.
    For a section named like a method of [Object.prototype] the guard
    passes and NaN is stored under that name; for [__proto__] the guard
    passes too, but the assignment is ignored and no counter changes. *)
Theorem trackSectionView_counts_known_sections
    (section : string) (t : InteractionTracker) (b : Browser) :
  let t' := trackSectionView section t b in
  let log := interactions (data t) in
  let entry := JObj [("type", JStr "section_view"); ("timestamp", JInt (now (clock b)));
                     ("section", JStr section)] in
  (section ∉ Object_prototype →
     ∀ k, sectionViews (data t') !! k
          = (if bool_decide (k = section) then incr else id) <$> sectionViews (data t) !! k)
  ∧ (section ∈ Object_prototype → section ≠ "__proto__" →
     sectionViews (data t) !! section = None →
     sectionViews (data t') !! section = Some NaN
     ∧ ∀ k, k ≠ section → sectionViews (data t') !! k = sectionViews (data t) !! k)
  ∧ (section = "__proto__" → sectionViews (data t) !! section = None →
     sectionViews (data t') = sectionViews (data t))
  ∧ clicks (data t') = clicks (data t)
  ∧ timeOnSections (data t') = timeOnSections (data t)
  ∧ interactions (data t') = drop (length log + 1 - 1000) (log ++ [entry])
  ∧ ((length log < 1000)%nat → interactions (data t') = log ++ [entry]).
Proof.
  cbv zeta.
  assert (Hlog : interactions (data (trackSectionView section t b))
                 = push_capped 1000
                     (JObj [("type", JStr "section_view");
                            ("timestamp", JInt (now (clock b)));
                            ("section", JStr section)])
                     (interactions (data t))) by done.
  assert (Hviews : sectionViews (data (trackSectionView section t b))
                   = count (sectionViews (data t)) section) by done.
  rewrite Hviews.
  split; [|split; [|split; [|split; [done|split; [done|split]]]]].
  - intros Hs k. case_bool_decide as E.
    + subst k. destruct (sectionViews (data t) !! section) as [v|] eqn:Ho.
      * by rewrite (count_own _ _ _ Ho), lookup_insert_eq.
      * by rewrite (count_unknown _ _ Ho Hs), Ho.
    + rewrite count_other by done. by destruct (sectionViews (data t) !! k).
  - intros Hin Hne Ho. rewrite (count_inherited _ _ Ho Hin Hne).
    split; [apply lookup_insert_eq|].
    intros k Hk. by rewrite lookup_insert_ne.
  - intros -> Ho. unfold count, post_increment, get. rewrite Ho. reflexivity.
  - rewrite Hlog. pushed.
  - intros Hroom. rewrite Hlog. pushed.
Qed.

Lemma trackSectionView_counts_known_sections_witness :
  sectionViews (data (trackSectionView "about" fresh_tracker sample_browser)) !! "about"
  = Some (Num 1)
  ∧ sectionViews (data (trackSectionView "valueOf" fresh_tracker sample_browser)) !! "valueOf"
    = Some NaN
  ∧ sectionViews (data (trackSectionView "__proto__" fresh_tracker sample_browser))
    = zero_sections
  ∧ interactions (data (trackSectionView "about" fresh_tracker sample_browser))
    = [JObj [("type", JStr "section_view"); ("timestamp", JInt 1700000000000);
             ("section", JStr "about")]]
  ∧ (∀ k, k ≠ "valueOf" →
       sectionViews (data (trackSectionView "valueOf" fresh_tracker sample_browser)) !! k
       = zero_sections !! k).
Proof.
  split; [vm_compute; reflexivity|]. split; [vm_compute; reflexivity|].
  split; [reflexivity|]. split; [reflexivity|].
  destruct (trackSectionView_counts_known_sections "valueOf" fresh_tracker sample_browser)
    as (_ & Hmethod & _).
  apply Hmethod.
  - apply (bool_decide_unpack _). vm_compute. reflexivity.
  - discriminate.
  - reflexivity.
Defined.

(** X6: counting the visit is idempotent within a day.  A second
    [incrementVisitCount] right after the first changes nothing, whatever
    the state before the first. *)
Theorem incrementVisitCount_idempotent (t : InteractionTracker) (b : Browser) :
  incrementVisitCount (incrementVisitCount t b).1 (incrementVisitCount t b).2
  = incrementVisitCount t b.
Proof.
  unfold incrementVisitCount at 2 3 4. case_bool_decide as E; simpl.
  - unfold incrementVisitCount. by rewrite bool_decide_eq_true_2.
  - unfold incrementVisitCount. simpl.
    rewrite saveData_clock. by rewrite bool_decide_eq_true_2.
Qed.

(** ** Construction and reloads *)

(** X7: a stored value that is falsy is treated like no stored value.
    When the storage entry is the JSON text of [null], [false], [0] or the
    empty string, or is the empty string itself, the constructor starts
    from the zeroed defaults and counts the visit, without any warning. *)
Theorem falsy_stored_value_gives_defaults (b : Browser) (stored : text) :
  readable b = true →
  cells b !! interaction_key = Some stored →
  (stored = Garbled "" ∨ ∃ j, stored = Json j ∧ truthy j = false) →
  let first := incrementVisitCount (mkTracker defaults "home" (now (clock b))) b in
  loadData b = (match stored with Json j => j | Garbled _ => JNull end, b)
  ∧ new_InteractionTracker b = Built first.1 first.2.
Proof.
  intros Hr Hcell Hfalsy first.
  assert (Hload : loadData b = (match stored with Json j => j | Garbled _ => JNull end, b)).
  { unfold loadData, localStorage_getItem. rewrite Hr, Hcell. simpl.
    destruct Hfalsy as [->|(j & -> & _)]; done. }
  split; [done|]. unfold new_InteractionTracker. rewrite Hload.
  assert (Hinit : initial_data (match stored with Json j => j | Garbled _ => JNull end)
                  = Some defaults).
  { unfold initial_data. destruct Hfalsy as [->|(j & -> & Hj)]; [done|by rewrite Hj]. }
  rewrite Hinit. subst first. by destruct (incrementVisitCount _ _).
Qed.

Lemma falsy_stored_value_gives_defaults_witness :
  ∃ t b', new_InteractionTracker
            (set_cells (<[interaction_key := Json (JInt 0)]> ∅) sample_browser)
          = Built t b'
          ∧ visitCount (data t) = 1.
Proof.
  eexists _, _. split.
  - apply (falsy_stored_value_gives_defaults
             (set_cells (<[interaction_key := Json (JInt 0)]> ∅) sample_browser)
             (Json (JInt 0))).
    + reflexivity.
    + reflexivity.
    + right. exists (JInt 0). split; reflexivity.
  - reflexivity.
Defined.

Lemma load_step b d c :
  holds b d →
  ∃ t b', new_InteractionTracker (with_clock c b) = Built t b'
    ∧ holds b' (data t)
    ∧ visitCount (data t)
      = visitCount d + (if bool_decide (lastVisit d = Some (today c)) then 0 else 1)
    ∧ lastVisit (data t) = Some (today c).
Proof.
  intros (Hr & Hw & Hnum & Hlog & Hcell).
  assert (Hload : ∃ j, loadData (with_clock c b) = (j, with_clock c b)
                       ∧ initial_data j = Some d).
  { destruct Hcell as [Hcell|[Hcell ->]].
    - exists (toJSON d). split.
      + by apply loadData_stored.
      + unfold initial_data. simpl truthy. cbv iota. by apply as_data_toJSON.
    - exists JNull. split; [|done].
      unfold loadData, localStorage_getItem. simpl. by rewrite Hr, Hcell. }
  destruct Hload as (j & Hload & Hinit).
  unfold new_InteractionTracker. rewrite Hload, Hinit.
  unfold incrementVisitCount. cbn [data lastVisit clock with_clock].
  case_bool_decide as Hday.
  - eexists _, _. split; [reflexivity|]. cbn [data].
    split; [|split; [lia|done]].
    split; [done|]. split; [done|]. split; [done|]. split; [done|].
    destruct Hcell as [Hcell|[Hcell ->]]; [by left|].
    discriminate Hday.
  - eexists _, _. split; [reflexivity|].
    set (t1 := trackInteraction "visit" [] _ (with_clock c b)).
    assert (Hlog1 : Forall storable (interactions (data t1))).
    { subst t1. cbn [trackInteraction data set_data interactions set_interactions].
      rewrite push_capped_drop. apply Forall_drop, Forall_app.
      split; [done|]. by apply Forall_singleton. }
    split; [|split; [simpl; lia|done]].
    rewrite saveData_written by done.
    split; [done|]. split; [done|]. split.
    { destruct Hnum as (? & ? & ?). by repeat split. }
    split; [done|].
    left. cbn [cells set_cells]. rewrite lookup_insert_eq. by rewrite storable_toJSON.
Qed.

Lemma page_loads_count cs :
  ∀ b d last, holds b d →
  (∀ t, last = Some t → data t = d) →
  ∃ last' b' d', page_loads cs last b = Some (last', b')
    ∧ holds b' d'
    ∧ visitCount d' = visitCount d + new_days (lastVisit d) (today <$> cs)
    ∧ (∀ t, last' = Some t → data t = d')
    ∧ (cs ≠ [] → is_Some last').
Proof.
  induction cs as [|c rest IH]; intros b d last Hd Hlast; simpl.
  - exists last, b, d. split; [done|]. split; [done|]. split; [lia|]. done.
  - destruct (load_step b d c Hd) as (t & b1 & Hnew & Hholds & Hcount & Hday).
    rewrite Hnew.
    destruct (IH b1 (data t) (Some t) Hholds ltac:(by intros ? [= <-]))
      as (last' & b' & d' & Hloads & Hd' & Hcount' & Hlast' & Hsome).
    exists last', b', d'. split; [done|]. split; [done|]. split.
    + rewrite Hcount', Hcount, Hday. unfold fmap. lia.
    + split; [done|]. intros _. destruct rest as [|c' rest'].
      * simpl in Hloads. injection Hloads as <- <-. by eexists.
      * by apply Hsome.
Qed.

Lemma new_days_nonneg days : ∀ previous, 0 ≤ new_days previous days.
Proof.
  induction days as [|day rest IH]; intros previous; simpl; [lia|].
  specialize (IH (Some day)). case_bool_decide; lia.
Qed.

Lemma new_days_first days : days ≠ [] → 1 ≤ new_days None days.
Proof.
  destruct days as [|day rest]; [done|]. intros _. simpl.
  pose proof (new_days_nonneg rest (Some day)). lia.
Qed.

(** X8: the visit counter counts the days.  Starting from empty, working
    storage, after the page has been loaded at each of a list of clock
    readings (with nothing else happening in between), [visitCount] is the
    number of loads that fell on another day than the load before, and the
    stored record is the record of the last tracker. *)
Theorem visitCount_counts_days (cs : list Clock) (b : Browser) :
  readable b = true →
  writable b = true →
  cells b !! interaction_key = None →
  cs ≠ [] →
  ∃ t b', page_loads cs None b = Some (Some t, b')
    ∧ visitCount (data t) = new_days None (today <$> cs)
    ∧ cells b' !! interaction_key = Some (Json (toJSON (data t))).
Proof.
  intros Hr Hw Hcell Hcs.
  assert (Hstart : holds b defaults).
  { split; [done|]. split; [done|]. split; [apply defaults_numeric|].
    split; [constructor|]. by right. }
  destruct (page_loads_count cs b defaults None Hstart ltac:(done))
    as (last' & b' & d' & Hloads & Hd' & Hcount & Hlast & Hsome).
  destruct (Hsome Hcs) as [t ->]. rewrite <-(Hlast t eq_refl) in *.
  exists t, b'. split; [done|]. split; [simpl in Hcount; lia|].
  destruct Hd' as (_ & _ & _ & _ & [Hc|[Hc Hdef]]); [done|].
  (* a load always writes when nothing is stored *)
  exfalso. rewrite Hdef in Hcount.
  change (lastVisit defaults) with (@None string) in Hcount.
  assert (Hne : today <$> cs ≠ []) by (by destruct cs).
  pose proof (new_days_first _ Hne). lia.
Qed.

Lemma visitCount_counts_days_witness :
  ∃ t b', page_loads [sample_clock; sample_clock;
                      {| now := 1700090000000; today := "Wed Nov 15 2023";
                         iso := "2023-11-15T23:13:20.000Z" |}] None sample_browser
          = Some (Some t, b')
          ∧ visitCount (data t) = 2.
Proof.
  destruct (visitCount_counts_days
              [sample_clock; sample_clock;
               {| now := 1700090000000; today := "Wed Nov 15 2023";
                  iso := "2023-11-15T23:13:20.000Z" |}] sample_browser)
    as (t & b' & Hloads & Hcount & _); [reflexivity|reflexivity|reflexivity|discriminate|].
  exists t, b'. split; [exact Hloads|exact Hcount].
Defined.

(** What a fresh instance finds after a save, shared by the statements
    below. *)
Lemma save_then_load_holds t b b' :
  readable b = true →
  writable b = true →
  readable b' = true →
  cells b' !! interaction_key = cells (saveData t b) !! interaction_key →
  numeric (data t) →
  Forall storable (interactions (data t)) →
  as_data (loadData b').1 = Some (data t)
  ∧ (lastVisit (data t) = Some (today (clock b')) →
     new_InteractionTracker b' = Built (mkTracker (data t) "home" (now (clock b'))) b').
Proof.
  intros Hr Hw Hr' Hcells Hnum Hlog.
  destruct (save_then_load t b b' Hr Hw Hr' Hcells Hnum) as [Hload Hdata].
  rewrite (storable_log _ Hlog) in Hload, Hdata.
  assert (Hsame : set_interactions (interactions (data t)) (data t) = data t)
    by (by destruct (data t)).
  rewrite Hsame in Hload, Hdata.
  split; [done|]. intros Hday.
  unfold new_InteractionTracker. rewrite Hload in Hdata |- *. cbn [fst] in Hdata.
  unfold initial_data. simpl truthy. cbv iota. rewrite Hdata.
  unfold incrementVisitCount. simpl. by rewrite bool_decide_eq_true_2.
Qed.

(** ** Reset *)

(** X9: [resetData] starts the statistics over but not the clock of the
    current section.  After it the score is 0, the visit of the day counts
    as made (a following [incrementVisitCount] changes nothing), and with
    working storage a reload on the same day finds exactly the reset
    record.  [sectionStartTime] is kept, so the next [updateSectionTime]
    credits the current section with the time since before the reset. *)
Theorem resetData_restarts_statistics (t : InteractionTracker) (b : Browser) :
  let t' := (resetData t b).1 in
  let b' := (resetData t b).2 in
  getEngagementScore t' = 0%float
  ∧ visitCount (data t') = 1
  ∧ lastVisit (data t') = Some (today (clock b))
  ∧ incrementVisitCount t' b' = (t', b')
  ∧ (readable b = true → writable b = true →
     new_InteractionTracker b' = Built (mkTracker (data t') "home" (now (clock b))) b')
  ∧ (zero_sections !! currentSection t = Some (Num 0) →
     ∀ b2, ∃ t2, updateSectionTime t' b2 = Some t2
       ∧ timeOnSections (data t2) !! currentSection t
         = Some (Num (now (clock b2) - sectionStartTime t))).
Proof.
  simpl. split; [vm_compute; reflexivity|]. split; [done|]. split; [done|].
  split; [|split].
  - unfold incrementVisitCount. simpl. rewrite saveData_clock.
    by rewrite bool_decide_eq_true_2.
  - intros Hr Hw.
    match goal with
    | |- new_InteractionTracker (saveData ?t1 b) = _ =>
        destruct (save_then_load_holds t1 b (saveData t1 b) Hr Hw) as [_ H]
    end.
    + by rewrite saveData_written.
    + done.
    + unfold numeric, numbers. simpl.
      repeat split; apply (bool_decide_unpack _); vm_compute; reflexivity.
    + constructor.
    + simpl in H. rewrite saveData_clock in H. by apply H.
  - intros Hcur b2. unfold updateSectionTime, add_assign, get. simpl.
    rewrite Hcur. simpl. eexists. split; [reflexivity|]. simpl.
    rewrite lookup_insert_eq. do 2 f_equal.
Qed.

Lemma resetData_restarts_statistics_witness :
  new_InteractionTracker (resetData skills_tracker sample_browser).2
  = Built (mkTracker (data (resetData skills_tracker sample_browser).1) "home"
                     (now (clock sample_browser)))
          (resetData skills_tracker sample_browser).2.
Proof.
  apply (resetData_restarts_statistics skills_tracker sample_browser); reflexivity.
Defined.

(** ** Durability of a click *)

Lemma count_numbers (o : gmap string num) k :
  numbers o → k ∉ Object_prototype → numbers (count o k).
Proof.
  intros Ho Hk. destruct (o !! k) as [v|] eqn:E.
  - rewrite (count_own _ _ _ E). apply map_Forall_insert_2; [|done].
    specialize (Ho k v E). by destruct v.
  - by rewrite (count_unknown _ _ E Hk).
Qed.

(** X10: a click is durable at once.  With working storage and numeric
    counters, what storage holds right after [trackClick] (for names that
    [Object.prototype] does not define) reads back as the record in memory
    with its log as [JSON.stringify] writes it: the stored object carries
    the counters in memory and the written log, whose last entry is the
    entry of this click, with the metadata written value by value.  When
    neither the log before nor the metadata holds a number that JSON cannot
    write, what is read is exactly the record in memory. *)
Theorem trackClick_is_durable
    (type : string) (target : option string) (metadata : list (string * json))
    (t : InteractionTracker) (b : Browser) :
  writable b = true →
  readable b = true →
  numeric (data t) →
  type ∉ Object_prototype →
  (∀ tg, target = Some tg → tg ∉ Object_prototype) →
  let t' := (trackClick type target metadata t b).1 in
  let b' := (trackClick type target metadata t b).2 in
  let written := stringified <$> interactions (data t') in
  numeric (data t')
  ∧ (∃ fields,
       cells b' !! interaction_key = Some (Json (JObj fields))
       ∧ obj_get "clicks" fields = Some (dict_json (clicks (data t')))
       ∧ obj_get "interactions" fields = Some (JArr written))
  ∧ as_data (loadData b').1 = Some (set_interactions written (data t'))
  ∧ last written
    = Some (JObj (obj_spread
                    [("type", JStr "click"); ("timestamp", JInt (now (clock b)))]
                    (obj_spread [("type", JStr type); ("target", opt_string_json target)]
                                ((λ kv, (kv.1, stringified kv.2)) <$> metadata))))
  ∧ (Forall storable (interactions (data t)) →
     Forall (λ kv, storable kv.2) metadata →
     as_data (loadData b').1 = Some (data t')).
Proof.
  intros Hw Hr (Hc & Ht & Hv) Htype Htarget t' b' written.
  assert (Hnum : numeric (data t')).
  { subst t'. simpl. split; [|done].
    destruct target as [tg|]; [|by apply count_numbers].
    case_bool_decide; [by apply count_numbers|].
    apply count_numbers; [by apply count_numbers|by apply Htarget]. }
  assert (Hread : as_data (loadData b').1 = Some (set_interactions written (data t'))).
  { apply (save_then_load t' b b' Hr Hw); [|by subst b'|done].
    subst b'. cbn [trackClick snd]. by rewrite saveData_written. }
  assert (Hlog : interactions (data t')
                 = push_capped 1000
                     (log_entry "click"
                        (obj_spread [("type", JStr type); ("target", opt_string_json target)]
                                    metadata) b)
                     (interactions (data t))) by done.
  assert (Hentry : stringified
                     (log_entry "click"
                        (obj_spread [("type", JStr type); ("target", opt_string_json target)]
                                    metadata) b)
                   = JObj (obj_spread
                       [("type", JStr "click"); ("timestamp", JInt (now (clock b)))]
                       (obj_spread [("type", JStr type); ("target", opt_string_json target)]
                                   ((λ kv, (kv.1, stringified kv.2)) <$> metadata)))).
  { unfold log_entry. cbn [stringified]. rewrite !stringified_obj_spread.
    cbn [fmap list_fmap fst snd stringified]. by destruct target. }
  split; [done|]. split.
  { subst b'. cbn [trackClick snd]. rewrite saveData_written by done.
    eexists. split.
    - cbn [cells set_cells]. rewrite lookup_insert_eq, stringified_toJSON.
      unfold toJSON. reflexivity.
    - done. }
  split; [done|]. split.
  - subst written. rewrite Hlog, fmap_last.
    match goal with
    | |- _ <$> last (push_capped 1000 ?e ?l) = _ =>
        assert (Hnewest : last (push_capped 1000 e l) = Some e) by pushed
    end.
    rewrite Hnewest. cbn [fmap option_fmap option_map]. by rewrite Hentry.
  - intros Hold Hmeta. rewrite Hread. f_equal.
    assert (Hnew : Forall storable (interactions (data t'))).
    { rewrite Hlog, push_capped_drop. apply Forall_drop, Forall_app.
      split; [done|]. apply Forall_singleton. unfold storable.
      rewrite Hentry, (storable_fields _ Hmeta). done. }
    subst written. rewrite (storable_log _ Hnew). by destruct (data t').
Qed.

Lemma trackClick_is_durable_witness :
  as_data (loadData (trackClick "navigation" (Some "about") [] fresh_tracker sample_browser).2).1
  = Some (data (trackClick "navigation" (Some "about") [] fresh_tracker sample_browser).1)
  ∧ clicks (data (trackClick "navigation" (Some "about") [] fresh_tracker sample_browser).1)
    !! "about" = Some (Num 1)
  ∧ last (interactions (data (trackClick "cta" None [("score", JReal PrimFloat.nan)]
                                         fresh_tracker sample_browser).1))
    = Some (JObj [("type", JStr "cta"); ("timestamp", JInt 1700000000000);
                  ("target", JNull); ("score", JReal PrimFloat.nan)])
  ∧ interactions <$>
    as_data (loadData (trackClick "cta" None [("score", JReal PrimFloat.nan)]
                                  fresh_tracker sample_browser).2).1
    = Some [JObj [("type", JStr "cta"); ("timestamp", JInt 1700000000000);
                  ("target", JNull); ("score", JNull)]]
  ∧ numeric (data (trackClick "cta" None [("score", JReal PrimFloat.nan)]
                              fresh_tracker sample_browser).1).
Proof.
  split; [vm_compute; reflexivity|]. split; [vm_compute; reflexivity|].
  split; [reflexivity|]. split; [vm_compute; reflexivity|].
  apply (trackClick_is_durable "cta" None [("score", JReal PrimFloat.nan)]
           fresh_tracker sample_browser).
  - reflexivity.
  - reflexivity.
  - apply defaults_numeric.
  - apply (bool_decide_unpack _). vm_compute. reflexivity.
  - intros tg [=].
Defined.

(** ** The cap as an invariant *)

Lemma push_capped_le {A} cap (e : A) l : (0 < cap)%nat → (length (push_capped cap e l) ≤ cap)%nat.
Proof. intros H. rewrite push_capped_slice, slice_last_length. lia. Qed.

Lemma perform_log_length op t b t' b' :
  (length (interactions (data t)) ≤ 1000)%nat →
  perform op t b = Some (t', b') →
  (length (interactions (data t')) ≤ 1000)%nat.
Proof.
  intros Hlen H. destruct op; simpl in H.
  - injection H as <- <-. simpl. apply push_capped_le. lia.
  - injection H as <- <-. simpl. apply push_capped_le. lia.
  - injection H as <- <-. simpl. apply push_capped_le. lia.
  - injection H as <- <-. simpl. apply push_capped_le. lia.
  - unfold incrementVisitCount in H. case_bool_decide; injection H as <- <-; [done|].
    simpl. apply push_capped_le. lia.
  - unfold updateSectionTime in H.
    destruct (add_assign _ _ _); simpl in H; [|discriminate].
    by injection H as <- <-.
  - by injection H as <- <-.
  - by injection H as <- <-.
  - injection H as <- <-. simpl. lia.
  - injection H as <- <-. simpl. apply push_capped_le. lia.
  - unfold on_section_visible, updateSectionTime in H.
    destruct (add_assign _ _ _); simpl in H; [|discriminate].
    injection H as <- <-. simpl. apply push_capped_le. lia.
Qed.

(** X11: the cap is an invariant of the tracker.  Once the interactions
    log has at most 1000 entries it has at most 1000 entries after any run
    of tracker operations and listeners, [resetData] included, whatever
    happens to the browser in between. *)
Theorem log_stays_within_cap
    (ops : list (operation * (Browser → Browser)))
    (t t' : InteractionTracker) (b b' : Browser) :
  (length (interactions (data t)) ≤ 1000)%nat →
  perform_all ops t b = Some (t', b') →
  (length (interactions (data t')) ≤ 1000)%nat.
Proof.
  revert t b. induction ops as [|[op tick] rest IH]; intros t b Hlen H; simpl in H.
  - by injection H as <- <-.
  - destruct (perform op t b) as [[t1 b1]|] eqn:E; [|discriminate].
    apply (IH t1 (tick b1)); [|done].
    by apply (perform_log_length op t b t1 b1).
Qed.

Lemma log_stays_within_cap_witness :
  (length (interactions (data (four_cta_clicks fresh_tracker sample_browser).1)) ≤ 1000)%nat.
Proof.
  apply (log_stays_within_cap
           [(TrackClick "cta" None [], id); (TrackClick "cta" None [], id);
            (TrackClick "cta" None [], id); (TrackClick "cta" None [], id)]
           fresh_tracker _ sample_browser
           (four_cta_clicks fresh_tracker sample_browser).2).
  - simpl. lia.
  - reflexivity.
Defined.

(** ** Object literals and the shape of a log entry *)

Lemma obj_get_put k v o k' :
  obj_get k' (obj_put k v o) = if bool_decide (k = k') then Some v else obj_get k' o.
Proof.
  induction o as [|[k1 v1] rest IH]; simpl.
  - done.
  - destruct (decide (k1 = k)) as [->|Hne].
    + rewrite (bool_decide_eq_true_2 (k = k)) by done. simpl.
      by destruct (bool_decide (k = k')).
    + rewrite (bool_decide_eq_false_2 (k1 = k)) by done. simpl. rewrite IH.
      destruct (decide (k1 = k')) as [->|Hne'].
      * rewrite (bool_decide_eq_true_2 (k' = k')) by done.
        by rewrite bool_decide_eq_false_2 by congruence.
      * by rewrite (bool_decide_eq_false_2 (k1 = k')) by done.
Qed.

(** In [{...o, ...extra}] the last field of [extra] named [k] wins, and
    [o] is seen through where [extra] has none. *)
Lemma obj_get_spread k o extra :
  obj_get k (obj_spread o extra)
  = match obj_get k (reverse extra) with
    | Some v => Some v
    | None => obj_get k o
    end.
Proof.
  induction extra as [|[k1 v1] extra IH] using rev_ind; [done|].
  unfold obj_spread in *. rewrite foldl_snoc, reverse_snoc. simpl.
  rewrite obj_get_put, IH.
  by destruct (bool_decide (k1 = k)).
Qed.

Lemma obj_put_keys k v o x : x ∈ (obj_put k v o).*1 → x = k ∨ x ∈ o.*1.
Proof.
  induction o as [|[k1 v1] rest IH]; simpl.
  - intros H. apply list_elem_of_singleton in H. by left.
  - case_bool_decide as E; simpl; intros H; apply elem_of_cons in H as [->|H].
    + by left.
    + right. by right.
    + right. by left.
    + destruct (IH H) as [->|Hin]; [by left|right; by right].
Qed.

Lemma obj_put_NoDup k v o : NoDup o.*1 → NoDup (obj_put k v o).*1.
Proof.
  induction o as [|[k1 v1] rest IH]; simpl; intros Hnd.
  - apply NoDup_singleton.
  - apply NoDup_cons in Hnd as [Hk1 Hnd].
    case_bool_decide as E; simpl.
    + subst k1. by apply NoDup_cons.
    + apply NoDup_cons. split; [|by apply IH].
      intros Hin. destruct (obj_put_keys _ _ _ _ Hin) as [->|Hin']; done.
Qed.

Lemma obj_spread_NoDup o extra : NoDup o.*1 → NoDup (obj_spread o extra).*1.
Proof.
  revert o. induction extra as [|[k v] extra IH]; intros o Hnd; [done|].
  apply (IH (obj_put k v o)). by apply obj_put_NoDup.
Qed.

Lemma obj_get_elem k v o : NoDup o.*1 → obj_get k o = Some v ↔ (k, v) ∈ o.
Proof.
  induction o as [|[k1 v1] rest IH]; simpl; intros Hnd.
  - split; [done|]. intros H. by apply elem_of_nil in H.
  - apply NoDup_cons in Hnd as [Hk1 Hnd]. case_bool_decide as E.
    + subst k1. split.
      * intros [= ->]. by left.
      * intros H. apply elem_of_cons in H as [[= ->]|H]; [done|].
        exfalso. apply Hk1. apply list_elem_of_fmap. by exists (k, v).
    + rewrite (IH Hnd). split.
      * intros H. by right.
      * intros H. apply elem_of_cons in H as [[= <- <-]|H]; done.
Qed.

Lemma obj_get_reverse k o : NoDup o.*1 → obj_get k (reverse o) = obj_get k o.
Proof.
  intros Hnd.
  assert (Hnd' : NoDup (reverse o).*1)
    by (rewrite fmap_reverse; by rewrite reverse_Permutation).
  apply option_eq. intros v.
  rewrite (obj_get_elem _ _ _ Hnd), (obj_get_elem _ _ _ Hnd').
  by rewrite elem_of_reverse.
Qed.

(** X12: what a click entry looks like.  The entry [trackClick] appends
    is an object whose [type] is the click category (the literal ['click']
    the method passes on is overwritten by the spread), whose [timestamp]
    is the time of the call and whose [target] is the target or [null];
    the last field of [metadata] with one of these names replaces it. *)
Theorem trackClick_entry_fields
    (type : string) (target : option string) (metadata : list (string * json))
    (t : InteractionTracker) (b : Browser) :
  ∃ fields,
    last (interactions (data (trackClick type target metadata t b).1)) = Some (JObj fields)
    ∧ obj_get "type" fields
      = Some (default (JStr type) (obj_get "type" (reverse metadata)))
    ∧ obj_get "timestamp" fields
      = Some (default (JInt (now (clock b))) (obj_get "timestamp" (reverse metadata)))
    ∧ obj_get "target" fields
      = Some (default (opt_string_json target) (obj_get "target" (reverse metadata)))
    ∧ (metadata = [] →
       fields = [("type", JStr type); ("timestamp", JInt (now (clock b)));
                 ("target", opt_string_json target)]).
Proof.
  eexists. split.
  - simpl. rewrite push_capped_keeps_newest by lia. unfold log_entry. reflexivity.
  - assert (Hnd : NoDup (obj_spread [("type", JStr type); ("target", opt_string_json target)]
                                    metadata).*1).
    { apply obj_spread_NoDup. simpl. apply (bool_decide_unpack _). vm_compute. reflexivity. }
    rewrite !obj_get_spread, !(obj_get_reverse _ _ Hnd), !obj_get_spread. simpl.
    split; [by destruct (obj_get "type" (reverse metadata))|].
    split; [by destruct (obj_get "timestamp" (reverse metadata))|].
    split; [by destruct (obj_get "target" (reverse metadata))|].
    by intros ->.
Qed.

Lemma trackClick_entry_fields_witness :
  ∃ fields,
    last (interactions (data (trackClick "cta" None [] fresh_tracker sample_browser).1))
    = Some (JObj fields)
    ∧ fields = [("type", JStr "cta"); ("timestamp", JInt (now (clock sample_browser)));
                ("target", JNull)].
Proof.
  destruct (trackClick_entry_fields "cta" None [] fresh_tracker sample_browser)
    as (fields & Hlast & _ & _ & _ & Hfields).
  exists fields. split; [exact Hlast|exact (Hfields eq_refl)].
Defined.

(** ** The most popular section *)

Lemma foldl_more_popular rest :
  ∀ acc m zm,
  m.2 = Num zm →
  acc = m ∨ m ∈ rest →
  (∀ x, x ∈ acc :: rest → x ≠ m → ∃ z, x.2 = Num z ∧ z < zm) →
  foldl more_popular acc rest = m.
Proof.
  induction rest as [|x rest IH]; intros acc m zm Hm Hin Hmax; simpl.
  - destruct Hin as [->|Hin]; [done|by apply elem_of_nil in Hin].
  - apply (IH _ m zm Hm).
    + unfold more_popular. destruct Hin as [->|Hin].
      * destruct (decide (x = m)) as [->|Hne]; [left; by destruct (jgt _ _)|].
        destruct (Hmax x ltac:(right; by left) Hne) as (z & Hz & Hlt).
        rewrite Hm, Hz. simpl. rewrite bool_decide_eq_true_2 by done. by left.
      * apply elem_of_cons in Hin as [<-|Hin]; [|by right].
        destruct (decide (acc = m)) as [->|Hne]; [left; by destruct (jgt _ _)|].
        destruct (Hmax acc ltac:(by left) Hne) as (z & Hz & Hlt).
        rewrite Hm, Hz. simpl. rewrite bool_decide_eq_false_2 by lia. by left.
    + intros y Hy Hne. apply Hmax; [|done].
      apply elem_of_cons in Hy as [->|Hy].
      * unfold more_popular. destruct (jgt _ _); [by left|right; by left].
      * right. by right.
Qed.

(** X13: [getPopularSection].  On an object without entries the
    [reduce] has nothing to start from and throws.  When one section has a
    dwell time strictly above all the others, and these are numbers, it is
    the section returned, in whatever order the object lists its keys.
    An entry that is NaN and comes last is returned whatever the others
    are. *)
Theorem getPopularSection_returns_the_maximum :
  getPopularSection [] = None
  ∧ (∀ (o : gmap string num) entries k z,
       entries ≡ₚ map_to_list o →
       o !! k = Some (Num z) →
       (∀ k' v, o !! k' = Some v → k' ≠ k → ∃ z', v = Num z' ∧ z' < z) →
       getPopularSection entries = Some k)
  ∧ (∀ entries k, getPopularSection (entries ++ [(k, NaN)]) = Some k).
Proof.
  split; [done|]. split.
  - intros o entries k z Hperm Hk Hmax.
    assert (Hin : (k, Num z) ∈ entries)
      by (rewrite Hperm; by apply elem_of_map_to_list).
    assert (Hothers : ∀ x, x ∈ entries → x ≠ (k, Num z) → ∃ z', x.2 = Num z' ∧ z' < z).
    { intros [k' v] Hx Hne. rewrite Hperm in Hx. apply elem_of_map_to_list in Hx.
      apply (Hmax k' v Hx). intros ->. rewrite Hk in Hx. by injection Hx as <-. }
    destruct entries as [|first rest]; [by apply elem_of_nil in Hin|].
    unfold getPopularSection.
    rewrite (foldl_more_popular rest first (k, Num z) z); [done|done| |done].
    apply elem_of_cons in Hin as [->|Hin]; [by left|by right].
  - intros entries k. destruct entries as [|first rest]; [done|].
    unfold getPopularSection. simpl. rewrite foldl_snoc.
    unfold more_popular at 1. simpl. by destruct (foldl _ _ _).2.
Qed.

Lemma getPopularSection_returns_the_maximum_witness :
  getPopularSection (map_to_list (Num <$> five_seconds)) = Some "home".
Proof.
  apply (proj1 (proj2 getPopularSection_returns_the_maximum)
           (Num <$> five_seconds) _ "home" 2000).
  - reflexivity.
  - reflexivity.
  - intros k' v Hv Hne. apply elem_of_map_to_list in Hv.
    set (l := map_to_list (Num <$> five_seconds)) in Hv. vm_compute in l. subst l.
    repeat (apply elem_of_cons in Hv as [[= -> ->]|Hv]);
      try done; try (eexists; split; [reflexivity|lia]).
    by apply elem_of_nil in Hv.
Defined.

(** * More of the engine *)

(** ** Which rules an evaluation runs *)

Lemma condition_view rule d d' :
  rule ∈ evolutionRules → rule_view d = rule_view d' → condition rule d = condition rule d'.
Proof.
  intros Hin Hview. unfold rule_view in Hview. injection Hview as Hc Ht Hs Hp.
  unfold evolutionRules, setupEvolutionRules in Hin.
  repeat (apply elem_of_cons in Hin as [->|Hin]); [| | | | |by apply elem_of_nil in Hin];
    simpl; by rewrite ?Hc, ?Ht, ?Hs, ?Hp.
Qed.

Lemma log_and_notify_tracker desc message p b :
  tracker (let '(p2, b2) := logEvolution desc p b in
           (p2, showEvolutionNotice message b2)).1 = tracker p.
Proof.
  destruct (logEvolution_frame desc p b) as (Ht & _).
  by destruct (logEvolution desc p b) as [p2 b2].
Qed.

(** An action that runs because its predicate holds leaves what the
    predicates read as it is. *)
Lemma action_view rule p b :
  rule ∈ evolutionRules →
  condition rule (data (tracker p)) = true →
  rule_view (data (tracker (action rule p b).1)) = rule_view (data (tracker p)).
Proof.
  intros Hin Hcond. unfold evolutionRules, setupEvolutionRules in Hin.
  repeat (apply elem_of_cons in Hin as [->|Hin]); [| | | | |by apply elem_of_nil in Hin];
    unfold projects_priority, cta_optimization, dark_theme_default,
           project_highlight, content_reveal in *; cbn [action condition] in *.
  - unfold moveProjectsUp. cbv zeta. destruct (_ && _ && _); [|done].
    by rewrite log_and_notify_tracker.
  - unfold optimizeCTA. cbv zeta. by rewrite log_and_notify_tracker.
  - unfold setDarkThemeDefault. cbv zeta. destruct (body_dark (dom b)); [done|].
    apply andb_true_iff in Hcond as [_ Hdark]. apply bool_decide_eq_true in Hdark.
    unfold trackThemePreference. cbv zeta.
    rewrite log_and_notify_tracker. simpl. unfold rule_view. simpl. by rewrite Hdark.
  - unfold highlightPopularProject. cbv zeta. by rewrite log_and_notify_tracker.
  - unfold revealAdditionalContent. cbv zeta. by rewrite log_and_notify_tracker.
Qed.

Lemma apply_rule_view rule p b :
  rule ∈ evolutionRules →
  condition rule (data (tracker p)) = true →
  rule_view (data (tracker (apply_rule rule p b).1)) = rule_view (data (tracker p)).
Proof.
  intros Hin Hcond. pose proof (action_view rule p b Hin Hcond) as H.
  unfold apply_rule. by destruct (action rule p b) as [p1 b1].
Qed.

(** Running one rule does not change whether another rule is eligible. *)
Lemma apply_rule_keeps_eligibility rule other p b :
  rule ∈ evolutionRules → other ∈ evolutionRules →
  name other ≠ name rule →
  condition rule (data (tracker p)) = true →
  shouldApplyRule other (getData (tracker (apply_rule rule p b).1))
                  (engine (apply_rule rule p b).1) (apply_rule rule p b).2
  = shouldApplyRule other (getData (tracker p)) (engine p) b.
Proof.
  intros Hrule Hother Hne Hcond.
  pose proof (apply_rule_view rule p b Hrule Hcond) as Hview.
  destruct (apply_rule_frame rule p b Hrule) as (Hlast & Hcur & _ & Hclock & _).
  unfold shouldApplyRule, lastApplied, getData. cbv zeta.
  rewrite (condition_view other _ _ Hother Hview), Hclock, Hlast, Hcur.
  rewrite lookup_insert_ne by done. do 2 f_equal.
  apply bool_decide_ext. rewrite elem_of_union, elem_of_singleton. tauto.
Qed.

Lemma forEach_rule_fires_eligible rules :
  (∀ r, r ∈ rules → r ∈ evolutionRules) →
  NoDup (name <$> rules) →
  ∀ p b,
  (forEach_rule rules p b).1.1 = name <$> eligible_among rules p b
  ∧ rule_view (data (tracker (forEach_rule rules p b).1.2)) = rule_view (data (tracker p)).
Proof.
  induction rules as [|rule rest IH]; intros Hin Hnd p b; [done|].
  assert (Hrest : ∀ r, r ∈ rest → r ∈ evolutionRules) by (intros r Hr; apply Hin; by right).
  assert (Hrule : rule ∈ evolutionRules) by (apply Hin; by left).
  rewrite fmap_cons in Hnd. apply NoDup_cons in Hnd as [Hfresh Hnd].
  rewrite forEach_rule_cons. unfold eligible_among. simpl.
  destruct (shouldApplyRule rule (getData (tracker p)) (engine p) b) eqn:Hshould.
  - apply shouldApplyRule_true in Hshould as (Hcond & _ & _).
    pose proof (apply_rule_view rule p b Hrule Hcond) as Hview.
    assert (Hsame : List.filter
                      (λ r, shouldApplyRule r (getData (tracker (apply_rule rule p b).1))
                              (engine (apply_rule rule p b).1) (apply_rule rule p b).2) rest
                    = List.filter
                      (λ r, shouldApplyRule r (getData (tracker p)) (engine p) b) rest).
    { apply List.filter_ext_in. intros other Hother. apply list_elem_of_In in Hother.
      apply apply_rule_keeps_eligibility; [done|by apply Hrest| |done].
      intros Heq. apply Hfresh. rewrite <-Heq. by apply list_elem_of_fmap_2. }
    destruct (IH Hrest Hnd (apply_rule rule p b).1 (apply_rule rule p b).2) as [Hfired Hview'].
    unfold eligible_among in Hfired. rewrite Hsame in Hfired.
    destruct (apply_rule rule p b) as [p1 b1]. simpl in *.
    destruct (forEach_rule rest p1 b1) as [[fired p2] b2]. simpl in *.
    split; [by rewrite Hfired|congruence].
  - apply (IH Hrest Hnd p b).
Qed.

Lemma forEach_rule_none rules p b :
  (∀ r, r ∈ rules → shouldApplyRule r (getData (tracker p)) (engine p) b = false) →
  forEach_rule rules p b = ([], p, b).
Proof.
  induction rules as [|rule rest IH]; intros H; [done|].
  rewrite forEach_rule_cons, (H rule) by (by left).
  apply IH. intros r Hr. apply H. by right.
Qed.

(** After an evaluation no rule is eligible. *)
Lemma nothing_is_eligible_after p b rule :
  rule ∈ evolutionRules →
  shouldApplyRule rule (getData (tracker (checkEvolutionRules p b).1.2))
                  (engine (checkEvolutionRules p b).1.2) (checkEvolutionRules p b).2
  = false.
Proof.
  intros Hrule.
  destruct (forEach_rule_fires_eligible evolutionRules ltac:(done) rule_names_NoDup p b)
    as [Hfired Hview].
  fold (checkEvolutionRules p b) in Hfired, Hview.
  destruct (checkEvolutionRules p b) as [[fired p'] b'] eqn:Hcheck.
  cbn [fst snd] in Hfired, Hview |- *.
  destruct (checkEvolutionRules_spec _ _ _ _ _ Hcheck)
    as (Hclock & _ & Hcur & _ & _ & Hkept).
  destruct (decide (name rule ∈ fired)) as [Hin|Hout].
  - unfold shouldApplyRule. cbv zeta.
    rewrite (bool_decide_eq_true_2 (name rule ∈ currentEvolutions (engine p'))).
    + by rewrite andb_false_r.
    + rewrite Hcur, elem_of_union, elem_of_list_to_set. by left.
  - assert (Hstart : shouldApplyRule rule (getData (tracker p)) (engine p) b = false).
    { destruct (shouldApplyRule rule (getData (tracker p)) (engine p) b) eqn:E; [|done].
      exfalso. apply Hout. rewrite Hfired. apply list_elem_of_fmap_2.
      apply list_elem_of_In. apply List.filter_In. split; [|done].
      by apply list_elem_of_In. }
    rewrite <-Hstart. unfold shouldApplyRule, lastApplied, getData. cbv zeta.
    rewrite (condition_view rule _ _ Hrule Hview), Hclock, (Hkept _ Hout), Hcur.
    do 2 f_equal. apply bool_decide_ext.
    rewrite elem_of_union, elem_of_list_to_set. tauto.
Qed.

(** X14: an evaluation runs exactly the rules that are eligible when it
    starts, each once, in the order of the table: the action of one rule
    never makes another rule eligible or ineligible within the same
    evaluation. *)
Theorem checkEvolutionRules_runs_the_eligible_rules (p : Page) (b : Browser) :
  (checkEvolutionRules p b).1.1 = name <$> eligible p b.
Proof.
  apply (forEach_rule_fires_eligible evolutionRules); [done|apply rule_names_NoDup].
Qed.

(** X15: evaluating twice is evaluating once.  A second
    [checkEvolutionRules] right after the first, with the tracker and the
    clock as the first left them, runs no action and changes neither the
    page nor the browser. *)
Theorem checkEvolutionRules_idempotent (p : Page) (b : Browser) :
  checkEvolutionRules (checkEvolutionRules p b).1.2 (checkEvolutionRules p b).2
  = ([], (checkEvolutionRules p b).1.2, (checkEvolutionRules p b).2).
Proof.
  apply forEach_rule_none. intros r Hr. by apply nothing_is_eligible_after.
Qed.

(** ** Rules that are spent without effect *)

Lemma forEach_rule_single rules rule :
  (∀ r, r ∈ rules → r ∈ evolutionRules) →
  NoDup (name <$> rules) →
  ∀ p b,
  eligible_among rules p b = [rule] →
  forEach_rule rules p b = ([name rule], (apply_rule rule p b).1, (apply_rule rule p b).2).
Proof.
  induction rules as [|head rest IH]; intros Hin Hnd p b Hel; [done|].
  assert (Hrest : ∀ r, r ∈ rest → r ∈ evolutionRules) by (intros r Hr; apply Hin; by right).
  assert (Hhead : head ∈ evolutionRules) by (apply Hin; by left).
  rewrite fmap_cons in Hnd. apply NoDup_cons in Hnd as [Hfresh Hnd].
  rewrite forEach_rule_cons. unfold eligible_among in Hel. simpl in Hel.
  destruct (shouldApplyRule head (getData (tracker p)) (engine p) b) eqn:Hshould.
  - injection Hel as -> Hnone.
    apply shouldApplyRule_true in Hshould as (Hcond & _ & _).
    assert (Hlater : ∀ r, r ∈ rest →
              shouldApplyRule r (getData (tracker (apply_rule rule p b).1))
                              (engine (apply_rule rule p b).1) (apply_rule rule p b).2
              = false).
    { intros r Hr. rewrite apply_rule_keeps_eligibility; [|done|by apply Hrest| |done].
      - destruct (shouldApplyRule r (getData (tracker p)) (engine p) b) eqn:E; [|done].
        assert (Hf : In r (List.filter
                     (λ r, shouldApplyRule r (getData (tracker p)) (engine p) b) rest)).
        { apply List.filter_In. split; [by apply list_elem_of_In|done]. }
        rewrite Hnone in Hf. destruct Hf.
      - intros Heq. apply Hfresh. rewrite <-Heq. by apply list_elem_of_fmap_2. }
    destruct (apply_rule rule p b) as [p1 b1]. cbn [fst snd] in Hlater |- *.
    by rewrite (forEach_rule_none rest _ _ Hlater).
  - by apply IH.
Qed.

(** X16: a rule can be spent without doing anything.  When
    [projects_priority] is the one eligible rule but [#about] or
    [#projects] is missing or the projects section already sits right
    before the about section, or when [dark_theme_default] is the one
    eligible rule but the body already has the dark class, the evaluation
    reports the rule as run and records it as applied, while the document,
    storage, the tracker and the history stay as they were; the rule never
    runs again in the session, even once its action could have an effect. *)
Theorem guarded_action_spends_the_rule (p : Page) (b : Browser) (rule : EvolutionRule) :
  eligible p b = [rule] →
  (rule = projects_priority
   ∧ about_present (dom b) && projects_present (dom b)
     && negb (about_follows_projects (dom b)) = false)
  ∨ (rule = dark_theme_default ∧ body_dark (dom b) = true) →
  checkEvolutionRules p b = ([name rule], mark_applied rule p b, b)
  ∧ ∀ later, name rule ∉ concat (session later (mark_applied rule p b) b).
Proof.
  intros Hel Hguard.
  assert (Hcheck : checkEvolutionRules p b = ([name rule], mark_applied rule p b, b)).
  { unfold checkEvolutionRules.
    rewrite (forEach_rule_single evolutionRules rule ltac:(done) rule_names_NoDup p b Hel).
    unfold apply_rule, mark_applied.
    destruct Hguard as [[-> Hg]|[-> Hg]]; cbn [action projects_priority dark_theme_default].
    - unfold moveProjectsUp. cbv zeta. by rewrite Hg.
    - unfold setDarkThemeDefault. cbv zeta. by rewrite Hg. }
  split; [done|]. intros evs Hagain.
  apply (proj2 (session_spec evs (mark_applied rule p b) b) _ Hagain).
  simpl. rewrite elem_of_union, elem_of_singleton. by left.
Qed.

Lemma guarded_action_spends_the_rule_witness :
  checkEvolutionRules (mkPage projects_fan (mkEngine [] ∅ ∅)) sample_browser
  = (["projects_priority"],
     mark_applied projects_priority (mkPage projects_fan (mkEngine [] ∅ ∅)) sample_browser,
     sample_browser).
Proof.
  apply (guarded_action_spends_the_rule
           (mkPage projects_fan (mkEngine [] ∅ ∅)) sample_browser projects_priority).
  - reflexivity.
  - left. split; reflexivity.
Defined.

(** ** The engine across page loads *)

Lemma loadEvolutionHistory_stored b :
  readable b = true →
  (cells b !! history_key = None → loadEvolutionHistory b = (JArr [], b))
  ∧ (∀ j, cells b !! history_key = Some (Json j) → loadEvolutionHistory b = (j, b)).
Proof.
  intros Hr. unfold loadEvolutionHistory, localStorage_getItem. rewrite Hr.
  split; [intros ->|intros j ->]; done.
Qed.

(** X17: the engine remembers nothing across page loads.  Whatever was
    applied before, a new engine starts with empty [lastAppliedTimes] and
    [currentEvolutions] and evaluates the rules at once: with a stored
    [cta] counter above 3, every load runs [optimizeCTA] again inside the
    constructor and rewrites the three labels (the stored history being an
    array, or absent). *)
Theorem new_EvolutionEngine_applies_again (t : InteractionTracker) (b : Browser) :
  readable b = true →
  (cells b !! history_key = None
   ∨ ∃ items, cells b !! history_key = Some (Json (JArr items))) →
  jgt (field (clicks (data t)) "cta") (Num 3) = true →
  45000 < now (clock b) →
  ∃ fired p b',
    new_EvolutionEngine t b = EngineBuilt fired p b'
    ∧ "cta_optimization" ∈ fired
    ∧ "cta_optimization" ∈ currentEvolutions (engine p)
    ∧ labels b'
      = (set_text contactHero_text (contactHero_label (dom b)),
         set_text exploreProjects_text (exploreProjects_label (dom b)),
         set_text submit_text (submit_label (dom b))).
Proof.
  intros Hr Hstored Hcta Hnow.
  assert (Hload : ∃ items, loadEvolutionHistory b = (JArr items, b)).
  { destruct (loadEvolutionHistory_stored b Hr) as [Habsent Hjson].
    destruct Hstored as [Hc|[items Hc]]; [exists []; by apply Habsent|].
    exists items. by apply Hjson. }
  destruct Hload as [items Hload].
  unfold new_EvolutionEngine. rewrite Hload.
  destruct (checkEvolutionRules_cta_due (mkPage t (mkEngine (Stored <$> items) ∅ ∅)) b)
    as (Hfired & Hactive & Hlabels);
    [done|apply not_elem_of_empty|cbn [engine lastAppliedTimes]; rewrite lookup_empty; simpl; lia|].
  destruct (checkEvolutionRules _ b) as [[fired p] b'].
  by exists fired, p, b'.
Qed.

Lemma new_EvolutionEngine_applies_again_witness :
  ∃ fired p b',
    new_EvolutionEngine (tracker cta_page) cta_browser = EngineBuilt fired p b'
    ∧ "cta_optimization" ∈ fired.
Proof.
  destruct (new_EvolutionEngine_applies_again (tracker cta_page) cta_browser)
    as (fired & p & b' & Hnew & Hfired & _).
  - reflexivity.
  - left. reflexivity.
  - reflexivity.
  - vm_compute. reflexivity.
  - exists fired, p, b'. split; [exact Hnew|exact Hfired].
Defined.

(** X18: the history in storage.  [logEvolution] puts the new entry last
    in the history; what is written for it carries the description, the
    time, the snapshot of the data and the score, NaN written as [null].
    With storage that accepts the write, the stored array is the written
    history, no warning is raised and [loadEvolutionHistory] returns that
    array.  A write that storage refuses leaves storage as it was and one
    warning that carries the error: a QuotaExceededError when storage is
    full, a SecurityError when it is denied.  An absent entry, text that
    does not parse (one warning, unless it is the empty string) and storage
    that cannot be read (one warning) all load as the empty array. *)
Theorem evolution_history_in_storage (desc : string) (p : Page) (b : Browser) :
  let p' := (logEvolution desc p b).1 in
  let b' := (logEvolution desc p b).2 in
  let written := stringified <$> (item_json <$> evolutionHistory (engine p')) in
  last (evolutionHistory (engine p')) = Some (Logged (evolutionEvent desc p b))
  ∧ last written
    = Some (JObj [ ("timestamp", JStr (iso (clock b)));
                   ("description", JStr desc);
                   ("data", stringified (toJSON (data (tracker p))));
                   ("engagementScore", float_json (getEngagementScore (tracker p))) ])
  ∧ (readable b = true → writable b = true →
     cells b' !! history_key = Some (Json (JArr written))
     ∧ console b' = console b
     ∧ loadEvolutionHistory b' = (JArr written, b'))
  ∧ (readable b = true → writable b = false →
     console b' = console b ++ [("Could not save evolution history:", QuotaExceededError)]
     ∧ cells b' = cells b)
  ∧ (readable b = false →
     console b' = console b ++ [("Could not save evolution history:", SecurityError)]
     ∧ cells b' = cells b)
  ∧ (readable b = true → cells b !! history_key = None →
     loadEvolutionHistory b = (JArr [], b))
  ∧ (readable b = true → ∀ s, cells b !! history_key = Some (Garbled s) →
     (loadEvolutionHistory b).1 = JArr []
     ∧ console (loadEvolutionHistory b).2
       = console b ++ (if bool_decide (s = "") then []
                       else [("Could not load evolution history:", SyntaxError)]))
  ∧ (readable b = false →
     (loadEvolutionHistory b).1 = JArr []
     ∧ console (loadEvolutionHistory b).2
       = console b ++ [("Could not load evolution history:", SecurityError)]).
Proof.
  cbv zeta. unfold logEvolution. cbn [fst snd engine evolutionHistory].
  assert (Hlast : last (push_capped 100 (Logged (evolutionEvent desc p b))
                                    (evolutionHistory (engine p)))
                  = Some (Logged (evolutionEvent desc p b))) by pushed.
  split; [done|]. split.
  { rewrite !fmap_last, Hlast. cbn [fmap option_fmap option_map].
    unfold item_json, evolutionEvent, getData.
    cbn [timestamp description snapshot engagementScore stringified
         fmap list_fmap fst snd].
    by rewrite stringified_idem. }
  unfold saveEvolutionHistory, localStorage_setItem, JSON_stringify.
  split; [|split; [|split; [|split; [|split]]]].
  - intros Hr Hw. rewrite Hr, Hw. cbn [cells set_cells console stringified].
    split; [apply lookup_insert_eq|]. split; [done|].
    unfold loadEvolutionHistory, localStorage_getItem.
    cbn [readable cells set_cells]. rewrite Hr, lookup_insert_eq. done.
  - intros Hr Hw. by rewrite Hr, Hw.
  - intros Hr. by rewrite Hr.
  - intros Hr Hc. by apply (proj1 (loadEvolutionHistory_stored b Hr)).
  - intros Hr s Hc. unfold loadEvolutionHistory, localStorage_getItem. rewrite Hr, Hc.
    simpl. destruct (bool_decide (s = "")); simpl; [|done]. by rewrite app_nil_r.
  - intros Hr. unfold loadEvolutionHistory, localStorage_getItem. by rewrite Hr.
Qed.

Lemma evolution_history_in_storage_witness :
  (∃ entry,
     cells (logEvolution "first" cta_page cta_browser).2 !! history_key
     = Some (Json (JArr [JObj entry]))
     ∧ obj_get "description" entry = Some (JStr "first")
     ∧ obj_get "timestamp" entry = Some (JStr "2023-11-14T22:13:20.000Z")
     ∧ obj_get "engagementScore" entry = Some (JReal 1.2)
     ∧ loadEvolutionHistory (logEvolution "first" cta_page cta_browser).2
       = (JArr [JObj entry], (logEvolution "first" cta_page cta_browser).2))
  ∧ (∃ entry,
       cells (logEvolution "first" (mkPage skills_tracker (mkEngine [] ∅ ∅))
                           sample_browser).2 !! history_key
       = Some (Json (JArr [JObj entry]))
       ∧ obj_get "engagementScore" entry = Some JNull)
  ∧ console (logEvolution "first" cta_page denied_browser).2
    = [("Could not save evolution history:", SecurityError)]
  ∧ console (logEvolution "first" cta_page full_browser).2
    = [("Could not save evolution history:", QuotaExceededError)]
  ∧ cells (logEvolution "first" cta_page full_browser).2 = ∅.
Proof.
  split.
  { eexists. split; [vm_compute; reflexivity|]. split; [reflexivity|].
    split; [reflexivity|]. split; [reflexivity|]. vm_compute. reflexivity. }
  split.
  { eexists. split; [vm_compute; reflexivity|]. reflexivity. }
  split; [reflexivity|]. split; [reflexivity|].
  destruct (evolution_history_in_storage "first" cta_page full_browser)
    as (_ & _ & _ & Hfull & _).
  exact (proj2 (Hfull eq_refl eq_refl)).
Defined.

(** ** Highlighting the project cards *)

Lemma glow_timers_foldl l :
  ∀ d,
  let d' := foldl (λ acc index, setTimeout (GlowCard index) (Z.of_nat index * 200) acc) d l in
  timers d' = timers d ++ ((λ index, (Z.of_nat index * 200, GlowCard index)) <$> l)
  ∧ notice_present d' = notice_present d
  ∧ head_styles d' = head_styles d
  ∧ project_cards d' = project_cards d.
Proof.
  induction l as [|i l IH]; intros d; simpl.
  - by rewrite app_nil_r.
  - destruct (IH (setTimeout (GlowCard i) (Z.of_nat i * 200) d)) as (Ht & Hn & Hh & Hc).
    rewrite Ht, Hn, Hh, Hc. simpl. by rewrite <-app_assoc.
Qed.

(** X19: the cards light up one after the other.  For a page with [n]
    project cards [highlightPopularProject] adds, after the timers already
    pending, one timer per card, the card of index [i] at [i * 200] ms, in
    the order of the cards, then the timer that hides the notice when the
    page has one; it appends the keyframes rule once. *)
Theorem highlightPopularProject_staggers_the_cards (p : Page) (b : Browser) :
  let b' := (highlightPopularProject p b).2 in
  timers (dom b')
  = timers (dom b) ++ glow_timers (project_cards (dom b))
    ++ (if notice_present (dom b) then [(5000, HideNotice)] else [])
  ∧ head_styles (dom b') = head_styles (dom b) ++ ["@keyframes project-glow"]
  ∧ length (glow_timers (project_cards (dom b))) = project_cards (dom b)
  ∧ ∀ i, (i < project_cards (dom b))%nat →
         glow_timers (project_cards (dom b)) !! i = Some (Z.of_nat i * 200, GlowCard i).
Proof.
  cbv zeta.
  destruct (glow_timers_foldl (seq 0 (project_cards (dom b))) (dom b)) as (Ht & Hn & Hh & _).
  cbv zeta in Ht, Hn, Hh.
  unfold highlightPopularProject. cbv zeta.
  set (d1 := foldl _ (dom b) _) in *.
  match goal with
  | |- context [logEvolution ?desc ?p ?b1] =>
      destruct (logEvolution_frame desc p b1) as (_ & _ & Hd & _);
      destruct (logEvolution desc p b1) as [p2 b2]
  end.
  cbn [fst snd dom set_dom] in Hd |- *.
  unfold showEvolutionNotice. rewrite Hd. cbn [notice_present]. rewrite Hn.
  clearbody d1.
  split; [|split; [|split]].
  - destruct (notice_present (dom b)); cbn [dom set_dom setTimeout timers];
      rewrite ?Hd; cbn [timers]; rewrite Ht; unfold glow_timers;
      by rewrite <-?app_assoc, ?app_nil_r.
  - destruct (notice_present (dom b)); cbn [dom set_dom setTimeout head_styles];
      rewrite ?Hd; cbn [head_styles]; by rewrite Hh.
  - unfold glow_timers. by rewrite length_fmap, length_seq.
  - intros i Hi. unfold glow_timers. rewrite list_lookup_fmap, lookup_seq_lt by done. done.
Qed.

Lemma highlightPopularProject_staggers_the_cards_witness :
  glow_timers (project_cards (dom sample_browser)) !! 2%nat = Some (400, GlowCard 2).
Proof.
  apply (highlightPopularProject_staggers_the_cards cta_page sample_browser). simpl. lia.
Defined.

(** * The application *)

(** ** What an evaluation does to the tracker and to the theme *)

Lemma log_and_notify_body desc message p b :
  body_dark (dom (let '(p2, b2) := logEvolution desc p b in
                  (p2, showEvolutionNotice message b2)).2) = body_dark (dom b).
Proof.
  destruct (logEvolution_frame desc p b) as (_ & _ & Hd & _).
  destruct (logEvolution desc p b) as [p2 b2]. simpl in *.
  unfold showEvolutionNotice. rewrite Hd.
  destruct (notice_present (dom b)); simpl; by rewrite ?Hd.
Qed.

(** An action either leaves the tracker and the dark class alone, or it is
    [setDarkThemeDefault] on a light page: the class is set and the
    tracker records the dark preference. *)
Lemma action_theme_cases rule p b :
  rule ∈ evolutionRules →
  (tracker (action rule p b).1 = tracker p
   ∧ body_dark (dom (action rule p b).2) = body_dark (dom b))
  ∨ (body_dark (dom (action rule p b).2) = true
     ∧ ∃ b1, tracker (action rule p b).1 = (trackThemePreference "dark" (tracker p) b1).1).
Proof.
  intros Hin. unfold evolutionRules, setupEvolutionRules in Hin.
  repeat (apply elem_of_cons in Hin as [->|Hin]); [| | | | |by apply elem_of_nil in Hin];
    unfold projects_priority, cta_optimization, dark_theme_default,
           project_highlight, content_reveal; cbn [action].
  - left. unfold moveProjectsUp. cbv zeta. destruct (_ && _ && _); [|done].
    by rewrite log_and_notify_tracker, log_and_notify_body.
  - left. unfold optimizeCTA. cbv zeta.
    by rewrite log_and_notify_tracker, log_and_notify_body.
  - unfold setDarkThemeDefault. cbv zeta.
    destruct (body_dark (dom b)) eqn:Hdark; [left; split; [done|exact Hdark]|]. right.
    match goal with
    | |- context [trackThemePreference "dark" (tracker p) ?b1] =>
        pose proof (trackThemePreference_frame "dark" (tracker p) b1) as (_ & Hd & _);
        destruct (trackThemePreference "dark" (tracker p) b1) as [t2 b2] eqn:E;
        cbn [fst snd] in Hd |- *;
        rewrite log_and_notify_tracker, log_and_notify_body, Hd;
        split; [done|exists b1; by rewrite E]
    end.
  - left. unfold highlightPopularProject. cbv zeta.
    rewrite log_and_notify_tracker, log_and_notify_body. simpl. split; [done|].
    generalize (seq 0 (project_cards (dom b))) as l. generalize (dom b) as d.
    intros d l. revert d.
    induction l as [|i l IH]; intros d; [done|]. simpl. by rewrite IH.
  - left. unfold revealAdditionalContent. cbv zeta.
    rewrite log_and_notify_tracker, log_and_notify_body.
    by destruct (projects_present (dom b)).
Qed.

Lemma forEach_rule_keeps (J : InteractionTracker → bool → Prop) rules :
  kept_by_actions J →
  (∀ r, r ∈ rules → r ∈ evolutionRules) →
  ∀ p b,
  J (tracker p) (body_dark (dom b)) →
  J (tracker (forEach_rule rules p b).1.2) (body_dark (dom (forEach_rule rules p b).2)).
Proof.
  intros HJ. induction rules as [|rule rest IH]; intros Hin p b H; [done|].
  assert (Hrest : ∀ r, r ∈ rest → r ∈ evolutionRules) by (intros r Hr; apply Hin; by right).
  rewrite forEach_rule_cons. destruct (shouldApplyRule _ _ _ _); [|by apply IH].
  assert (Hstep : J (tracker (apply_rule rule p b).1)
                    (body_dark (dom (apply_rule rule p b).2))).
  { unfold apply_rule.
    destruct (action_theme_cases rule p b ltac:(apply Hin; by left))
      as [[Ht Hb]|[Hb [b1 Ht]]];
      destruct (action rule p b) as [p1 b1']; simpl in *.
    - by rewrite Ht, Hb.
    - rewrite Ht, Hb. by apply (HJ _ (body_dark (dom b))). }
  specialize (IH Hrest _ _ Hstep).
  destruct (apply_rule rule p b) as [p1 b1]. cbn [fst snd] in IH.
  by destruct (forEach_rule rest p1 b1) as [[fired p2] b2].
Qed.

Lemma checkEvolutionRules_keeps (J : InteractionTracker → bool → Prop) p b :
  kept_by_actions J →
  J (tracker p) (body_dark (dom b)) →
  J (tracker (checkEvolutionRules p b).1.2) (body_dark (dom (checkEvolutionRules p b).2)).
Proof. intros HJ. by apply forEach_rule_keeps. Qed.

(** ** The theme toggle *)

Lemma toggleTheme_spec p b :
  let isDark := negb (body_dark (dom b)) in
  body_dark (dom (toggleTheme p b).2) = isDark
  ∧ themePreference (data (tracker (toggleTheme p b).1)) = (if isDark then "dark" else "light")
  ∧ clicks (data (tracker (toggleTheme p b).1)) = count (clicks (data (tracker p))) "themeToggle"
  ∧ sectionViews (data (tracker (toggleTheme p b).1)) = sectionViews (data (tracker p))
  ∧ timeOnSections (data (tracker (toggleTheme p b).1)) = timeOnSections (data (tracker p))
  ∧ engine (toggleTheme p b).1 = engine p
  ∧ clock (toggleTheme p b).2 = clock b
  ∧ ∃ e1 e2, interactions (data (tracker (toggleTheme p b).1))
             = push_capped 1000 e2 (push_capped 1000 e1 (interactions (data (tracker p)))).
Proof.
  unfold toggleTheme, trackClick, trackThemePreference. cbv zeta. simpl.
  rewrite !saveData_dom, !saveData_clock. simpl.
  repeat split; try done. by eexists _, _.
Qed.

(** X20: the theme toggle keeps the page and the preference together.
    [toggleTheme] flips the dark class of the body, stores the preference
    that matches the new class, adds one to the [themeToggle] counter,
    appends two entries to the log and leaves the engine alone; toggling
    twice brings the class back, with two more clicks counted. *)
Theorem toggleTheme_keeps_class_and_preference_together (p : Page) (b : Browser) (z : Z) :
  clicks (data (tracker p)) !! "themeToggle" = Some (Num z) →
  let p1 := (toggleTheme p b).1 in
  let b1 := (toggleTheme p b).2 in
  let p2 := (toggleTheme p1 b1).1 in
  let b2 := (toggleTheme p1 b1).2 in
  body_dark (dom b1) = negb (body_dark (dom b))
  ∧ (themePreference (data (tracker p1)) = "dark" ↔ body_dark (dom b1) = true)
  ∧ clicks (data (tracker p1)) !! "themeToggle" = Some (Num (z + 1))
  ∧ (∀ k, k ≠ "themeToggle" →
       clicks (data (tracker p1)) !! k = clicks (data (tracker p)) !! k)
  ∧ engine p1 = engine p
  ∧ body_dark (dom b2) = body_dark (dom b)
  ∧ (themePreference (data (tracker p2)) = "dark" ↔ body_dark (dom b) = true)
  ∧ clicks (data (tracker p2)) !! "themeToggle" = Some (Num (z + 2)).
Proof.
  intros Hz p1 b1 p2 b2.
  destruct (toggleTheme_spec p b) as (Hb & Hp & Hc & _ & _ & He & _).
  destruct (toggleTheme_spec p1 b1) as (Hb' & Hp' & Hc' & _).
  fold p1 b1 in Hb, Hp, Hc, He. fold p2 b2 in Hb', Hp', Hc'. cbv zeta in *.
  assert (H1 : clicks (data (tracker p1)) !! "themeToggle" = Some (Num (z + 1))).
  { rewrite Hc. by apply (count_own_lookup _ _ (Num z)). }
  split; [done|]. split.
  { rewrite Hp, Hb. by destruct (body_dark (dom b)). }
  split; [done|]. split.
  { intros k Hk. rewrite Hc. by apply count_other. }
  split; [done|]. split.
  { rewrite Hb', Hb. by destruct (body_dark (dom b)). }
  split.
  { rewrite Hp', Hb. by destruct (body_dark (dom b)). }
  rewrite Hc'. apply (count_own_lookup _ _ (Num (z + 1))) in H1.
  rewrite H1. simpl. do 2 f_equal. lia.
Qed.

Lemma toggleTheme_keeps_class_and_preference_together_witness :
  themePreference (data (tracker (toggleTheme cta_page cta_browser).1)) = "dark"
  ↔ body_dark (dom (toggleTheme cta_page cta_browser).2) = true.
Proof.
  apply (toggleTheme_keeps_class_and_preference_together cta_page cta_browser 0).
  reflexivity.
Defined.

(** ** Invariants of a visit *)

Lemma kept_counters C V :
  kept_by_actions (λ t _, clicks (data t) = C ∧ sectionViews (data t) = V).
Proof. intros t dark b H. exact H. Qed.

Lemma kept_log_bound :
  kept_by_actions (λ t _, (length (interactions (data t)) ≤ 1000)%nat).
Proof. intros t dark b _. simpl. apply push_capped_le. lia. Qed.

Lemma kept_theme :
  kept_by_actions (λ t dark, themePreference (data t) = "dark" → dark = true).
Proof. by intros t dark b _ _. Qed.

Lemma handleContactSubmit_page s :
  page (handleContactSubmit s) = page s ∧ browser (handleContactSubmit s) = browser s.
Proof. unfold handleContactSubmit. by destruct (_ || _). Qed.

Lemma updateSectionTime_data t b t1 :
  updateSectionTime t b = Some t1 →
  clicks (data t1) = clicks (data t)
  ∧ sectionViews (data t1) = sectionViews (data t)
  ∧ interactions (data t1) = interactions (data t)
  ∧ themePreference (data t1) = themePreference (data t).
Proof.
  unfold updateSectionTime. cbv zeta.
  destruct (add_assign _ _ _); simpl; [|discriminate]. by intros [= <-].
Qed.

Lemma on_section_visible_data id t b t1 :
  on_section_visible id t b = Some t1 →
  clicks (data t1) = clicks (data t)
  ∧ sectionViews (data t1) = count (sectionViews (data t)) id
  ∧ (∃ e, interactions (data t1) = push_capped 1000 e (interactions (data t)))
  ∧ themePreference (data t1) = themePreference (data t).
Proof.
  unfold on_section_visible. destruct (updateSectionTime t b) as [t0|] eqn:E; [|discriminate].
  apply updateSectionTime_data in E as (Hc & Hv & Hi & Hp).
  simpl. intros [= <-]. simpl. rewrite Hc, Hv, Hi, Hp. repeat split. by eexists.
Qed.

Ltac site_step H :=
  cbn [react] in H;
  try match type of H with
      | context [on_section_visible ?id ?t ?b] =>
          let E := fresh "E" in
          destruct (on_section_visible id t b) as [t1|] eqn:E;
          [apply on_section_visible_data in E as (Ec & Ev & [e Ei] & Ep)|discriminate H]
      | context [updateSectionTime ?t ?b] =>
          let E := fresh "E" in
          destruct (updateSectionTime t b) as [t1|] eqn:E;
          [apply updateSectionTime_data in E as (Ec & Ev & Ei & Ep)|discriminate H]
      end;
  cbn [mbind option_bind] in H; injection H as <-;
  unfold on_tracker, on_engine, on_browser;
  cbn [page browser tracker engine form toasts toast_timers active_link].

Lemma react_counters ev s s' :
  react ev s = Some s' →
  counters_le (clicks (data (tracker (page s)))) (clicks (data (tracker (page s'))))
  ∧ counters_le (sectionViews (data (tracker (page s))))
                (sectionViews (data (tracker (page s')))).
Proof.
  destruct s as [p b f ts tt al]. intros H. destruct ev; site_step H.
  - destruct (toggleTheme_spec p b) as (_ & _ & Hc & Hv & _).
    destruct (toggleTheme p b) as [p1 b1]. cbn [fst snd page tracker] in *. rewrite Hc, Hv.
    split; [apply count_counters_le|apply counters_le_refl].
  - simpl. split; [|apply counters_le_refl].
    destruct targetSection as [tg|]; [|apply count_counters_le].
    case_bool_decide; [apply count_counters_le|].
    eapply counters_le_trans; apply count_counters_le.
  - simpl. split; [apply count_counters_le|apply counters_le_refl].
  - simpl. split; [apply count_counters_le|apply counters_le_refl].
  - destruct (handleContactSubmit_page (mkSite p b f ts tt al)) as [-> ->]. simpl.
    split; [apply count_counters_le|apply counters_le_refl].
  - split; apply counters_le_refl.
  - split; apply counters_le_refl.
  - simpl. split; apply counters_le_refl.
  - rewrite Ec, Ev. split; [apply counters_le_refl|apply count_counters_le].
  - simpl. split; [apply counters_le_refl|apply count_counters_le].
  - simpl. split; apply counters_le_refl.
  - simpl. split; apply counters_le_refl.
  - split; apply counters_le_refl.
  - rewrite Ec, Ev. split; apply counters_le_refl.
  - destruct (checkEvolutionRules_keeps _ p b
                (kept_counters (clicks (data (tracker p))) (sectionViews (data (tracker p))))
                ltac:(done)) as [Hc Hv].
    destruct (checkEvolutionRules p b) as [[fired p1] b1]. cbn [fst snd page tracker] in *.
    rewrite Hc, Hv. split; apply counters_le_refl.
  - split; apply counters_le_refl.
Qed.

Lemma react_log_bound ev s s' :
  react ev s = Some s' →
  (length (interactions (data (tracker (page s)))) ≤ 1000)%nat →
  (length (interactions (data (tracker (page s')))) ≤ 1000)%nat.
Proof.
  destruct s as [p b f ts tt al]. intros H Hlen. destruct ev; site_step H;
    cbn [page tracker] in Hlen;
    try (simpl; first [exact Hlen | apply push_capped_le; lia]);
    try (rewrite Ei; first [exact Hlen | apply push_capped_le; lia]).
  pose proof (checkEvolutionRules_keeps _ p b kept_log_bound Hlen) as Hk.
  by destruct (checkEvolutionRules p b) as [[fired p1] b1].
Qed.

Lemma react_theme ev s s' :
  react ev s = Some s' → theme_applied s → theme_applied s'.
Proof.
  destruct s as [p b f ts tt al]. unfold theme_applied. intros H Hth.
  destruct ev; site_step H; cbn [page tracker browser] in Hth;
    try (simpl; rewrite ?saveData_dom; exact Hth);
    try (rewrite Ep, ?saveData_dom; exact Hth).
  - destruct (toggleTheme_spec p b) as (Hb & Hp & _).
    destruct (toggleTheme p b) as [p1 b1]. cbn [fst snd page tracker browser] in *.
    rewrite Hb, Hp. by destruct (body_dark (dom b)).
  - destruct (handleContactSubmit_page (mkSite p b f ts tt al)) as [-> ->]. simpl.
    rewrite saveData_dom. exact Hth.
  - unfold hideEvolutionNotice. by destruct (notice_present (dom b)).
  - pose proof (checkEvolutionRules_keeps _ p b kept_theme Hth) as Hk.
    by destruct (checkEvolutionRules p b) as [[fired p1] b1].
Qed.

(** X21: what a visit never does.  Over every sequence of events the
    page reacts to (clicks on the toggle, the links, the cards, the
    buttons, form submissions, scrolling, sections coming into view, the
    timers, evaluations of the rules), no click counter and no section-view
    counter ever decreases: nothing on the page calls [resetData].  And a
    log of at most 1000 entries stays at most 1000 entries long. *)
Theorem a_visit_never_lowers_a_counter (evs : list site_event) (s s' : Site) :
  react_all evs s = Some s' →
  counters_le (clicks (data (tracker (page s)))) (clicks (data (tracker (page s'))))
  ∧ counters_le (sectionViews (data (tracker (page s))))
                (sectionViews (data (tracker (page s'))))
  ∧ ((length (interactions (data (tracker (page s)))) ≤ 1000)%nat →
     (length (interactions (data (tracker (page s')))) ≤ 1000)%nat).
Proof.
  revert s. induction evs as [|ev rest IH]; intros s H; simpl in H.
  - injection H as <-. split; [apply counters_le_refl|]. split; [apply counters_le_refl|done].
  - destruct (react ev s) as [s1|] eqn:E; [|discriminate].
    destruct (react_counters _ _ _ E) as [Hc Hv].
    destruct (IH s1 H) as (Hc' & Hv' & Hlen).
    split; [by eapply counters_le_trans|]. split; [by eapply counters_le_trans|].
    intros Hl. apply Hlen. by apply (react_log_bound ev s s1).
Qed.

Lemma a_visit_never_lowers_a_counter_witness :
  ∃ s', react_all [CallToActionClicked; ThemeToggleClicked; RulesEvaluated]
                  (mkSite cta_page cta_browser (mkForm "" "" "" "") [] [] None) = Some s'
        ∧ counters_le (clicks (data (tracker cta_page))) (clicks (data (tracker (page s')))).
Proof.
  eexists. split; [reflexivity|].
  eapply (a_visit_never_lowers_a_counter
            [CallToActionClicked; ThemeToggleClicked; RulesEvaluated]
            (mkSite cta_page cta_browser (mkForm "" "" "" "") [] [] None)).
  reflexivity.
Defined.

Lemma new_PortfolioApp_theme b f a s :
  new_PortfolioApp b f a = SiteBuilt s → theme_applied s.
Proof.
  unfold new_PortfolioApp. destruct (new_InteractionTracker b) as [t b1|]; [|done].
  destruct (new_EvolutionEngine t b1) as [fired p b2|]; [|done].
  intros [= <-]. unfold theme_applied, applySavedPreferences, getData. simpl.
  intros Hdark. by rewrite bool_decide_eq_true_2.
Qed.

(** X22: after start-up [dark_theme_default] can no longer do anything.
    Once the application is constructed, the dark preference implies the
    dark class on the body, and every event keeps it so; therefore,
    whenever the predicate of [dark_theme_default] holds later in the
    visit, [setDarkThemeDefault] finds the class already set and changes
    nothing.  The rule can only act in the first evaluation, which the
    engine's constructor runs before [applySavedPreferences]. *)
Theorem dark_theme_default_acts_only_at_startup
    (b : Browser) (f : ContactForm) (a : option nat) (s s' : Site)
    (evs : list site_event) :
  new_PortfolioApp b f a = SiteBuilt s →
  react_all evs s = Some s' →
  theme_applied s'
  ∧ (condition dark_theme_default (data (tracker (page s'))) = true →
     setDarkThemeDefault (page s') (browser s') = (page s', browser s')).
Proof.
  intros Hnew Hrun.
  assert (Hth : theme_applied s').
  { pose proof (new_PortfolioApp_theme _ _ _ _ Hnew) as H0.
    clear Hnew. revert s H0 Hrun. induction evs as [|ev rest IH]; intros s H0 Hrun;
      simpl in Hrun.
    - by injection Hrun as <-.
    - destruct (react ev s) as [s1|] eqn:E; [|discriminate].
      apply (IH s1); [|done]. by apply (react_theme ev s). }
  split; [done|]. intros Hcond. cbn [condition dark_theme_default] in Hcond.
  apply andb_true_iff in Hcond as [_ Hdark]. apply bool_decide_eq_true in Hdark.
  unfold setDarkThemeDefault. cbv zeta. by rewrite (Hth Hdark).
Qed.

Lemma dark_theme_default_acts_only_at_startup_witness :
  ∃ s s',
    new_PortfolioApp full_browser (mkForm "" "" "" "") None = SiteBuilt s
    ∧ react_all [ThemeToggleClicked; ThemeToggleClicked; ThemeToggleClicked] s = Some s'
    ∧ condition dark_theme_default (data (tracker (page s'))) = true
    ∧ setDarkThemeDefault (page s') (browser s') = (page s', browser s').
Proof.
  eexists _, _. split; [vm_compute; reflexivity|]. split; [vm_compute; reflexivity|].
  split; [vm_compute; reflexivity|].
  eapply (dark_theme_default_acts_only_at_startup
            full_browser (mkForm "" "" "" "") None _ _
            [ThemeToggleClicked; ThemeToggleClicked; ThemeToggleClicked]).
  - vm_compute; reflexivity.
  - vm_compute; reflexivity.
  - vm_compute; reflexivity.
Defined.

(** ** The listeners of the form and of the menu *)

Lemma trackClick_clicks type target metadata t b :
  clicks (data (trackClick type target metadata t b).1)
  = match target with
    | Some tg => if bool_decide (tg = "") then count (clicks (data t)) type
                 else count (count (clicks (data t)) type) tg
    | None => count (clicks (data t)) type
    end.
Proof. reflexivity. Qed.

Lemma submit_contact s :
  ∃ s', react ContactFormSubmitted s = Some s'
        ∧ clicks (data (tracker (page s')))
          = count (clicks (data (tracker (page s)))) "contact"
        ∧ form s' = form (handleContactSubmit s)
        ∧ toasts s' = toasts (handleContactSubmit s).
Proof.
  eexists. split; [reflexivity|].
  destruct (handleContactSubmit_page s) as [Hp Hb].
  unfold on_tracker. rewrite Hp.
  destruct (trackClick _ _ _ _ _) as [t' b'] eqn:E. cbn [page tracker form toasts].
  split; [|done].
  change t' with (t', b').1. rewrite <- E. apply trackClick_clicks.
Qed.

Lemma submissions_count n s z :
  clicks (data (tracker (page s))) !! "contact" = Some (Num z) →
  ∃ sn, react_all (replicate n ContactFormSubmitted) s = Some sn
        ∧ clicks (data (tracker (page sn))) !! "contact" = Some (Num (z + Z.of_nat n)).
Proof.
  revert s z. induction n as [|n IH]; intros s z H.
  - exists s. split; [done|]. rewrite H. do 2 f_equal. lia.
  - destruct (submit_contact s) as (s1 & E & Hc & _).
    destruct (IH s1 (z + 1)) as (sn & Hrun & Hn).
    { rewrite Hc. by apply (count_own_lookup _ _ (Num z)). }
    exists sn. cbn [replicate react_all]. rewrite E. split; [done|].
    rewrite Hn. do 2 f_equal. lia.
Qed.

(** X23: the form.  A submission with the four fields filled clears them
    and raises the success toast; with any field empty it keeps the fields
    and raises the error toast.  Either way the listener then calls
    [trackClick('contact')]: the [contact] counter counts attempts, not
    messages.  So n submissions, of an empty form too, add n to the
    counter, and once it is above 5 the predicate of [cta_optimization]
    holds. *)
Theorem contact_submit_counts_every_attempt (s : Site) (z : Z) :
  clicks (data (tracker (page s))) !! "contact" = Some (Num z) →
  (∃ s', react ContactFormSubmitted s = Some s'
     ∧ clicks (data (tracker (page s'))) !! "contact" = Some (Num (z + 1))
     ∧ (∀ k, k ≠ "contact" →
          clicks (data (tracker (page s'))) !! k = clicks (data (tracker (page s))) !! k)
     ∧ (if blank (name_value (form s)) || blank (email_value (form s))
           || blank (subject_value (form s)) || blank (message_value (form s))
        then form s' = form s
             ∧ toasts s' = toasts s ++
                 [mkToast "notification notification-error" (Some "exclamation-circle")
                          "Please fill in all fields before sending."]
        else form s' = mkForm "" "" "" ""
             ∧ toasts s' = toasts s ++
                 [mkToast "notification notification-success" (Some "check-circle")
                          "Message sent successfully! I'll get back to you soon."]))
  ∧ ∀ n : nat,
      ∃ sn, react_all (replicate n ContactFormSubmitted) s = Some sn
        ∧ clicks (data (tracker (page sn))) !! "contact" = Some (Num (z + Z.of_nat n))
        ∧ (5 < z + Z.of_nat n →
           condition cta_optimization (data (tracker (page sn))) = true).
Proof.
  intros H. split.
  - destruct (submit_contact s) as (s' & E & Hc & Hf & Ht).
    exists s'. split; [done|]. rewrite Hc.
    split; [by apply (count_own_lookup _ _ (Num z))|].
    split; [intros k Hk; by apply count_other|].
    rewrite Hf, Ht. unfold handleContactSubmit. by destruct (_ || _).
  - intros n. destruct (submissions_count n s z H) as (sn & Hrun & Hn).
    exists sn. split; [done|]. split; [done|]. intros Hgt.
    cbn [condition cta_optimization]. unfold field at 2. rewrite Hn.
    apply orb_true_iff. right. simpl. apply bool_decide_eq_true. lia.
Qed.

Lemma contact_submit_counts_every_attempt_witness :
  ∃ s6, react_all (replicate 6 ContactFormSubmitted)
                  (mkSite (mkPage fresh_tracker (mkEngine [] ∅ ∅)) sample_browser
                          (mkForm "" "" "" "") [] [] None) = Some s6
        ∧ condition cta_optimization (data (tracker (page s6))) = true
        ∧ form s6 = mkForm "" "" "" "".
Proof.
  destruct (contact_submit_counts_every_attempt
              (mkSite (mkPage fresh_tracker (mkEngine [] ∅ ∅)) sample_browser
                      (mkForm "" "" "" "") [] [] None) 0) as [_ Hn].
  - reflexivity.
  - destruct (Hn 6%nat) as (s6 & Hrun & Hc & Hcond).
    exists s6. split; [exact Hrun|]. split; [apply Hcond; reflexivity|].
    vm_compute in Hrun. injection Hrun as <-. reflexivity.
Defined.

Lemma nav_click link target s :
  target ≠ "" →
  ∃ s', react (NavLinkClicked link (Some target)) s = Some s'
        ∧ clicks (data (tracker (page s')))
          = count (count (clicks (data (tracker (page s)))) "navigation") target
        ∧ active_link s' = Some link.
Proof.
  intros Hne. eexists. split; [reflexivity|]. unfold on_tracker.
  destruct (trackClick _ _ _ _ _) as [t' b'] eqn:E. cbn [page tracker active_link].
  split; [|done].
  change t' with (t', b').1. rewrite <- E, trackClick_clicks.
  by rewrite bool_decide_eq_false_2.
Qed.

Lemma nav_clicks_count link target n s z :
  target ≠ "" → target ≠ "navigation" →
  clicks (data (tracker (page s))) !! target = Some (Num z) →
  ∃ sn, react_all (replicate n (NavLinkClicked link (Some target))) s = Some sn
        ∧ clicks (data (tracker (page sn))) !! target = Some (Num (z + Z.of_nat n)).
Proof.
  intros Hne Hnav. revert s z. induction n as [|n IH]; intros s z H.
  - exists s. split; [done|]. rewrite H. do 2 f_equal. lia.
  - destruct (nav_click link target s Hne) as (s1 & E & Hc & _).
    destruct (IH s1 (z + 1)) as (sn & Hrun & Hn).
    { rewrite Hc. apply (count_own_lookup _ _ (Num z)).
      rewrite count_other by done. exact H. }
    exists sn. cbn [replicate react_all]. rewrite E. split; [done|].
    rewrite Hn. do 2 f_equal. lia.
Qed.

(** X24: the menu.  The listener of a navigation link calls
    [trackClick('navigation', targetSection)], so a click on the link of a
    section that has a click counter of its own ([about], [projects],
    [contact]) adds one to [navigation] and one to that counter, changes
    no other counter and marks the link active.  Navigating therefore
    counts as interest: n visits to [contact] through the menu add n to
    [contact] and, above 5, make the predicate of [cta_optimization] true;
    above 8 visits to [projects] make the predicate of
    [project_highlight] true. *)
Theorem nav_click_counts_the_target_section
    (link : nat) (target : string) (s : Site) (zn z : Z) :
  target ≠ "" → target ≠ "navigation" →
  clicks (data (tracker (page s))) !! "navigation" = Some (Num zn) →
  clicks (data (tracker (page s))) !! target = Some (Num z) →
  (∃ s', react (NavLinkClicked link (Some target)) s = Some s'
     ∧ clicks (data (tracker (page s'))) !! "navigation" = Some (Num (zn + 1))
     ∧ clicks (data (tracker (page s'))) !! target = Some (Num (z + 1))
     ∧ (∀ k, k ≠ "navigation" → k ≠ target →
          clicks (data (tracker (page s'))) !! k = clicks (data (tracker (page s))) !! k)
     ∧ active_link s' = Some link)
  ∧ ∀ n : nat,
      ∃ sn, react_all (replicate n (NavLinkClicked link (Some target))) s = Some sn
        ∧ clicks (data (tracker (page sn))) !! target = Some (Num (z + Z.of_nat n))
        ∧ (target = "contact" → 5 < z + Z.of_nat n →
           condition cta_optimization (data (tracker (page sn))) = true)
        ∧ (target = "projects" → 8 < z + Z.of_nat n →
           condition project_highlight (data (tracker (page sn))) = true).
Proof.
  intros Hne Hnav Hn Ht. split.
  - destruct (nav_click link target s Hne) as (s' & E & Hc & Ha).
    exists s'. split; [done|]. rewrite Hc. split.
    { rewrite count_other by done. by apply (count_own_lookup _ _ (Num zn)). }
    split.
    { apply (count_own_lookup _ _ (Num z)). by rewrite count_other. }
    split; [|done]. intros k Hk1 Hk2. by rewrite !count_other.
  - intros n.
    destruct (nav_clicks_count link target n s z Hne Hnav Ht) as (sn & Hrun & Hcount).
    exists sn. split; [done|]. split; [done|]. split.
    + intros -> Hgt. cbn [condition cta_optimization]. unfold field at 2. rewrite Hcount.
      apply orb_true_iff. right. simpl. apply bool_decide_eq_true. lia.
    + intros -> Hgt. cbn [condition project_highlight]. unfold field. rewrite Hcount.
      simpl. apply bool_decide_eq_true. lia.
Qed.

Lemma nav_click_counts_the_target_section_witness :
  ∃ s6, react_all (replicate 6 (NavLinkClicked 3 (Some "contact")))
                  (mkSite (mkPage fresh_tracker (mkEngine [] ∅ ∅)) sample_browser
                          (mkForm "" "" "" "") [] [] None) = Some s6
        ∧ clicks (data (tracker (page s6))) !! "contact" = Some (Num 6)
        ∧ condition cta_optimization (data (tracker (page s6))) = true.
Proof.
  destruct (nav_click_counts_the_target_section 3 "contact"
              (mkSite (mkPage fresh_tracker (mkEngine [] ∅ ∅)) sample_browser
                      (mkForm "" "" "" "") [] [] None) 0 0) as [_ Hn].
  - discriminate.
  - discriminate.
  - reflexivity.
  - reflexivity.
  - destruct (Hn 6%nat) as (s6 & Hrun & Hc & Hcond & _).
    exists s6. split; [exact Hrun|]. split; [exact Hc|].
    apply Hcond; reflexivity.
Defined.
